(** * the_ark.screen_capture: page screenshots, pagination and header/footer stitching

    A shallow embedding of [src/the_ark/screen_capture.py] (class [Screenshot])
    and the properties of its capture strategies and of the pixel-row stitcher.

    Python integers are unbounded, so they are [Z].  Images are the row arrays
    that [numpy.asarray] exposes.  The Selenium helper, the PNG codec and the
    clock are outside the module: they enter through the class [Collaborators].
    Exceptions do not roll the object state back, so the monad keeps the state
    next to every outcome. *)

From Stdlib Require Import ZArith String List Lia Bool.
From stdpp Require Import base option list gmap strings.

Local Open Scope string_scope.
Local Open Scope Z_scope.

(** ** Raster images (PIL.Image and its numpy view) *)

(** A pixel is the list of its channel values, a row the list of its pixels. *)
Definition pixel := list Z.
Definition row := list pixel.

Inductive mode := L | RGB | RGBA.

Definition bands (m : mode) : nat :=
  match m with L => 1%nat | RGB => 3%nat | RGBA => 4%nat end.

Record Image := {
  im_mode : mode;
  im_width : nat;
  im_rows : list row;
}.

(** [image.width], [image.height], [image.size] *)
Definition width (im : Image) : Z := Z.of_nat (im_width im).
Definition height (im : Image) : Z := Z.of_nat (length (im_rows im)).
Definition Image_size (im : Image) : Z * Z := (width im, height im).

(** [numpy.asarray(image)]: the array of pixel rows, indexed by row first. *)
Definition numpy_asarray (im : Image) : list row := im_rows im.

(** [numpy.array_equal(a, b)]: same shape and same elements. *)
Definition numpy_array_equal (a b : row) : bool := bool_decide (a = b).

(** The zero pixel PIL fills with. *)
Definition blank (m : mode) : pixel := replicate (bands m) 0.

Definition getpixel (im : Image) (x y : Z) : pixel :=
  if (0 <=? x) && (x <? width im) && (0 <=? y) && (y <? height im)
  then default (blank (im_mode im))
         (r ← im_rows im !! Z.to_nat y; r !! Z.to_nat x)
  else blank (im_mode im).

Definition crop_box := (Z * Z * Z * Z)%type.

(** [image.crop(box)] as PIL performs it for the Python 2 releases this module
    runs on: the box is taken as given, a box whose lower (right) edge is above
    (left of) its upper (left) edge yields an empty region, and the part of the
    box outside the image is filled with zero pixels. *)
Definition Image_crop (im : Image) (box : crop_box) : Image :=
  let '(x0, y0, x1, y1) := box in
  let w := Z.max 0 (x1 - x0) in
  let h := Z.max 0 (y1 - y0) in
  {| im_mode := im_mode im;
     im_width := Z.to_nat w;
     im_rows := (λ y, (λ x, getpixel im (x0 + x) (y0 + y)) <$> seqZ 0 w) <$> seqZ 0 h |}.

(** Mode conversion done by [paste] when the pasted image is not RGB. *)
Definition convert_RGB (m : mode) (p : pixel) : pixel :=
  match m with
  | L => match p with v :: _ => [v; v; v] | [] => blank RGB end
  | RGB => p
  | RGBA => take 3 p
  end.

(** [Image.new("RGB", (w, h))]: a black canvas. *)
Definition Image_new_RGB (w h : Z) : Image :=
  {| im_mode := RGB;
     im_width := Z.to_nat w;
     im_rows := replicate (Z.to_nat h) (replicate (Z.to_nat w) (blank RGB)) |}.

(** [canvas.paste(im, (x0, y0))]: overwrite the region the pasted image covers,
    clipped to the canvas. *)
Definition Image_paste (canvas im : Image) (x0 y0 : Z) : Image :=
  let inside x y :=
    (x0 <=? x) && (x <? x0 + width im) && (y0 <=? y) && (y <? y0 + height im) in
  {| im_mode := im_mode canvas;
     im_width := im_width canvas;
     im_rows :=
       imap (λ y r,
         imap (λ x p,
           if inside (Z.of_nat x) (Z.of_nat y)
           then convert_RGB (im_mode im) (getpixel im (Z.of_nat x - x0) (Z.of_nat y - y0))
           else p) r) (im_rows canvas) |}.

(** A box lies within an image when it is a proper rectangle inside
    [(0, 0, width, height)]. *)
Definition box_within (im : Image) (box : crop_box) : Prop :=
  let '(x0, y0, x1, y1) := box in
  0 <= x0 /\ x0 <= x1 /\ x1 <= width im /\ 0 <= y0 /\ y0 <= y1 /\ y1 <= height im.

(** ** Exceptions and outcomes *)

(** An exception raised by a collaborator is known by the names of the classes
    it is an instance of (its MRO); the ones raised in this module are listed. *)
Inductive exn :=
| Raised (mro : list string)
| IndexError (index size : Z)
| ScreenshotException (msg : string) (cause : exn)
| SeleniumError (msg : string) (cause : exn).

Definition mro_of (e : exn) : list string :=
  match e with
  | Raised mro => mro
  | IndexError _ _ => ["IndexError"; "LookupError"; "StandardError"; "Exception"]
  | ScreenshotException _ _ => ["ScreenshotException"; "Exception"]
  | SeleniumError _ _ => ["SeleniumError"; "ScreenshotException"; "Exception"]
  end.

(** [except C:] catches [e] when [isinstance(e, C)]. *)
Definition isinstance (e : exn) (C : string) : bool := bool_decide (C ∈ mro_of e).

Inductive outcome (A : Type) :=
| Return (a : A)
| Raise (e : exn)
| OutOfFuel.
Arguments Return {A} a.
Arguments Raise {A} e.
Arguments OutOfFuel {A}.

(** [OutOfFuel] is not a Python outcome: it marks a run of a [while True] loop
    that the model stopped following. *)

Definition obind {A B} (c : outcome A) (k : A -> outcome B) : outcome B :=
  match c with
  | Return a => k a
  | Raise e => Raise e
  | OutOfFuel => OutOfFuel
  end.

(** ** numpy indexing and the seam search of [_crop_and_stitch_image] *)

(** [a[k]] on the first axis: negative indices count from the end, anything
    outside [-n, n) raises [IndexError]. *)
Definition getitem {A} (a : list A) (k : Z) : outcome A :=
  let n := Z.of_nat (length a) in
  match a !! Z.to_nat (if k <? 0 then k + n else k) with
  | Some v => if (- n <=? k) && (k <? n) then Return v else Raise (IndexError k n)
  | None => Raise (IndexError k n)
  end.

(** [a[start:stop]]: both ends are clipped to the array. *)
Definition slice_index (n i : Z) : Z :=
  if i <? 0 then Z.max 0 (i + n) else Z.min i n.

Definition slice {A} (a : list A) (start stop : Z) : list A :=
  let n := Z.of_nat (length a) in
  drop (Z.to_nat (slice_index n start)) (take (Z.to_nat (slice_index n stop)) a).

(** Line 292: [header_array[header_image_height - self.pixel_match_offset: header_image_height]] *)
Definition header_last_hundred_rows (header_image : Image) (pixel_match_offset : Z) : list row :=
  slice (numpy_asarray header_image)
        (height header_image - pixel_match_offset) (height header_image).

(** Lines 303-311, the inner [for y, row in enumerate(header_last_hundred_rows)]
    from position [y] on; [block] holds the rows not yet enumerated, so its head
    is [header_last_hundred_rows[y]].  A row that differs does not leave the
    loop; only a matching row at [y == pixel_match_offset - 1] does. *)
Fixpoint verify_block (footer_array : list row) (pixel_match_offset i y : Z)
    (block : list row) (crop_row : Z) : outcome Z :=
  match block with
  | [] => Return crop_row
  | row_y :: block' =>
      obind (getitem footer_array (i + y)) (λ footer_row_iy,
        if numpy_array_equal footer_row_iy row_y
        then if y =? pixel_match_offset - 1
             then Return (i + pixel_match_offset)
             else verify_block footer_array pixel_match_offset i (y + 1) block' crop_row
        else verify_block footer_array pixel_match_offset i (y + 1) block' crop_row)
  end.

(** Lines 295-311, the outer [for i, footer_row in enumerate(footer_array)] from
    position [i] on; [rest] holds the footer rows not yet enumerated. *)
Fixpoint scan_footer (footer_array block : list row) (pixel_match_offset i : Z)
    (rest : list row) (crop_row : Z) : outcome Z :=
  match rest with
  | [] => Return crop_row
  | footer_row :: rest' =>
      if negb (crop_row =? 0) then Return crop_row
      else
        obind (getitem block 0) (λ block_0,
          if numpy_array_equal footer_row block_0
          then obind (verify_block footer_array pixel_match_offset i 0 block crop_row)
                 (λ crop_row',
                    scan_footer footer_array block pixel_match_offset (i + 1) rest' crop_row')
          else scan_footer footer_array block pixel_match_offset (i + 1) rest' crop_row)
  end.

(** Lines 284-315: the value of [crop_row] once the fallback has been applied,
    for an offset that has already been clamped. *)
Definition find_crop_row (header_image footer_image : Image) (pixel_match_offset : Z)
  : outcome Z :=
  let footer_array := numpy_asarray footer_image in
  let block := header_last_hundred_rows header_image pixel_match_offset in
  obind (scan_footer footer_array block pixel_match_offset 0 footer_array 0) (λ crop_row,
    Return (if crop_row =? 0 then height header_image else crop_row)).

(** Lines 319-321: [crop_box = (0, crop_row, footer_image_width, footer_image_height)] *)
Definition footer_crop_box (footer_image : Image) (crop_row : Z) : crop_box :=
  (0, crop_row, width footer_image, height footer_image).

(** Lines 319-338: crop the footer, allocate the canvas, paste both parts. *)
Definition stitch_at (header_image footer_image : Image) (crop_row : Z) : Image :=
  let footer_image_width := width footer_image in
  let cropped_footer_image := Image_crop footer_image (footer_crop_box footer_image crop_row) in
  let cropped_footer_image_height := height cropped_footer_image in
  let total_height := height header_image + cropped_footer_image_height in
  let stitched_image := Image_new_RGB footer_image_width total_height in
  let stitched_image := Image_paste stitched_image header_image 0 0 in
  Image_paste stitched_image cropped_footer_image 0 (height header_image).

(** Lines 258: the viewport crop box of [_get_image_data]. *)
Definition viewport_crop_box (current_scroll_position viewport_width viewport_height : Z)
  : crop_box :=
  (0, current_scroll_position, viewport_width, current_scroll_position + viewport_height).

(** ** The [Screenshot] object and its collaborators *)

(** Fields set by [__init__] (lines 40-46); [self.sh] is the separate browser
    component of the state.  [header_ids] and [footer_ids] default to [None]. *)
Record Screenshot := {
  paginated : bool;
  headers : option (list string);
  footers : option (list string);
  scroll_padding : Z;
  pixel_match_offset : Z;
  file_extenson : string;
}.

Definition DEFAULT_SCROLL_PADDING : Z := 100.
Definition SCREENSHOT_FILE_EXTENSION : string := "png".
Definition DEFAULT_PIXEL_MATCH_OFFSET : Z := 100.

(** Lines 17-46: the constructor stores its arguments. *)
Definition __init__ (paginated : bool) (header_ids footer_ids : option (list string))
    (scroll_padding pixel_match_offset : Z) (file_extenson : string) : Screenshot :=
  {| paginated := paginated;
     headers := header_ids;
     footers := footer_ids;
     scroll_padding := scroll_padding;
     pixel_match_offset := pixel_match_offset;
     file_extenson := file_extenson |}.

(** Values found in the capabilities dictionary, with Python truthiness. *)
Inductive py_value :=
| PyNone
| PyBool (b : bool)
| PyInt (n : Z)
| PyStr (s : string).

Definition truthy (v : option py_value) : bool :=
  match v with
  | None | Some PyNone => false
  | Some (PyBool b) => b
  | Some (PyInt n) => negb (n =? 0)
  | Some (PyStr s) => negb (bool_decide (s = ""))
  end.

(** A [StringIO] holding what was written to it, and its file position. *)
Record StringIO := {
  getvalue : string;
  tell : nat;
}.

(** What the module calls and does not define: the Selenium helper [self.sh]
    over a browser state, the image codec and [time.sleep].  Every helper call
    may raise and may change the browser. *)
Class Collaborators (browser : Type) := {
  scroll_an_element :
    string -> bool -> option Z -> browser -> outcome unit * browser;
  get_is_element_scroll_position_at_bottom :
    string -> browser -> outcome bool * browser;
  scroll_window_to_position : Z -> browser -> outcome unit * browser;
  get_window_current_scroll_position : browser -> outcome Z * browser;
  get_viewport_size : browser -> outcome (Z * Z) * browser;
  get_screenshot_base64 : browser -> outcome string * browser;
  desired_capabilities : browser -> gmap string py_value;
  (** [driver.execute_script("return document.documentElement.clientHeight")] *)
  document_clientHeight : browser -> outcome Z * browser;
  hide_element : string -> browser -> outcome unit * browser;
  show_element : string -> browser -> outcome unit * browser;
  (** [Image.open(StringIO(data.decode('base64')))] *)
  Image_open : string -> outcome Image;
  (** [image.save(file, format)]: the bytes written *)
  Image_save : Image -> string -> outcome string;
  (** [time.sleep(seconds)], in milliseconds: the page may settle meanwhile *)
  time_sleep : nat -> browser -> browser;
}.

Record state (browser : Type) := {
  self : Screenshot;
  sh : browser;
}.
Arguments self {browser} s.
Arguments sh {browser} s.

(** State and exception monad: the state reached is kept in every outcome. *)
Definition M (browser A : Type) : Type := state browser -> outcome A * state browser.

Definition ret {browser A} (a : A) : M browser A := λ st, (Return a, st).

Definition raise {browser A} (e : exn) : M browser A := λ st, (Raise e, st).

Definition out_of_fuel {browser A} : M browser A := λ st, (OutOfFuel, st).

Definition bind {browser A B} (c : M browser A) (k : A -> M browser B) : M browser B :=
  λ st,
    match c st with
    | (Return a, st') => k a st'
    | (Raise e, st') => (Raise e, st')
    | (OutOfFuel, st') => (OutOfFuel, st')
    end.

(** [try: c  except ...: handler(e)] *)
Definition try_except {browser A} (c : M browser A) (handler : exn -> M browser A)
  : M browser A :=
  λ st,
    match c st with
    | (Raise e, st') => handler e st'
    | r => r
    end.

Definition lift {browser A} (r : outcome A) : M browser A := λ st, (r, st).

(** A call on [self.sh]. *)
Definition call {browser A} (op : browser -> outcome A * browser) : M browser A :=
  λ st, let '(r, b) := op (sh st) in (r, {| self := self st; sh := b |}).

Definition get_self {browser} : M browser Screenshot := λ st, (Return (self st), st).

Definition get_sh {browser} : M browser browser := λ st, (Return (sh st), st).

Definition set_pixel_match_offset {browser} (v : Z) : M browser unit :=
  λ st,
    (Return tt,
     {| self := {| paginated := paginated (self st);
                   headers := headers (self st);
                   footers := footers (self st);
                   scroll_padding := scroll_padding (self st);
                   pixel_match_offset := v;
                   file_extenson := file_extenson (self st) |};
        sh := sh st |}).

Declare Scope py_scope.
Delimit Scope py_scope with py.
Notation "x <~ c1 ;; c2" := (bind c1 (λ x, c2))
  (at level 100, c1 at next level, right associativity) : py_scope.
Notation "c1 ;; c2" := (bind c1 (λ _, c2))
  (at level 100, right associativity) : py_scope.
Local Open Scope py_scope.

(** [str.upper()] on ASCII. *)
Definition upper_ascii (c : Ascii.ascii) : Ascii.ascii :=
  let n := Ascii.nat_of_ascii c in
  if (97 <=? n)%nat && (n <=? 122)%nat then Ascii.ascii_of_nat (n - 32) else c.

Fixpoint upper (s : string) : string :=
  match s with
  | EmptyString => EmptyString
  | String c s' => String (upper_ascii c) (upper s')
  end.

(** Result of [capture_page]: one file, or the list the paginated strategy
    returns. *)
Inductive capture :=
| OneFile (f : StringIO)
| FileList (fs : list StringIO).

(** ** The methods of [Screenshot] *)

Section Methods.
Context {browser : Type} `{Collaborators browser}.

Local Abbreviation M := (M browser).

(** Lines 344-360 *)
Definition _create_image_file (image : Image) : M StringIO :=
  slf <~ get_self ;;
  data <~ lift (Image_save image (upper (file_extenson slf))) ;;
  let image_file := {| getvalue := data; tell := String.length data |} in
  (* image_file.seek(0) *)
  ret {| getvalue := getvalue image_file; tell := 0 |}.

(** Lines 232-264 *)
Definition _get_image_data (viewport_only : bool) : M Image :=
  image_data <~ call get_screenshot_base64 ;;
  image <~ lift (Image_open image_data) ;;
  b <~ get_sh ;;
  if truthy (desired_capabilities b !! "mobile") then ret image
  else if viewport_only then
    current_scroll_position <~ call get_window_current_scroll_position ;;
    viewport <~ call get_viewport_size ;;
    let '(viewport_width, viewport_height) := viewport in
    let crop_box :=
      viewport_crop_box current_scroll_position viewport_width viewport_height in
    let cropped_image := Image_crop image crop_box in
    ret cropped_image
  else ret image.

(** Lines 122-129 *)
Definition _capture_single_viewport : M StringIO :=
  cropped_image <~ _get_image_data true ;;
  _create_image_file cropped_image.

(** Lines 285-288: the clamp writes the instance attribute. *)
Definition clamp_pixel_match_offset (header_image : Image) : M unit :=
  slf <~ get_self ;;
  if pixel_match_offset slf >? height header_image
  then set_pixel_match_offset (height header_image)
  else ret tt.

(** Lines 266-342 *)
Definition _crop_and_stitch_image (header_image footer_image : Image) : M Image :=
  try_except
    (clamp_pixel_match_offset header_image ;;
     slf <~ get_self ;;
     crop_row <~ lift (find_crop_row header_image footer_image (pixel_match_offset slf)) ;;
     ret (stitch_at header_image footer_image crop_row))
    (λ e,
       if isinstance e "Exception"
       then raise (ScreenshotException
                     "Error while cropping and stitching a full page screenshot" e)
       else raise e).

(** Lines 172-185 *)
Fixpoint _hide_elements (css_selectors : list string) : M unit :=
  match css_selectors with
  | [] => ret tt
  | selector :: css_selectors' =>
      try_except (call (hide_element selector))
        (λ e,
           if isinstance e "ElementNotVisibleError" then ret tt
           else if isinstance e "ElementError" then ret tt
           else raise e) ;;
      _hide_elements css_selectors'
  end.

(** Lines 187-199 *)
Fixpoint _show_elements (css_selectors : list string) : M unit :=
  match css_selectors with
  | [] => ret tt
  | selector :: css_selectors' =>
      try_except (call (show_element selector))
        (λ e, if isinstance e "ElementError" then ret tt else raise e) ;;
      _show_elements css_selectors'
  end.

Definition sleep (ms : nat) : M unit :=
  λ st, (Return tt, {| self := self st; sh := time_sleep ms (sh st) |}).

(** Lines 131-170.  A selector list is true when it is a non-empty list. *)
Definition _capture_full_page : M StringIO :=
  slf <~ get_self ;;
  image_data <~
    match headers slf, footers slf with
    | Some ((_ :: _) as hs), Some ((_ :: _) as fs) =>
        call (scroll_window_to_position 0) ;;
        _hide_elements fs ;;
        header_image <~ _get_image_data true ;;
        _show_elements fs ;;
        call (scroll_window_to_position 40000) ;;
        _hide_elements hs ;;
        footer_image <~ _get_image_data false ;;
        _show_elements hs ;;
        _crop_and_stitch_image header_image footer_image
    | Some (_ :: _), _ =>
        call (scroll_window_to_position 0) ;;
        sleep 500 ;;
        _get_image_data false
    | _, Some (_ :: _) =>
        call (scroll_window_to_position 40000) ;;
        sleep 500 ;;
        _get_image_data false
    | _, _ => _get_image_data false
    end ;;
  _create_image_file image_data.

(** [x if x else default] on an optional integer argument. *)
Definition or_default (x : option Z) (default : Z) : Z :=
  match x with
  | Some v => if v =? 0 then default else v
  | None => default
  end.

(** Lines 215-228, the [while True] of [_capture_paginated_page]. *)
Fixpoint paginated_loop (fuel : nat) (scroll_padding viewport_height : Z)
    (current_scroll_position : Z) (image_list : list StringIO) : M (list StringIO) :=
  match fuel with
  | O => out_of_fuel
  | S fuel' =>
      f <~ _capture_single_viewport ;;
      let image_list := (image_list ++ [f])%list in
      call (scroll_window_to_position
              (current_scroll_position + viewport_height - scroll_padding)) ;;
      sleep 250 ;;
      new_scroll_position <~ call get_window_current_scroll_position ;;
      if new_scroll_position =? current_scroll_position
      then ret image_list
      else paginated_loop fuel' scroll_padding viewport_height new_scroll_position image_list
  end.

(** Lines 201-230 *)
Definition _capture_paginated_page (fuel : nat) (padding : option Z) : M (list StringIO) :=
  slf <~ get_self ;;
  let scroll_padding := or_default padding (scroll_padding slf) in
  call (scroll_window_to_position 0) ;;
  let current_scroll_position := 0 in
  viewport_height <~ call document_clientHeight ;;
  paginated_loop fuel scroll_padding viewport_height current_scroll_position [].

(** Handlers of lines 66-72 and 111-120. *)
Definition wrap_errors {A} (selenium_msg unhandled_msg : string) (c : M A) : M A :=
  try_except c
    (λ e,
       if isinstance e "SeleniumHelperExceptions"
       then raise (SeleniumError selenium_msg e)
       else if isinstance e "Exception"
       then raise (ScreenshotException unhandled_msg e)
       else raise e).

(** Lines 48-72 *)
Definition capture_page (fuel : nat) (viewport_only : bool) (padding : option Z)
  : M capture :=
  wrap_errors "A selenium issue arose while taking the screenshot"
              "Unhandled exception while taking the screenshot"
    (slf <~ get_self ;;
     if viewport_only then
       f <~ _capture_single_viewport ;; ret (OneFile f)
     else if paginated slf then
       fs <~ _capture_paginated_page fuel padding ;; ret (FileList fs)
     else
       f <~ _capture_full_page ;; ret (OneFile f)).

(** Lines 95-107, the [while True] of [capture_scrolling_element]. *)
Fixpoint scrolling_loop (fuel : nat) (css_selector : string) (viewport_only : bool)
    (padding : Z) (image_list : list StringIO) : M (list StringIO) :=
  match fuel with
  | O => out_of_fuel
  | S fuel' =>
      f <~ (if viewport_only then _capture_single_viewport else _capture_full_page) ;;
      let image_list := (image_list ++ [f])%list in
      at_bottom <~ call (get_is_element_scroll_position_at_bottom css_selector) ;;
      if at_bottom then ret image_list
      else
        call (scroll_an_element css_selector false (Some padding)) ;;
        scrolling_loop fuel' css_selector viewport_only padding image_list
  end.

(** Lines 74-120 *)
Definition capture_scrolling_element (fuel : nat) (css_selector : string)
    (viewport_only : bool) (scroll_padding_arg : option Z) : M (list StringIO) :=
  slf <~ get_self ;;
  let padding := or_default scroll_padding_arg (scroll_padding slf) in
  wrap_errors "A selenium issue arose while trying to capture the scrolling element"
              "Unhandled exception while taking the scrolling screenshot of the element"
    (call (scroll_an_element css_selector true None) ;;
     scrolling_loop fuel css_selector viewport_only padding []).

End Methods.

(** ** Vocabulary of the properties *)

(** The header's trailing block sits in the footer at row [i]: every one of its
    rows is there, in order. *)
Definition block_at (footer_array block : list row) (i : nat) : Prop :=
  ∀ (y : nat) (r : row), block !! y = Some r → footer_array !! (i + y)%nat = Some r.

(** What the scan of lines 301-311 really tests at row [i]: the first and the
    last row of the block, the latter [offset - 1] rows further down. *)
Definition ends_at (footer_array block : list row) (i : nat) : Prop :=
  ∃ r0 rl, block !! 0%nat = Some r0 ∧ last block = Some rl ∧
           footer_array !! i = Some r0 ∧
           footer_array !! (i + (length block - 1))%nat = Some rl.


(** The same record with another [pixel_match_offset]. *)
Definition with_pixel_match_offset (slf : Screenshot) (v : Z) : Screenshot :=
  {| paginated := paginated slf;
     headers := headers slf;
     footers := footers slf;
     scroll_padding := scroll_padding slf;
     pixel_match_offset := v;
     file_extenson := file_extenson slf |}.

(** Two configurations agree on every field but [pixel_match_offset], which
    has not grown. *)
Definition frame (before after : Screenshot) : Prop :=
  paginated after = paginated before ∧
  headers after = headers before ∧
  footers after = footers before ∧
  scroll_padding after = scroll_padding before ∧
  file_extenson after = file_extenson before ∧
  pixel_match_offset after <= pixel_match_offset before.

(** All six fields agree. *)
Definition same_configuration (before after : Screenshot) : Prop :=
  paginated after = paginated before ∧
  headers after = headers before ∧
  footers after = footers before ∧
  scroll_padding after = scroll_padding before ∧
  pixel_match_offset after = pixel_match_offset before ∧
  file_extenson after = file_extenson before.

(** An exception is an [IndexError]. *)
Definition index_error (e : exn) : Prop := ∃ index size, e = IndexError index size.

(** The message of the [ScreenshotException] raised by the stitcher. *)
Definition stitch_error : string :=
  "Error while cropping and stitching a full page screenshot".

(** The state once the browser has moved to [b]; the object is untouched. *)
Definition on_browser {browser} (st : state browser) (b : browser) : state browser :=
  {| self := self st; sh := b |}.

(** The failures [_hide_elements] (lines 182-185) and [_show_elements]
    (line 198) let pass. *)
Definition swallowed_by_hide (e : exn) : bool :=
  isinstance e "ElementNotVisibleError" || isinstance e "ElementError".

Definition swallowed_by_show (e : exn) : bool := isinstance e "ElementError".

Section Sweep.
Context {browser : Type}.
Variable toggle : string -> browser -> outcome unit * browser.
Variable swallowed : exn -> bool.

(** The toggle of one selector returns, or fails in a way that is let pass. *)
Definition passes (selector : string) (b : browser) : Prop :=
  match fst (toggle selector b) with
  | Return _ => True
  | Raise e => swallowed e = true
  | OutOfFuel => False
  end.

(** The browser after the toggles of [selectors] have been attempted in order. *)
Definition attempt_all (selectors : list string) (b : browser) : browser :=
  foldl (λ b selector, snd (toggle selector b)) b selectors.

(** Every selector passes, each on the browser left by the ones before it. *)
Fixpoint all_pass (selectors : list string) (b : browser) : Prop :=
  match selectors with
  | [] => True
  | selector :: selectors' =>
      passes selector b ∧ all_pass selectors' (snd (toggle selector b))
  end.

End Sweep.

(** A computation leaves the configuration framed, whatever its outcome. *)
Definition preserves {browser A} (c : M browser A) : Prop :=
  ∀ st, frame (self st) (self (snd (c st))).

(** ** A browser to run the strategies on *)

(** Modelled from the spec: the browser behind [the_ark.selenium_helpers], which
    is not part of this module.  The window scroll position is clamped to
    [[0, page_height - viewport_height]]; an element that is missing fails its
    toggle with [ElementError], one that is already hidden fails [hide_element]
    with [ElementNotVisibleError] (taken to derive from [ElementError]), and a
    selector in [broken] fails with a driver error.  [scroll_log] keeps the position reached by every window
    scroll command and [toggle_log] every toggle attempted, oldest first.  The
    image format is one grey pixel per row, one byte each. *)
Record page := {
  page_height : Z;
  viewport : Z * Z;
  scroll_top : Z;
  screenshot_data : string;
  capabilities : gmap string py_value;
  missing : list string;
  hidden : list string;
  broken : list string;
  scroll_log : list Z;
  toggle_log : list string;
}.

Definition set_scroll (p : page) (position : Z) : page :=
  {| page_height := page_height p;
     viewport := viewport p;
     scroll_top := position;
     screenshot_data := screenshot_data p;
     capabilities := capabilities p;
     missing := missing p;
     hidden := hidden p;
     broken := broken p;
     scroll_log := scroll_log p ++ [position];
     toggle_log := toggle_log p |}.

Definition set_hidden (p : page) (selector : string) (now_hidden : list string) : page :=
  {| page_height := page_height p;
     viewport := viewport p;
     scroll_top := scroll_top p;
     screenshot_data := screenshot_data p;
     capabilities := capabilities p;
     missing := missing p;
     hidden := now_hidden;
     broken := broken p;
     scroll_log := scroll_log p;
     toggle_log := toggle_log p ++ [selector] |}.

Definition clamp_scroll (p : page) (target : Z) : Z :=
  Z.max 0 (Z.min target (page_height p - snd (viewport p))).

Definition helper_error (class : string) : exn :=
  Raised (if bool_decide (class = "ElementNotVisibleError")
          then [class; "ElementError"; "SeleniumHelperExceptions"; "Exception"]
          else [class; "SeleniumHelperExceptions"; "Exception"]).

Definition model_toggle (hide : bool) (selector : string) (p : page)
  : outcome unit * page :=
  if bool_decide (selector ∈ broken p)
  then (Raise (helper_error "DriverExceptions"), set_hidden p selector (hidden p))
  else if bool_decide (selector ∈ missing p)
  then (Raise (helper_error "ElementError"), set_hidden p selector (hidden p))
  else if hide then
    if bool_decide (selector ∈ hidden p)
    then (Raise (helper_error "ElementNotVisibleError"), set_hidden p selector (hidden p))
    else (Return tt, set_hidden p selector (selector :: hidden p))
  else (Return tt, set_hidden p selector (filter (λ s, s ≠ selector) (hidden p))).

Fixpoint rows_of_bytes (s : string) : list row :=
  match s with
  | EmptyString => []
  | String c s' => [[Z.of_nat (Ascii.nat_of_ascii c)]] :: rows_of_bytes s'
  end.

Definition byte_of_row (r : row) : Ascii.ascii :=
  match r with
  | (v :: _) :: _ => Ascii.ascii_of_nat (Z.to_nat v)
  | _ => Ascii.zero
  end.

Definition bytes_of_rows (rows : list row) : string :=
  foldr (λ r s, String (byte_of_row r) s) EmptyString rows.

#[local] Instance model_collaborators : Collaborators page := {|
  scroll_an_element := λ _ _ _ p, (Return tt, p);
  get_is_element_scroll_position_at_bottom := λ _ p, (Return true, p);
  scroll_window_to_position := λ target p, (Return tt, set_scroll p (clamp_scroll p target));
  get_window_current_scroll_position := λ p, (Return (scroll_top p), p);
  get_viewport_size := λ p, (Return (viewport p), p);
  get_screenshot_base64 := λ p, (Return (screenshot_data p), p);
  desired_capabilities := capabilities;
  document_clientHeight := λ p, (Return (snd (viewport p)), p);
  hide_element := model_toggle true;
  show_element := model_toggle false;
  Image_open := λ data,
    Return {| im_mode := L; im_width := 1; im_rows := rows_of_bytes data |};
  Image_save := λ image _, Return (bytes_of_rows (im_rows image));
  time_sleep := λ _ p, p;
|}.

(** A one-column greyscale image from its grey values. *)
Definition column (values : list Z) : Image :=
  {| im_mode := L; im_width := 1; im_rows := (λ v, [[v]]) <$> values |}.

(** [Screenshot(selenium_helper)] with every keyword argument left out. *)
Definition default_screenshot : Screenshot :=
  __init__ false None None DEFAULT_SCROLL_PADDING DEFAULT_PIXEL_MATCH_OFFSET
    SCREENSHOT_FILE_EXTENSION.

Definition blank_page (page_height viewport_width viewport_height : Z) (data : string) : page :=
  {| page_height := page_height;
     viewport := (viewport_width, viewport_height);
     scroll_top := 0;
     screenshot_data := data;
     capabilities := ∅;
     missing := [];
     hidden := [];
     broken := [];
     scroll_log := [];
     toggle_log := [] |}.

(** ** Further vocabulary *)

(** Every row of the image has [im_width] pixels, as in an array that
    [numpy.asarray] returns. *)
Definition well_formed (im : Image) : Prop :=
  Forall (λ r : row, length r = im_width im) (im_rows im).

(** The rows of an image of mode [m] as [paste] writes them on an RGB canvas. *)
Definition convert_rows (m : mode) (rows : list row) : list row :=
  (λ r : row, convert_RGB m <$> r) <$> rows.

(** A file positioned at its start. *)
Definition rewound (f : StringIO) : Prop := tell f = 0%nat.

(** Whatever a computation returns satisfies [P]. *)
Definition returns {browser A} (c : M browser A) (P : A -> Prop) : Prop :=
  ∀ st a st', c st = (Return a, st') → P a.

(** Messages of the exceptions raised by the two entry points. *)
Definition page_selenium_error : string :=
  "A selenium issue arose while taking the screenshot".
Definition page_unhandled_error : string :=
  "Unhandled exception while taking the screenshot".
Definition element_selenium_error : string :=
  "A selenium issue arose while trying to capture the scrolling element".
Definition element_unhandled_error : string :=
  "Unhandled exception while taking the scrolling screenshot of the element".

(** How lines 66-72 and 111-120 re-raise a failure [cause]. *)
Definition wrapped (selenium_msg unhandled_msg : string) (cause e : exn) : Prop :=
  if isinstance cause "SeleniumHelperExceptions" then e = SeleniumError selenium_msg cause
  else if isinstance cause "Exception" then e = ScreenshotException unhandled_msg cause
  else e = cause.

(** ** Calls made on the collaborators *)

(** One call on [self.sh] or on [time.sleep], with its arguments. *)
Inductive helper_call :=
| ScrollAnElement (css_selector : string) (scroll_top : bool) (scroll_padding : option Z)
| IsAtBottom (css_selector : string)
| ScrollWindowTo (position : Z)
| ReadScrollPosition
| ReadViewportSize
| TakeScreenshot
| ReadClientHeight
| HideElement (css_selector : string)
| ShowElement (css_selector : string)
| Sleep (ms : nat).

(** Every call but the two reads that [_get_image_data] makes only outside a
    mobile context. *)
Definition observed (c : helper_call) : bool :=
  match c with
  | ReadScrollPosition | ReadViewportSize => false
  | _ => true
  end.

(** A helper call that also appends itself to the record kept beside the
    browser. *)
Definition record_call {browser A} (c : helper_call)
    (op : browser -> outcome A * browser)
  : browser * list helper_call -> outcome A * (browser * list helper_call) :=
  λ bl, let '(r, b) := op (fst bl) in (r, (b, (snd bl ++ [c])%list)).

(** Any collaborators, wrapped so that every call is recorded in order; the
    outcomes and the browser are those of the wrapped collaborators. *)
Definition recording {browser} (base : Collaborators browser)
  : Collaborators (browser * list helper_call) :=
  {| scroll_an_element := λ css top pad,
       record_call (ScrollAnElement css top pad) (scroll_an_element css top pad);
     get_is_element_scroll_position_at_bottom := λ css,
       record_call (IsAtBottom css) (get_is_element_scroll_position_at_bottom css);
     scroll_window_to_position := λ position,
       record_call (ScrollWindowTo position) (scroll_window_to_position position);
     get_window_current_scroll_position :=
       record_call ReadScrollPosition get_window_current_scroll_position;
     get_viewport_size := record_call ReadViewportSize get_viewport_size;
     get_screenshot_base64 := record_call TakeScreenshot get_screenshot_base64;
     desired_capabilities := λ bl, desired_capabilities (fst bl);
     document_clientHeight := record_call ReadClientHeight document_clientHeight;
     hide_element := λ css, record_call (HideElement css) (hide_element css);
     show_element := λ css, record_call (ShowElement css) (show_element css);
     Image_open := Image_open;
     Image_save := Image_save;
     time_sleep := λ ms bl, (time_sleep ms (fst bl), (snd bl ++ [Sleep ms])%list) |}.

(** The calls a computation adds to the record satisfy [Q], together with its
    outcome. *)
Definition emits {browser A} (c : M (browser * list helper_call) A)
    (Q : outcome A -> list helper_call -> Prop) : Prop :=
  ∀ st, ∃ calls, snd (sh (snd (c st))) = (snd (sh st) ++ calls)%list
                 ∧ Q (fst (c st)) calls.

(** The calls selected by [keep] are exactly [plan] when the computation
    returns, and a prefix of [plan] when it does not. *)
Definition follows {A} (keep : helper_call -> bool) (plan : list helper_call)
    (r : outcome A) (calls : list helper_call) : Prop :=
  match r with
  | Return _ => filter (λ c, keep c = true) calls = plan
  | _ => filter (λ c, keep c = true) calls `prefix_of` plan
  end.

(** The observed calls of a complete [_capture_full_page], by the sticky
    selectors of the instance. *)
Definition full_page_calls (slf : Screenshot) : list helper_call :=
  match headers slf, footers slf with
  | Some ((_ :: _) as hs), Some ((_ :: _) as fs) =>
      (ScrollWindowTo 0 :: (HideElement <$> fs) ++ TakeScreenshot :: (ShowElement <$> fs)
         ++ ScrollWindowTo 40000 :: (HideElement <$> hs) ++ TakeScreenshot
         :: (ShowElement <$> hs))%list
  | Some (_ :: _), _ => [ScrollWindowTo 0; Sleep 500; TakeScreenshot]
  | _, Some (_ :: _) => [ScrollWindowTo 40000; Sleep 500; TakeScreenshot]
  | _, _ => [TakeScreenshot]
  end.

(** The observed calls of one capture inside [capture_scrolling_element]. *)
Definition element_capture_calls (slf : Screenshot) (viewport_only : bool)
  : list helper_call :=
  if viewport_only then [TakeScreenshot] else full_page_calls slf.

(** When the computation returns [a], the calls observed so far ([before],
    then its own) satisfy [P a]. *)
Definition completes {A} (before : list helper_call)
    (P : A -> list helper_call -> Prop) (r : outcome A) (calls : list helper_call) : Prop :=
  match r with
  | Return a => P a (before ++ filter (λ c, observed c = true) calls)%list
  | _ => True
  end.

(** The observed calls of one turn of the pagination loop that scrolls to
    [target]. *)
Definition page_step (target : Z) : list helper_call :=
  [TakeScreenshot; ScrollWindowTo target; Sleep 250].

(** The observed calls of a pagination loop that returns [files], entered with
    [image_list]: one step per image captured. *)
Definition paginated_calls (image_list files : list StringIO)
    (calls : list helper_call) : Prop :=
  ∃ targets, length files = (length image_list + length targets)%nat
             ∧ targets ≠ []
             ∧ calls = flat_map page_step targets.

(** The observed calls of a viewport-only element loop that returns [files],
    entered with [image_list]: a screenshot and a bottom probe per image, and
    an element scroll between two images. *)
Definition element_calls (css_selector : string) (padding : Z)
    (image_list files : list StringIO) (calls : list helper_call) : Prop :=
  ∃ advances : nat,
    length files = (length image_list + S advances)%nat
    ∧ calls = ([TakeScreenshot; IsAtBottom css_selector]
               ++ concat (replicate advances
                            [ScrollAnElement css_selector false (Some padding);
                             TakeScreenshot; IsAtBottom css_selector]))%list.

(** ** Exception objects (lines 363-386) *)

(** A details dictionary maps names to strings or to [None]; dictionaries are
    kept in a store and referred to by location, since a constructor keeps the
    very dictionary it is given. *)
Record exception_object := {
  exc_msg : string;
  exc_details : nat;
}.

(** The attributes of a Selenium helper exception that [SeleniumError] reads. *)
Record helper_exception := {
  she_msg : string;
  she_stacktrace : option string;
  she_details : option nat;
}.

(** [{}]: a new dictionary at a location not in use. *)
Definition new_dict (h : gmap nat (gmap string (option string)))
  : nat * gmap nat (gmap string (option string)) :=
  let l := fresh (dom h) in (l, <[l := ∅]> h).

(** Lines 364-368, [ScreenshotException.__init__(msg, stacktrace, details)]. *)
Definition ScreenshotException_init (msg : string) (stacktrace : option string)
    (details : option nat) (h : gmap nat (gmap string (option string)))
  : exception_object * gmap nat (gmap string (option string)) :=
  let '(l, h1) := match details with
                  | None => new_dict h
                  | Some l => (l, h)
                  end in
  ({| exc_msg := msg; exc_details := l |},
   alter (λ d, <["stracktrace" := stacktrace]> d) l h1).

(** Lines 382-386, [SeleniumError.__init__(message, selenium_helper_exception)]. *)
Definition SeleniumError_init (message : string) (e : helper_exception)
    (h : gmap nat (gmap string (option string)))
  : exception_object * gmap nat (gmap string (option string)) :=
  let new_message := message ++ " | " ++ she_msg e in
  ScreenshotException_init new_message (she_stacktrace e) (she_details e) h.

(** The line feed character, as a string. *)
Definition newline : string := String (Ascii.ascii_of_nat 10) EmptyString.

(** [str(value)] of a dictionary value. *)
Definition str_detail (v : option string) : string :=
  match v with
  | None => "None"
  | Some s => s
  end.

(** Lines 370-378, [ScreenshotException.__str__]; [items] is
    [self.details.items()], in the order the dictionary yields them. *)
Definition ScreenshotException_str (msg : string)
    (items : list (string * option string)) : string :=
  let exception_msg := "Screenshot Exception: " ++ newline in
  let detail_string := "Exception Details:" ++ newline in
  let detail_string :=
    foldl (λ acc kv, acc ++ (fst kv ++ ": " ++ str_detail (snd kv) ++ newline))
          detail_string items in
  let exception_msg := exception_msg ++ detail_string in
  exception_msg ++ ("Message: " ++ msg).

(** ** [the_ark.s3_client]: the path and key helpers *)

(** The character [/]. *)
Definition slash : Ascii.ascii := Ascii.ascii_of_nat 47.

(** [s.lstrip("/")] and [s.rstrip("/")]. *)
Fixpoint lstrip_slash (s : string) : string :=
  match s with
  | EmptyString => EmptyString
  | String c s' => if Ascii.eqb c slash then lstrip_slash s' else s
  end.

Fixpoint rstrip_slash (s : string) : string :=
  match s with
  | EmptyString => EmptyString
  | String c s' =>
      match rstrip_slash s' with
      | EmptyString => if Ascii.eqb c slash then EmptyString else String c EmptyString
      | r => String c r
      end
  end.

(** [s.strip("/")]: both ends. *)
Definition strip_slash (s : string) : string := rstrip_slash (lstrip_slash s).

(** Line 140 of [s3_client.py]:
    ["{0}/{1}".format(s3_path.strip("/"), file_to_store.strip("/"))] *)
Definition _generate_file_path (s3_path file_to_store : string) : string :=
  (strip_slash s3_path ++ "/" ++ strip_slash file_to_store)%string.

(** [n] slashes. *)
Fixpoint slashes (n : nat) : string :=
  match n with
  | O => EmptyString
  | S n' => String slash (slashes n')
  end.

(** A string that neither starts nor ends with a slash. *)
Definition no_outer_slash (s : string) : Prop :=
  (∀ t, s ≠ String slash t) ∧ (∀ t, s ≠ (t ++ String slash EmptyString)%string).

(** A key of a bucket listing, with the attribute the selection reads. *)
Record s3_key (T : Type) := {
  key_name : string;
  last_modified : T;
}.
Arguments key_name {T} _.
Arguments last_modified {T} _.

(** Lines 164-168 of [s3_client.py]; [gtb] is [>] on [last_modified] values,
    and a key object is true. *)
Definition get_most_recent_file_from_s3_key_list {T} (gtb : T -> T -> bool)
    (key_list : list (s3_key T)) : option (s3_key T) :=
  foldl (λ most_recent_key key,
           match most_recent_key with
           | None => Some key
           | Some most_recent =>
               if gtb (last_modified key) (last_modified most_recent)
               then Some key else Some most_recent
           end)
        None key_list.

(** ** A browser with a scrollable element *)

(** Modelled from the spec: the Selenium helper is not part of the sources.
    The element scope of the scroll controller: an element [element_height]
    high shows a content of [element_scroll_height] rows from
    [element_scroll_top] on; it is at its bottom when the content's last row
    is shown; scrolled to the top it shows the content from row 0, and
    scrolled forward it advances by its height less the padding, as far as
    the content goes. *)
Record panel := {
  panel_page : page;
  element_scroll_height : Z;
  element_height : Z;
  element_scroll_top : Z;
}.

Definition set_element_scroll (q : panel) (position : Z) : panel :=
  {| panel_page := panel_page q;
     element_scroll_height := element_scroll_height q;
     element_height := element_height q;
     element_scroll_top := position |}.

Definition element_at_bottom (q : panel) : bool :=
  element_scroll_height q <=? element_scroll_top q + element_height q.

Definition scroll_panel (scroll_top : bool) (scroll_padding : option Z) (q : panel) : panel :=
  if scroll_top then set_element_scroll q 0
  else
    let target := element_scroll_top q + (element_height q - or_default scroll_padding 0) in
    set_element_scroll q
      (Z.max 0 (Z.min target (element_scroll_height q - element_height q))).

(** A call on the page that holds the element. *)
Definition on_page {A} (call : page -> outcome A * page) (q : panel) : outcome A * panel :=
  let '(r, p) := call (panel_page q) in
  (r, {| panel_page := p;
         element_scroll_height := element_scroll_height q;
         element_height := element_height q;
         element_scroll_top := element_scroll_top q |}).

#[local] Instance panel_collaborators : Collaborators panel := {|
  scroll_an_element := λ _ scroll_top scroll_padding q,
    (Return tt, scroll_panel scroll_top scroll_padding q);
  get_is_element_scroll_position_at_bottom := λ _ q, (Return (element_at_bottom q), q);
  scroll_window_to_position := λ target,
    on_page (scroll_window_to_position (Collaborators := model_collaborators) target);
  get_window_current_scroll_position :=
    on_page (get_window_current_scroll_position (Collaborators := model_collaborators));
  get_viewport_size := on_page (get_viewport_size (Collaborators := model_collaborators));
  get_screenshot_base64 :=
    on_page (get_screenshot_base64 (Collaborators := model_collaborators));
  desired_capabilities := λ q, capabilities (panel_page q);
  document_clientHeight :=
    on_page (document_clientHeight (Collaborators := model_collaborators));
  hide_element := λ selector,
    on_page (hide_element (Collaborators := model_collaborators) selector);
  show_element := λ selector,
    on_page (show_element (Collaborators := model_collaborators) selector);
  Image_open := Image_open (Collaborators := model_collaborators);
  Image_save := Image_save (Collaborators := model_collaborators);
  time_sleep := λ _ q, q;
|}.

(** * Properties *)

(** ** Image sizes *)

Lemma height_Image_crop im x0 y0 x1 y1 :
  height (Image_crop im (x0, y0, x1, y1)) = Z.max 0 (y1 - y0).
Proof.
  unfold height; simpl. rewrite length_fmap, length_seqZ. lia.
Qed.

Lemma width_Image_crop im x0 y0 x1 y1 :
  width (Image_crop im (x0, y0, x1, y1)) = Z.max 0 (x1 - x0).
Proof. unfold width; simpl. lia. Qed.

Lemma height_Image_paste canvas im x0 y0 :
  height (Image_paste canvas im x0 y0) = height canvas.
Proof. unfold height; simpl. now rewrite length_imap. Qed.

Lemma width_Image_paste canvas im x0 y0 :
  width (Image_paste canvas im x0 y0) = width canvas.
Proof. reflexivity. Qed.

Lemma height_Image_new_RGB w h : 0 <= h → height (Image_new_RGB w h) = h.
Proof. intros Hh. unfold height; simpl. rewrite length_replicate. lia. Qed.

Lemma width_Image_new_RGB w h : 0 <= w → width (Image_new_RGB w h) = w.
Proof. intros Hw. unfold width; simpl. lia. Qed.

Lemma height_nonneg im : 0 <= height im.
Proof. unfold height. lia. Qed.

Lemma width_nonneg im : 0 <= width im.
Proof. unfold width. lia. Qed.

Lemma size_stitch_at header_image footer_image crop_row :
  height (stitch_at header_image footer_image crop_row)
    = height header_image + Z.max 0 (height footer_image - crop_row)
  ∧ width (stitch_at header_image footer_image crop_row) = width footer_image.
Proof.
  unfold stitch_at, footer_crop_box.
  rewrite !height_Image_paste, !width_Image_paste, height_Image_crop.
  pose proof (height_nonneg header_image). pose proof (width_nonneg footer_image).
  rewrite height_Image_new_RGB, width_Image_new_RGB by lia. done.
Qed.

(** ** numpy indexing *)

Lemma getitem_lookup {A} (a : list A) (k : nat) (v : A) :
  a !! k = Some v → getitem a (Z.of_nat k) = Return v.
Proof.
  intros Hk. pose proof (lookup_lt_Some _ _ _ Hk) as Hlt. unfold getitem.
  destruct (Z.ltb_spec (Z.of_nat k) 0) as [?|_]; [lia|].
  rewrite Nat2Z.id, Hk.
  destruct (Z.leb_spec (- Z.of_nat (length a)) (Z.of_nat k)); [|lia].
  destruct (Z.ltb_spec (Z.of_nat k) (Z.of_nat (length a))); [done|lia].
Qed.

Lemma getitem_overrun {A} (a : list A) (k : Z) :
  Z.of_nat (length a) <= k → getitem a k = Raise (IndexError k (Z.of_nat (length a))).
Proof.
  intros Hk. unfold getitem.
  destruct (Z.ltb_spec k 0) as [?|_]; [lia|].
  destruct (a !! Z.to_nat k) eqn:E; [|done].
  apply lookup_lt_Some in E. lia.
Qed.

(** ** The inner loop *)

(** When the whole block fits below row [i], the inner loop never fails and
    its answer depends on one comparison only: the block's last row. *)
Lemma verify_block_fits footer_array pmo (i : nat) (y : Z) block crop_row :
  0 <= y → block ≠ [] → y + Z.of_nat (length block) = pmo →
  Z.of_nat i + pmo <= Z.of_nat (length footer_array) →
  verify_block footer_array pmo (Z.of_nat i) y block crop_row
  = Return (if bool_decide (footer_array !! Z.to_nat (Z.of_nat i + pmo - 1) = last block)
            then Z.of_nat i + pmo else crop_row).
Proof.
  revert y. induction block as [|r block IH]; intros y Hy Hne Hlen Hfit; [done|].
  simpl in Hlen. cbn [verify_block].
  assert (Hin : is_Some (footer_array !! (i + Z.to_nat y)%nat)).
  { apply lookup_lt_is_Some. lia. }
  destruct Hin as [fr Hfr].
  replace (Z.of_nat i + y) with (Z.of_nat (i + Z.to_nat y)) by lia.
  rewrite (getitem_lookup _ _ _ Hfr). cbn [obind].
  destruct block as [|r' block].
  - simpl in Hlen. assert (y = pmo - 1) as -> by lia.
    rewrite Z.eqb_refl. simpl last.
    replace (Z.to_nat (Z.of_nat i + pmo - 1)) with (i + Z.to_nat (pmo - 1))%nat by lia.
    rewrite Hfr. unfold numpy_array_equal.
    repeat case_bool_decide; simplify_eq; done.
  - destruct (Z.eqb_spec y (pmo - 1)) as [->|_]; [simpl in Hlen; lia|].
    rewrite (IH (y + 1)) by (simpl in *; (done || lia)).
    replace (last (r :: r' :: block)) with (last (r' :: block)) by done.
    destruct (numpy_array_equal fr r); done.
Qed.

(** When the block does not fit below row [i], the inner loop always runs off
    the end of the footer array. *)
Lemma verify_block_overrun footer_array pmo (i : nat) (y : Z) block crop_row :
  0 <= y → Z.of_nat i + y <= Z.of_nat (length footer_array) →
  y + Z.of_nat (length block) = pmo →
  Z.of_nat (length footer_array) < Z.of_nat i + pmo →
  verify_block footer_array pmo (Z.of_nat i) y block crop_row
  = Raise (IndexError (Z.of_nat (length footer_array)) (Z.of_nat (length footer_array))).
Proof.
  revert y. induction block as [|r block IH]; intros y Hy Hle Hlen Hover.
  { simpl in Hlen. lia. }
  simpl in Hlen. cbn [verify_block].
  destruct (decide (Z.of_nat i + y = Z.of_nat (length footer_array))) as [Heq|Hlt].
  - rewrite getitem_overrun by lia. rewrite Heq. done.
  - assert (Hin : is_Some (footer_array !! (i + Z.to_nat y)%nat)).
    { apply lookup_lt_is_Some. lia. }
    destruct Hin as [fr Hfr].
    replace (Z.of_nat i + y) with (Z.of_nat (i + Z.to_nat y)) by lia.
    rewrite (getitem_lookup _ _ _ Hfr). cbn [obind].
    destruct (Z.eqb_spec y (pmo - 1)) as [->|_]; [lia|].
    rewrite (IH (y + 1)) by lia.
    destruct (numpy_array_equal fr r); done.
Qed.

(** ** The outer loop *)

Lemma scan_footer_set footer_array block pmo i rest crop_row :
  crop_row ≠ 0 → scan_footer footer_array block pmo i rest crop_row = Return crop_row.
Proof.
  intros Hne. destruct rest; [done|]. cbn [scan_footer].
  destruct (Z.eqb_spec crop_row 0); done.
Qed.

(** One turn of the outer loop at row [i], for a non-empty block of
    [pmo] rows. *)
Lemma scan_footer_step footer_array block pmo (i : nat) footer_row rest b0 :
  block !! 0%nat = Some b0 → Z.of_nat (length block) = pmo →
  footer_array !! i = Some footer_row →
  scan_footer footer_array block pmo (Z.of_nat i) (footer_row :: rest) 0
  = if bool_decide (footer_row = b0)
    then if bool_decide (Z.of_nat i + pmo <= Z.of_nat (length footer_array))
         then if bool_decide (footer_array !! Z.to_nat (Z.of_nat i + pmo - 1) = last block)
              then Return (Z.of_nat i + pmo)
              else scan_footer footer_array block pmo (Z.of_nat i + 1) rest 0
         else Raise (IndexError (Z.of_nat (length footer_array))
                                (Z.of_nat (length footer_array)))
    else scan_footer footer_array block pmo (Z.of_nat i + 1) rest 0.
Proof.
  intros Hb0 Hlen Hrow. cbn [scan_footer]. simpl negb. cbn iota.
  pose proof (getitem_lookup block 0%nat b0 Hb0) as Hget. change (Z.of_nat 0) with 0 in Hget.
  rewrite Hget. cbn [obind]. unfold numpy_array_equal.
  apply lookup_lt_Some in Hrow.
  assert (block ≠ []) by (intros ->; done).
  assert (0 < pmo) by (destruct block; simpl in *; (done || lia)).
  case_bool_decide; [|done].
  case_bool_decide.
  - rewrite verify_block_fits by (done || lia). cbn [obind].
    case_bool_decide; [|done].
    apply scan_footer_set. lia.
  - rewrite verify_block_overrun by lia. done.
Qed.

Lemma ends_at_iff footer_array block (i : nat) b0 :
  block !! 0%nat = Some b0 →
  ends_at footer_array block i ↔
  footer_array !! i = Some b0 ∧
  footer_array !! Z.to_nat (Z.of_nat i + Z.of_nat (length block) - 1) = last block.
Proof.
  intros Hb0. unfold ends_at.
  replace (Z.to_nat (Z.of_nat i + Z.of_nat (length block) - 1))
    with (i + (length block - 1))%nat
    by (apply lookup_lt_Some in Hb0; lia).
  split.
  - intros (r0 & rl & H0 & Hl & Hi & Hil). simplify_eq. by rewrite Hl.
  - intros [Hi Hil]. destruct (last block) as [rl|] eqn:Hl.
    + by exists b0, rl.
    + apply last_None in Hl. subst block. done.
Qed.

(** What the scan from row [i] on returns, for a non-empty block of [pmo]
    rows: the first row where both ends of the block are found, unless a row
    equal to the block's first row comes before it too close to the end of
    the footer. *)
Lemma scan_footer_spec footer_array block pmo b0 :
  block !! 0%nat = Some b0 → Z.of_nat (length block) = pmo →
  ∀ rest (i : nat), drop i footer_array = rest →
    match scan_footer footer_array block pmo (Z.of_nat i) rest 0 with
    | Return crop_row =>
        (crop_row = 0 ∧
         ∀ j, (i <= j)%nat → footer_array !! j = Some b0 →
              Z.of_nat j + pmo <= Z.of_nat (length footer_array) ∧
              ¬ ends_at footer_array block j)
        ∨ (∃ j, (i <= j)%nat ∧ crop_row = Z.of_nat j + pmo ∧
                ends_at footer_array block j ∧
                ∀ j', (i <= j' < j)%nat → ¬ ends_at footer_array block j')
    | Raise e =>
        e = IndexError (Z.of_nat (length footer_array)) (Z.of_nat (length footer_array)) ∧
        ∃ j, (i <= j)%nat ∧ footer_array !! j = Some b0 ∧
             Z.of_nat (length footer_array) < Z.of_nat j + pmo ∧
             ∀ j', (i <= j' < j)%nat → ¬ ends_at footer_array block j'
    | OutOfFuel => False
    end.
Proof.
  intros Hb0 Hlen rest. induction rest as [|r rest IH]; intros i Hdrop.
  { simpl. left. split; [done|]. intros j Hj Hrow.
    apply lookup_lt_Some in Hrow.
    apply (f_equal length) in Hdrop. rewrite length_drop in Hdrop. simpl in Hdrop. lia. }
  assert (Hrow : footer_array !! i = Some r).
  { rewrite <- (Nat.add_0_r i), <- lookup_drop, Hdrop. done. }
  assert (Hdrop' : drop (S i) footer_array = rest).
  { replace (S i) with (i + 1)%nat by lia. rewrite <- drop_drop, Hdrop. done. }
  rewrite (scan_footer_step _ _ _ _ _ _ b0 Hb0 Hlen Hrow).
  specialize (IH (S i) Hdrop').
  replace (Z.of_nat i + 1) with (Z.of_nat (S i)) by lia.
  pose proof (ends_at_iff footer_array block i b0 Hb0) as Hends. rewrite Hlen in Hends.
  case_bool_decide as Hr0.
  - subst r. case_bool_decide as Hfit.
    + case_bool_decide as Hlast.
      * right. exists i. split; [lia|]. split; [done|]. split; [by apply Hends|].
        intros j' ?. lia.
      * assert (¬ ends_at footer_array block i) by (rewrite Hends; tauto).
        destruct (scan_footer _ _ _ _ rest 0) as [cr|e|]; [| |done].
        -- destruct IH as [[-> IH]|(j & Hj & -> & Hj1 & Hj2)].
           ++ left. split; [done|]. intros j Hj Hjrow.
              destruct (decide (j = i)) as [->|]; [done|apply IH; (done || lia)].
           ++ right. exists j. split; [lia|]. split; [done|]. split; [done|].
              intros j' Hj'. destruct (decide (j' = i)) as [->|]; [done|apply Hj2; lia].
        -- destruct IH as (-> & j & Hj & Hj0 & Hj1 & Hj2). split; [done|].
           exists j. split; [lia|]. split; [done|]. split; [done|].
           intros j' Hj'. destruct (decide (j' = i)) as [->|]; [done|apply Hj2; lia].
    + split; [done|]. exists i. split; [lia|]. split; [done|]. split; [lia|].
      intros j' ?. lia.
  - assert (¬ ends_at footer_array block i) by (rewrite Hends; intros [? _]; congruence).
    destruct (scan_footer _ _ _ _ rest 0) as [cr|e|]; [| |done].
    + destruct IH as [[-> IH]|(j & Hj & -> & Hj1 & Hj2)].
      * left. split; [done|]. intros j Hj Hjrow.
        destruct (decide (j = i)) as [->|]; [congruence|apply IH; (done || lia)].
      * right. exists j. split; [lia|]. split; [done|]. split; [done|].
        intros j' Hj'. destruct (decide (j' = i)) as [->|]; [done|apply Hj2; lia].
    + destruct IH as (-> & j & Hj & Hj0 & Hj1 & Hj2). split; [done|].
      exists j. split; [lia|]. split; [done|]. split; [done|].
      intros j' Hj'. destruct (decide (j' = i)) as [->|]; [done|apply Hj2; lia].
Qed.

(** ** The header's trailing block *)

Lemma header_last_hundred_rows_drop header_image offset :
  offset <= height header_image →
  header_last_hundred_rows header_image offset
  = drop (Z.to_nat (height header_image - Z.max 0 offset)) (im_rows header_image).
Proof.
  intros Hle. unfold header_last_hundred_rows, slice, slice_index, numpy_asarray.
  fold (height header_image). pose proof (height_nonneg header_image) as Hh.
  destruct (Z.ltb_spec (height header_image) 0) as [?|_]; [lia|].
  destruct (Z.ltb_spec (height header_image - offset) 0) as [?|_]; [lia|].
  rewrite Z.min_id. unfold height at 3. rewrite Nat2Z.id, firstn_all.
  f_equal. lia.
Qed.

Lemma length_header_last_hundred_rows header_image offset :
  offset <= height header_image →
  Z.of_nat (length (header_last_hundred_rows header_image offset)) = Z.max 0 offset.
Proof.
  intros Hle. rewrite header_last_hundred_rows_drop by done.
  rewrite length_drop. unfold height in *. lia.
Qed.

Lemma header_last_hundred_rows_head header_image offset :
  1 <= offset <= height header_image →
  is_Some (header_last_hundred_rows header_image offset !! 0%nat).
Proof.
  intros Hle. apply lookup_lt_is_Some.
  pose proof (length_header_last_hundred_rows header_image offset). lia.
Qed.

(** The seam search only ever fails with [IndexError]. *)

Lemma getitem_raises {A} (a : list A) k e : getitem a k = Raise e → index_error e.
Proof.
  unfold getitem, index_error. intros Hg.
  destruct (a !! _); [destruct (_ && _)|]; simplify_eq; eauto.
Qed.

Lemma verify_block_raises footer_array pmo i y block crop_row e :
  verify_block footer_array pmo i y block crop_row = Raise e → index_error e.
Proof.
  revert y. induction block as [|r block IH]; intros y; [done|].
  cbn [verify_block]. destruct (getitem footer_array (i + y)) as [fr|e'|] eqn:Hg; cbn [obind].
  - destruct (numpy_array_equal fr r); [destruct (y =? pmo - 1); [done|]|]; apply IH.
  - intros [= <-]. eapply getitem_raises, Hg.
  - done.
Qed.

Lemma scan_footer_raises footer_array block pmo i rest crop_row e :
  scan_footer footer_array block pmo i rest crop_row = Raise e → index_error e.
Proof.
  revert i crop_row. induction rest as [|r rest IH]; intros i crop_row; [done|].
  cbn [scan_footer]. destruct (negb (crop_row =? 0)); [done|].
  destruct (getitem block 0) as [b0|e'|] eqn:Hg; cbn [obind].
  - destruct (numpy_array_equal r b0); [|apply IH].
    destruct (verify_block _ _ _ _ _ _) as [cr|e'|] eqn:Hv; cbn [obind].
    + apply IH.
    + intros [= <-]. eapply verify_block_raises, Hv.
    + done.
  - intros [= <-]. eapply getitem_raises, Hg.
  - done.
Qed.

Lemma find_crop_row_raises header_image footer_image offset e :
  find_crop_row header_image footer_image offset = Raise e → index_error e.
Proof.
  unfold find_crop_row.
  destruct (scan_footer _ _ _ _ _ _) as [cr|e'|] eqn:Hs; cbn [obind]; [done| |done].
  intros [= <-]. eapply scan_footer_raises, Hs.
Qed.

(** The clamp leaves [min(offset, header height)] in the instance; the rest of
    [_crop_and_stitch_image] is the seam search followed by the paste. *)
Lemma crop_and_stitch_run {browser} header_image footer_image (st : state browser) :
  let offset := Z.min (pixel_match_offset (self st)) (height header_image) in
  let st' := {| self := with_pixel_match_offset (self st) offset; sh := sh st |} in
  _crop_and_stitch_image header_image footer_image st
  = match find_crop_row header_image footer_image offset with
    | Return crop_row => (Return (stitch_at header_image footer_image crop_row), st')
    | Raise e => (Raise (ScreenshotException stitch_error e), st')
    | OutOfFuel => (OutOfFuel, st')
    end.
Proof.
  destruct st as [slf b]. destruct slf as [pg hs fs sp pmo ext]. simpl.
  unfold _crop_and_stitch_image, clamp_pixel_match_offset.
  unfold try_except, bind, get_self, set_pixel_match_offset, ret, lift,
    with_pixel_match_offset. simpl.
  destruct (Z.gtb_spec pmo (height header_image)) as [Hgt|Hle]; simpl.
  - rewrite Z.min_r by lia.
    destruct (find_crop_row _ _ _) as [cr|e|] eqn:Hf; [done| |done].
    destruct (find_crop_row_raises _ _ _ _ Hf) as (index & size & ->). done.
  - rewrite Z.min_l by lia.
    destruct (find_crop_row _ _ _) as [cr|e|] eqn:Hf; [done| |done].
    destruct (find_crop_row_raises _ _ _ _ Hf) as (index & size & ->). done.
Qed.

Lemma block_at_ends_at footer_array block i :
  block ≠ [] → block_at footer_array block i → ends_at footer_array block i.
Proof.
  intros Hne Hblock. destruct block as [|b0 block]; [done|].
  destruct (last (b0 :: block)) as [rl|] eqn:Hl; [|by apply last_None in Hl].
  exists b0, rl. split; [done|]. split; [done|]. split.
  - rewrite <- (Nat.add_0_r i). by apply Hblock.
  - apply Hblock. rewrite last_lookup in Hl. simpl in *.
    by rewrite Nat.sub_0_r.
Qed.

(** The seam search on a clamped, positive offset. *)
Lemma find_crop_row_spec header_image footer_image offset :
  1 <= offset <= height header_image →
  let footer_array := numpy_asarray footer_image in
  let block := header_last_hundred_rows header_image offset in
  ∃ b0, block !! 0%nat = Some b0 ∧
    match find_crop_row header_image footer_image offset with
    | Return crop_row =>
        (crop_row = height header_image ∧
         ∀ j, footer_array !! j = Some b0 →
              Z.of_nat j + offset <= height footer_image ∧
              ¬ ends_at footer_array block j)
        ∨ (∃ j, crop_row = Z.of_nat j + offset ∧
                ends_at footer_array block j ∧
                ∀ j', (j' < j)%nat → ¬ ends_at footer_array block j')
    | Raise e =>
        e = IndexError (height footer_image) (height footer_image) ∧
        ∃ j, footer_array !! j = Some b0 ∧ height footer_image < Z.of_nat j + offset ∧
             ∀ j', (j' < j)%nat → ¬ ends_at footer_array block j'
    | OutOfFuel => False
    end.
Proof.
  intros Hoff F B.
  destruct (header_last_hundred_rows_head header_image offset Hoff) as [b0 Hb0].
  exists b0. split; [done|].
  pose proof (length_header_last_hundred_rows header_image offset ltac:(lia)) as Hlen.
  rewrite Z.max_r in Hlen by lia.
  pose proof (scan_footer_spec F B offset b0 Hb0 Hlen F 0%nat eq_refl) as Hs.
  unfold find_crop_row. fold F B. change (Z.of_nat 0) with 0 in Hs.
  destruct (scan_footer F B offset 0 F 0) as [cr|e|]; cbn [obind]; [| |done].
  - destruct Hs as [[-> Hs]|(j & _ & -> & Hj1 & Hj2)].
    + left. split; [done|]. intros j Hj. apply Hs; [lia|done].
    + right. exists j. destruct (Z.eqb_spec (Z.of_nat j + offset) 0); [lia|].
      split; [done|]. split; [done|]. intros j' ?. apply Hj2. lia.
  - destruct Hs as (-> & j & _ & Hj0 & Hj1 & Hj2). split; [done|].
    exists j. split; [done|]. split; [done|]. intros j' ?. apply Hj2. lia.
Qed.

(** The crop row is positive, and it lies within the footer whenever it is not
    the fallback. *)
Lemma find_crop_row_range header_image footer_image offset crop_row :
  1 <= offset <= height header_image →
  find_crop_row header_image footer_image offset = Return crop_row →
  1 <= crop_row ∧ (crop_row = height header_image ∨ crop_row <= height footer_image).
Proof.
  intros Hoff Hfind.
  destruct (find_crop_row_spec header_image footer_image offset Hoff) as (b0 & Hb0 & Hs).
  rewrite Hfind in Hs.
  destruct Hs as [[-> _]|(j & -> & (r0 & rl & _ & _ & _ & Hlast) & _)]; [lia|].
  apply lookup_lt_Some in Hlast.
  pose proof (length_header_last_hundred_rows header_image offset ltac:(lia)) as Hlen.
  unfold height at 2. unfold numpy_asarray in Hlast. lia.
Qed.

(** ** Stitching: the seam *)

(** C1, evaluated where the code departs from it: with an offset of 3, the
    header rows [5; 1; 2; 3] and the footer rows [1; 9; 3; 7; 7], the header's
    trailing block [1; 2; 3] occurs at no row of the footer, so no index
    qualifies and the crop row should stay unset and fall back to the header
    height 4.  Yet the scan itself, before the fallback, sets the crop row to
    [0 + 3] at row 0, where only the first and the last row of the block
    agree with the footer: the footer is cropped at row 3 and the stitched
    image is 6 rows high instead of the 5 rows of the fallback. *)
Theorem seam_search_accepts_unverified_block :
  let header_image := column [5; 1; 2; 3] in
  let footer_image := column [1; 9; 3; 7; 7] in
  let st := {| self := with_pixel_match_offset default_screenshot 3; sh := tt |} in
  let block := header_last_hundred_rows header_image 3 in
  let footer_array := numpy_asarray footer_image in
  pixel_match_offset (self (snd (_crop_and_stitch_image header_image footer_image st))) = 3
  ∧ block = numpy_asarray (column [1; 2; 3])
  ∧ (∀ i, ¬ block_at footer_array block i)
  ∧ footer_array !! 1%nat ≠ block !! 1%nat
  ∧ scan_footer footer_array block 3 0 footer_array 0 = Return (0 + 3)
  ∧ find_crop_row header_image footer_image 3 = Return 3
  ∧ height header_image = 4
  ∧ ∃ stitched_image,
      fst (_crop_and_stitch_image header_image footer_image st) = Return stitched_image
      ∧ stitched_image = stitch_at header_image footer_image 3
      ∧ height stitched_image = 6
      ∧ height stitched_image
        ≠ height header_image + (height footer_image - height header_image).
Proof.
  split; [by vm_compute|]. split; [by vm_compute|]. split.
  { intros i Hblock. specialize (Hblock 1%nat [[2]] eq_refl).
    rewrite Nat.add_1_r in Hblock.
    destruct i as [|[|[|[|i]]]]; vm_compute in Hblock; by simplify_eq. }
  split; [by vm_compute|]. split; [by vm_compute|]. split; [by vm_compute|].
  split; [by vm_compute|].
  eexists. split; [by vm_compute|]. split; [by vm_compute|]. by vm_compute.
Qed.

(** C2, evaluated where the code departs from it: the header rows [1; 2; 3]
    are found whole at footer row 3 of [1; 9; 3; 1; 2; 3] and at no earlier
    row, yet the scan stops at row 0 and the stitched image is 6 rows high
    instead of [3 + (6 - (3 + 3))]. *)
Theorem stitch_overlap_stops_at_false_seam :
  let header_image := column [1; 2; 3] in
  let footer_image := column [1; 9; 3; 1; 2; 3] in
  let st := {| self := default_screenshot; sh := tt |} in
  let block := header_last_hundred_rows header_image 3 in
  block = numpy_asarray header_image
  ∧ block_at (numpy_asarray footer_image) block 3
  ∧ (∀ i, (i < 3)%nat → ¬ block_at (numpy_asarray footer_image) block i)
  ∧ ∃ stitched_image,
      fst (_crop_and_stitch_image header_image footer_image st) = Return stitched_image
      ∧ height stitched_image = 6
      ∧ height stitched_image
        ≠ height header_image + (height footer_image - (3 + 3)).
Proof.
  split; [by vm_compute|]. split.
  { intros y r Hy. destruct y as [|[|[|y]]]; vm_compute in Hy; by simplify_eq. }
  split.
  { intros i Hi Hblock.
    destruct i as [|[|[|i]]]; [| | |lia].
    - specialize (Hblock 1%nat [[2]] eq_refl). by vm_compute in Hblock.
    - specialize (Hblock 0%nat [[1]] eq_refl). by vm_compute in Hblock.
    - specialize (Hblock 0%nat [[1]] eq_refl). by vm_compute in Hblock. }
  eexists. split; [by vm_compute|]. by vm_compute.
Qed.

(** C3 as stated fails: a one-row header and a one-row footer with different
    rows share no block, the crop row is the header height 1, and the stitched
    image is 1 row high, not [1 + 1]. *)
Lemma stitch_fallback_height_counterexample :
  let header_image := column [1] in
  let footer_image := column [2] in
  let st := {| self := default_screenshot; sh := tt |} in
  let block := header_last_hundred_rows header_image 1 in
  (∀ i, ¬ block_at (numpy_asarray footer_image) block i)
  ∧ find_crop_row header_image footer_image 1 = Return (height header_image)
  ∧ ∃ stitched_image,
      fst (_crop_and_stitch_image header_image footer_image st) = Return stitched_image
      ∧ height stitched_image ≠ height header_image + height footer_image.
Proof.
  split.
  { intros i Hblock. specialize (Hblock 0%nat [[1]] eq_refl).
    destruct i as [|i]; by vm_compute in Hblock. }
  split; [by vm_compute|].
  eexists. split; [by vm_compute|]. by vm_compute.
Qed.

(** C3, amended: when the scan's own test finds nothing -- at no footer row
    are the block's first row and, [offset - 1] rows further, its last row
    both found, and no row equal to the block's first row lies in the last
    [offset - 1] rows of the footer -- the crop row is the header height, and
    the footer is cropped at that row: the stitched image has height
    [H1 + max(0, H2 - H1)] and the footer's width. *)
Theorem stitch_fallback_crops_at_header_height {browser} (st : state browser)
    header_image footer_image :
  let offset := Z.min (pixel_match_offset (self st)) (height header_image) in
  let block := header_last_hundred_rows header_image offset in
  let footer_array := numpy_asarray footer_image in
  1 <= offset →
  (∀ i, ¬ ends_at footer_array block i) →
  (∀ i r, height footer_image - offset < Z.of_nat i →
          footer_array !! i = Some r → block !! 0%nat ≠ Some r) →
  find_crop_row header_image footer_image offset = Return (height header_image)
  ∧ ∃ stitched_image st',
      _crop_and_stitch_image header_image footer_image st = (Return stitched_image, st')
      ∧ height stitched_image
        = height header_image + Z.max 0 (height footer_image - height header_image)
      ∧ width stitched_image = width footer_image.
Proof.
  intros offset block footer_array Hoff Hnone Htail.
  assert (Hrange : 1 <= offset <= height header_image) by (unfold offset in *; lia).
  destruct (find_crop_row_spec header_image footer_image offset Hrange)
    as (b0 & Hb0 & Hs).
  assert (Hfind : find_crop_row header_image footer_image offset
                  = Return (height header_image)).
  { destruct (find_crop_row _ _ _) as [cr|e|]; [| |done].
    - destruct Hs as [[-> _]|(j & _ & Hj & _)]; [done|]. by apply Hnone in Hj.
    - destruct Hs as (_ & j & Hj & Hover & _).
      exfalso. apply (Htail j b0); [lia|done|done]. }
  split; [done|].
  rewrite crop_and_stitch_run. fold offset. rewrite Hfind.
  eexists _, _. split; [done|]. apply size_stitch_at.
Qed.

Lemma stitch_fallback_crops_at_header_height_witness :
  let header_image := column [1; 2] in
  let footer_image := column [7; 8; 9] in
  let st := {| self := default_screenshot; sh := tt |} in
  let offset := Z.min (pixel_match_offset (self st)) (height header_image) in
  let block := header_last_hundred_rows header_image offset in
  let footer_array := numpy_asarray footer_image in
  1 <= offset
  ∧ (∀ i, ¬ ends_at footer_array block i)
  ∧ (∀ i r, height footer_image - offset < Z.of_nat i →
            footer_array !! i = Some r → block !! 0%nat ≠ Some r)
  ∧ find_crop_row header_image footer_image offset = Return 2
  ∧ ∃ stitched_image st',
      _crop_and_stitch_image header_image footer_image st = (Return stitched_image, st')
      ∧ height stitched_image = 2 + Z.max 0 (3 - 2)
      ∧ width stitched_image = 1.
Proof.
  intros header_image footer_image st offset block footer_array.
  assert (H1 : 1 <= offset) by (by vm_compute).
  assert (H2 : ∀ i, ¬ ends_at footer_array block i).
  { intros i (r0 & rl & H0 & _ & Hi & _). vm_compute in H0. simplify_eq.
    destruct i as [|[|[|i]]]; by vm_compute in Hi. }
  assert (H3 : ∀ i r, height footer_image - offset < Z.of_nat i →
                      footer_array !! i = Some r → block !! 0%nat ≠ Some r).
  { intros i r _ Hi H0. vm_compute in H0. simplify_eq.
    destruct i as [|[|[|i]]]; by vm_compute in Hi. }
  split; [exact H1|]. split; [exact H2|]. split; [exact H3|].
  exact (stitch_fallback_crops_at_header_height st header_image footer_image H1 H2 H3).
Defined.

(** ** Stitching: the offset *)

(** C4: when the requested [pixel_match_offset] exceeds the header height [h],
    the offset kept in the instance, the one the block is cut with and the one
    the seam search runs with are all [h]; the block is then the whole
    header. *)
Theorem offset_clamped_to_header_height {browser} (st : state browser)
    header_image footer_image :
  height header_image < pixel_match_offset (self st) →
  let run := _crop_and_stitch_image header_image footer_image st in
  pixel_match_offset (self (snd (clamp_pixel_match_offset header_image st)))
    = height header_image
  ∧ pixel_match_offset (self (snd run)) = height header_image
  ∧ header_last_hundred_rows header_image (height header_image)
    = numpy_asarray header_image
  ∧ fst run
    = match find_crop_row header_image footer_image (height header_image) with
      | Return crop_row => Return (stitch_at header_image footer_image crop_row)
      | Raise e => Raise (ScreenshotException stitch_error e)
      | OutOfFuel => OutOfFuel
      end.
Proof.
  intros Hgt run. unfold run. rewrite crop_and_stitch_run.
  rewrite Z.min_r by lia.
  split.
  { unfold clamp_pixel_match_offset, bind, get_self, set_pixel_match_offset. simpl.
    destruct (Z.gtb_spec (pixel_match_offset (self st)) (height header_image)); [done|lia]. }
  split; [by destruct (find_crop_row _ _ _)|].
  split; [|by destruct (find_crop_row _ _ _)].
  rewrite header_last_hundred_rows_drop by lia.
  pose proof (height_nonneg header_image).
  rewrite Z.max_r, Z.sub_diag by lia. done.
Qed.

Lemma offset_clamped_to_header_height_witness :
  let header_image := column [1; 2; 3] in
  let footer_image := column [7; 1; 2; 3; 4] in
  let st := {| self := default_screenshot; sh := tt |} in
  height header_image < pixel_match_offset (self st)
  ∧ pixel_match_offset (self (snd (_crop_and_stitch_image header_image footer_image st))) = 3.
Proof.
  intros header_image footer_image st.
  assert (Hgt : height header_image < pixel_match_offset (self st)) by (by vm_compute).
  split; [exact Hgt|].
  exact (proj1 (proj2 (offset_clamped_to_header_height st header_image footer_image Hgt))).
Defined.

(** ** Stitching: running off the footer *)

(** C10: a footer row equal to the block's first row within the last
    [offset - 1] rows makes the inner loop index the footer past its end, and
    the stitcher raises [ScreenshotException] instead of falling back; when no
    such row exists the footer is never indexed out of range: the stitcher
    returns an image, unless the offset is not positive and the block itself
    is empty. *)
Theorem stitch_footer_overrun :
  (∃ header_image footer_image (st : state unit) i r,
      let offset := Z.min (pixel_match_offset (self st)) (height header_image) in
      height footer_image - offset < Z.of_nat i
      ∧ numpy_asarray footer_image !! i = Some r
      ∧ header_last_hundred_rows header_image offset !! 0%nat = Some r
      ∧ fst (_crop_and_stitch_image header_image footer_image st)
        = Raise (ScreenshotException stitch_error
                   (IndexError (height footer_image) (height footer_image))))
  ∧ ∀ browser (st : state browser) header_image footer_image,
      let offset := Z.min (pixel_match_offset (self st)) (height header_image) in
      let block := header_last_hundred_rows header_image offset in
      (∀ i r, height footer_image - offset < Z.of_nat i →
              numpy_asarray footer_image !! i = Some r → block !! 0%nat ≠ Some r) →
      (∃ stitched_image st',
          _crop_and_stitch_image header_image footer_image st = (Return stitched_image, st'))
      ∨ (offset <= 0 ∧ block = [] ∧
         ∃ st', _crop_and_stitch_image header_image footer_image st
                = (Raise (ScreenshotException stitch_error (IndexError 0 0)), st')).
Proof.
  split.
  { exists (column [1; 2]), (column [9; 1]), {| self := default_screenshot; sh := tt |},
      1%nat, [[1]].
    repeat split; by vm_compute. }
  intros browser st header_image footer_image offset block Htail.
  rewrite crop_and_stitch_run. fold offset.
  destruct (decide (1 <= offset)) as [Hpos|Hneg].
  - left. assert (Hrange : 1 <= offset <= height header_image) by (unfold offset in *; lia).
    destruct (find_crop_row_spec header_image footer_image offset Hrange)
      as (b0 & Hb0 & Hs).
    destruct (find_crop_row _ _ _) as [cr|e|]; [by eexists _, _| |done].
    destruct Hs as (_ & j & Hj & Hover & _).
    exfalso. apply (Htail j b0); [lia|done|done].
  - assert (Hblock : block = []).
    { unfold block. rewrite header_last_hundred_rows_drop by (unfold offset; lia).
      rewrite Z.max_l, Z.sub_0_r by lia. unfold height. rewrite Nat2Z.id.
      apply drop_all. }
    unfold find_crop_row. fold block. rewrite Hblock.
    destruct (numpy_asarray footer_image) as [|r rest] eqn:HF.
    + left. by eexists _, _.
    + right. split; [lia|]. split; [done|]. by eexists.
Qed.

Lemma stitch_footer_overrun_witness :
  let header_image := column [1; 2] in
  let footer_image := column [1; 2; 9] in
  let st := {| self := default_screenshot; sh := tt |} in
  let offset := Z.min (pixel_match_offset (self st)) (height header_image) in
  let block := header_last_hundred_rows header_image offset in
  (∀ i r, height footer_image - offset < Z.of_nat i →
          numpy_asarray footer_image !! i = Some r → block !! 0%nat ≠ Some r)
  ∧ ((∃ stitched_image st',
        _crop_and_stitch_image header_image footer_image st = (Return stitched_image, st'))
     ∨ (offset <= 0 ∧ block = [] ∧
        ∃ st', _crop_and_stitch_image header_image footer_image st
               = (Raise (ScreenshotException stitch_error (IndexError 0 0)), st'))).
Proof.
  intros header_image footer_image st offset block.
  assert (Htail : ∀ i r, height footer_image - offset < Z.of_nat i →
            numpy_asarray footer_image !! i = Some r → block !! 0%nat ≠ Some r).
  { intros i r Hi Hr H0. vm_compute in H0. simplify_eq.
    destruct i as [|[|[|i]]]; vm_compute in Hi, Hr; (done || lia). }
  split; [exact Htail|].
  exact (proj2 stitch_footer_overrun unit st header_image footer_image Htail).
Defined.

(** ** Acquiring the image *)

Section Acquisition.
Context {browser : Type} `{Collaborators browser}.

(** [_get_image_data] once the screenshot has been taken and decoded. *)
Lemma get_image_data_run (st : state browser) viewport_only data image b1 :
  get_screenshot_base64 (sh st) = (Return data, b1) →
  Image_open data = Return image →
  _get_image_data viewport_only st
  = if truthy (desired_capabilities b1 !! "mobile") then (Return image, on_browser st b1)
    else if viewport_only then
      match get_window_current_scroll_position b1 with
      | (Return current_scroll_position, b2) =>
          match get_viewport_size b2 with
          | (Return (viewport_width, viewport_height), b3) =>
              (Return (Image_crop image
                         (viewport_crop_box current_scroll_position
                            viewport_width viewport_height)),
               on_browser st b3)
          | (Raise e, b3) => (Raise e, on_browser st b3)
          | (OutOfFuel, b3) => (OutOfFuel, on_browser st b3)
          end
      | (Raise e, b2) => (Raise e, on_browser st b2)
      | (OutOfFuel, b2) => (OutOfFuel, on_browser st b2)
      end
    else (Return image, on_browser st b1).
Proof.
  intros Hshot Hopen. unfold _get_image_data, bind, call, lift, get_sh, ret, on_browser.
  rewrite Hshot. cbn -[Image_crop viewport_crop_box]. rewrite Hopen.
  cbn -[Image_crop viewport_crop_box].
  destruct (truthy _); [done|]. destruct viewport_only; [|done].
  cbn -[Image_crop viewport_crop_box].
  destruct (get_window_current_scroll_position b1) as [[s|e|] b2];
    cbn -[Image_crop viewport_crop_box]; [|done..].
  destruct (get_viewport_size b2) as [[[vw vh]|e|] b3]; done.
Qed.

(** C9: in a mobile context [_get_image_data] returns the decoded screenshot
    as it is, whether or not the viewport was asked for; otherwise, when the
    viewport is asked for, it returns the screenshot cropped to
    [(0, currentScroll, viewportWidth, currentScroll + viewportHeight)]. *)
Theorem mobile_bypass (st : state browser) data image b1 :
  get_screenshot_base64 (sh st) = (Return data, b1) →
  Image_open data = Return image →
  (truthy (desired_capabilities b1 !! "mobile") = true →
   ∀ viewport_only,
     _get_image_data viewport_only st = (Return image, on_browser st b1))
  ∧ (truthy (desired_capabilities b1 !! "mobile") = false →
     ∀ current_scroll_position b2 viewport_width viewport_height b3,
       get_window_current_scroll_position b1 = (Return current_scroll_position, b2) →
       get_viewport_size b2 = (Return (viewport_width, viewport_height), b3) →
       _get_image_data true st
       = (Return (Image_crop image
                    (0, current_scroll_position, viewport_width,
                     current_scroll_position + viewport_height)),
          on_browser st b3)).
Proof.
  intros Hshot Hopen. split.
  - intros Hmobile viewport_only.
    rewrite (get_image_data_run st viewport_only data image b1 Hshot Hopen).
    by rewrite Hmobile.
  - intros Hmobile s b2 vw vh b3 Hscroll Hview.
    rewrite (get_image_data_run st true data image b1 Hshot Hopen).
    by rewrite Hmobile, Hscroll, Hview.
Qed.

End Acquisition.

Lemma mobile_bypass_witness :
  let p := blank_page 5 1 2 "abcde" in
  let mobile := {| page_height := 5; viewport := (1, 2); scroll_top := 0;
                   screenshot_data := "abcde";
                   capabilities := {[ "mobile" := PyBool true ]};
                   missing := []; hidden := []; broken := [];
                   scroll_log := []; toggle_log := [] |} in
  let image := {| im_mode := L; im_width := 1; im_rows := rows_of_bytes "abcde" |} in
  fst (_get_image_data true {| self := default_screenshot; sh := mobile |}) = Return image
  ∧ fst (_get_image_data true {| self := default_screenshot; sh := p |})
    = Return (Image_crop image (0, 0, 1, 0 + 2)).
Proof.
  intros p mobile image. split.
  - pose proof (mobile_bypass {| self := default_screenshot; sh := mobile |}
                  "abcde" image mobile eq_refl eq_refl) as [Hm _].
    rewrite (Hm eq_refl true). done.
  - pose proof (mobile_bypass {| self := default_screenshot; sh := p |}
                  "abcde" image p eq_refl eq_refl) as [_ Hd].
    rewrite (Hd eq_refl 0 p 1 2 p eq_refl eq_refl). done.
Defined.

(** ** Crop boxes *)

(** C7 as stated fails: with a two-row header and a one-row footer that share
    nothing the footer is cropped with the box [(0, 2, 1, 1)], whose upper edge
    is below the footer's last row; and a viewport five rows high over a
    three-row screenshot is cropped with the box [(0, 0, 1, 5)]. *)
Lemma crop_box_outside_image_counterexample :
  let header_image := column [1; 2] in
  let footer_image := column [3] in
  let st := {| self := default_screenshot; sh := tt |} in
  let p := blank_page 3 1 5 "abc" in
  let image := {| im_mode := L; im_width := 1; im_rows := rows_of_bytes "abc" |} in
  (fst (_crop_and_stitch_image header_image footer_image st)
   = Return (stitch_at header_image footer_image 2)
   ∧ footer_crop_box footer_image 2 = (0, 2, 1, 1)
   ∧ ¬ box_within footer_image (footer_crop_box footer_image 2))
  ∧ (fst (_get_image_data true {| self := default_screenshot; sh := p |})
     = Return (Image_crop image (viewport_crop_box 0 1 5))
     ∧ viewport_crop_box 0 1 5 = (0, 0, 1, 5)
     ∧ ¬ box_within image (viewport_crop_box 0 1 5)).
Proof.
  repeat split; try by vm_compute.
  - unfold box_within. vm_compute. intros (_ & _ & _ & _ & Hy & _). by apply Hy.
  - unfold box_within. vm_compute. intros (_ & _ & _ & _ & _ & Hy). by apply Hy.
Qed.

Section CropBoxes.
Context {browser : Type} `{Collaborators browser}.

(** C7, amended: no crop box is clamped.  The viewport crop uses
    [(0, scroll, width, scroll + height)] exactly as read from the browser,
    and lies within the screenshot only when those readings do; the footer
    crop uses [(0, cropRow, footer width, footer height)], which lies within
    the footer exactly when [cropRow] does not exceed the footer height --
    always so when the crop row comes from a seam, not when it is the
    fallback of a header taller than the footer.  The crop then yields a
    region [max(0, x1 - x0)] wide and [max(0, y1 - y0)] high. *)
Theorem crop_boxes_taken_as_computed (st : state browser) :
  (∀ data image b1 current_scroll_position b2 viewport_width viewport_height b3,
     get_screenshot_base64 (sh st) = (Return data, b1) →
     Image_open data = Return image →
     truthy (desired_capabilities b1 !! "mobile") = false →
     get_window_current_scroll_position b1 = (Return current_scroll_position, b2) →
     get_viewport_size b2 = (Return (viewport_width, viewport_height), b3) →
     let box := (0, current_scroll_position, viewport_width,
                 current_scroll_position + viewport_height) in
     _get_image_data true st = (Return (Image_crop image box), on_browser st b3)
     ∧ (box_within image box ↔
        0 <= current_scroll_position ∧ 0 <= viewport_height ∧
        current_scroll_position + viewport_height <= height image ∧
        0 <= viewport_width <= width image)
     ∧ Image_size (Image_crop image box)
       = (Z.max 0 viewport_width, Z.max 0 viewport_height))
  ∧ (∀ header_image footer_image crop_row,
       let offset := Z.min (pixel_match_offset (self st)) (height header_image) in
       1 <= offset →
       find_crop_row header_image footer_image offset = Return crop_row →
       let box := (0, crop_row, width footer_image, height footer_image) in
       fst (_crop_and_stitch_image header_image footer_image st)
       = Return (Image_paste
                   (Image_paste
                      (Image_new_RGB (width footer_image)
                         (height header_image + height (Image_crop footer_image box)))
                      header_image 0 0)
                   (Image_crop footer_image box) 0 (height header_image))
       ∧ (box_within footer_image box ↔ crop_row <= height footer_image)
       ∧ (crop_row ≠ height header_image → box_within footer_image box)
       ∧ Image_size (Image_crop footer_image box)
         = (width footer_image, Z.max 0 (height footer_image - crop_row))).
Proof.
  split.
  - intros data image b1 s b2 vw vh b3 Hshot Hopen Hmobile Hscroll Hview box.
    split.
    { rewrite (get_image_data_run st true data image b1 Hshot Hopen).
      by rewrite Hmobile, Hscroll, Hview. }
    split.
    { unfold box, box_within. lia. }
    unfold Image_size, box. rewrite height_Image_crop, width_Image_crop.
    f_equal; lia.
  - intros header_image footer_image crop_row offset Hoff Hfind box.
    assert (Hrange : 1 <= offset <= height header_image) by (unfold offset in *; lia).
    destruct (find_crop_row_range _ _ _ _ Hrange Hfind) as [Hpos Hcases].
    pose proof (width_nonneg footer_image). pose proof (height_nonneg footer_image).
    split.
    { rewrite crop_and_stitch_run. fold offset. by rewrite Hfind. }
    split.
    { unfold box, box_within. lia. }
    split.
    { unfold box, box_within. lia. }
    unfold Image_size, box. rewrite height_Image_crop, width_Image_crop.
    f_equal; lia.
Qed.

End CropBoxes.

Lemma crop_boxes_taken_as_computed_witness :
  let header_image := column [1; 2] in
  let footer_image := column [7; 1; 2; 8] in
  let st := {| self := default_screenshot; sh := blank_page 4 1 2 "abcd" |} in
  let image := {| im_mode := L; im_width := 1; im_rows := rows_of_bytes "abcd" |} in
  (_get_image_data true st = (Return (Image_crop image (0, 0, 1, 0 + 2)), st)
   ∧ box_within image (0, 0, 1, 0 + 2))
  ∧ (find_crop_row header_image footer_image 2 = Return 3
     ∧ box_within footer_image (0, 3, width footer_image, height footer_image)).
Proof.
  intros header_image footer_image st image.
  pose proof (crop_boxes_taken_as_computed st) as [Hview Hfoot].
  split.
  - destruct (Hview "abcd" image (sh st) 0 (sh st) 1 2 (sh st)
                eq_refl eq_refl eq_refl eq_refl eq_refl) as (Hrun & Hin & _).
    split; [exact Hrun|]. apply Hin. by vm_compute.
  - assert (Hfind : find_crop_row header_image footer_image 2 = Return 3) by (by vm_compute).
    split; [exact Hfind|].
    destruct (Hfoot header_image footer_image 3) as (_ & _ & Hin & _).
    + by vm_compute.
    + exact Hfind.
    + apply Hin. by vm_compute.
Defined.

(** ** Hiding and showing sticky elements *)

Section Sweeps.
Context {browser : Type} `{Collaborators browser}.

(** A loop over the selectors that toggles each one and lets the swallowed
    failures pass goes through the whole list when every toggle passes, and
    otherwise stops at the first toggle whose failure is not swallowed. *)
Lemma sweep_spec (sweep : list string → M browser unit)
    (toggle : string → browser → outcome unit * browser) (swallowed : exn → bool) :
  (∀ st, sweep [] st = (Return tt, st)) →
  (∀ selector selectors st,
     sweep (selector :: selectors) st
     = match toggle selector (sh st) with
       | (Return _, b) => sweep selectors (on_browser st b)
       | (Raise e, b) =>
           if swallowed e then sweep selectors (on_browser st b)
           else (Raise e, on_browser st b)
       | (OutOfFuel, b) => (OutOfFuel, on_browser st b)
       end) →
  ∀ selectors st,
    (all_pass toggle swallowed selectors (sh st) →
     sweep selectors st = (Return tt, on_browser st (attempt_all toggle selectors (sh st))))
    ∧ (∀ before selector after e,
         selectors = (before ++ selector :: after)%list →
         all_pass toggle swallowed before (sh st) →
         fst (toggle selector (attempt_all toggle before (sh st))) = Raise e →
         swallowed e = false →
         sweep selectors st
         = (Raise e,
            on_browser st (snd (toggle selector (attempt_all toggle before (sh st)))))).
Proof.
  intros Hnil Hcons selectors.
  induction selectors as [|s selectors IH]; intros st.
  { split.
    - intros _. rewrite Hnil. by destruct st.
    - intros [|? ?] ? ? ? Heq; discriminate Heq. }
  rewrite Hcons. split.
  - intros [Hpass Hrest]. unfold passes in Hpass. simpl in Hrest.
    change (attempt_all toggle (s :: selectors) (sh st))
      with (attempt_all toggle selectors (snd (toggle s (sh st)))).
    destruct (toggle s (sh st)) as [[[]|e|] b] eqn:Ht; simpl in *; [| |done].
    + by rewrite (proj1 (IH (on_browser st b)) Hrest).
    + rewrite Hpass. by rewrite (proj1 (IH (on_browser st b)) Hrest).
  - intros before selector after e Heq Hpass Hfail Hnot.
    destruct before as [|s' before]; simpl in Heq; simplify_eq.
    + change (attempt_all toggle [] (sh st)) with (sh st) in *.
      destruct (toggle selector (sh st)) as [[[]|e'|] b]; simpl in *;
        simplify_eq. by rewrite Hnot.
    + destruct Hpass as [Hpass Hrest]. unfold passes in Hpass. simpl in Hrest.
      change (attempt_all toggle (s' :: before) (sh st))
        with (attempt_all toggle before (snd (toggle s' (sh st)))) in *.
      destruct (toggle s' (sh st)) as [[[]|e'|] b] eqn:Ht; simpl in *; [| |done].
      * by rewrite (proj2 (IH (on_browser st b)) before selector after e eq_refl Hrest Hfail Hnot).
      * rewrite Hpass.
        by rewrite (proj2 (IH (on_browser st b)) before selector after e eq_refl Hrest Hfail Hnot).
Qed.

Lemma hide_elements_cons selector selectors (st : state browser) :
  _hide_elements (selector :: selectors) st
  = match hide_element selector (sh st) with
    | (Return _, b) => _hide_elements selectors (on_browser st b)
    | (Raise e, b) =>
        if swallowed_by_hide e then _hide_elements selectors (on_browser st b)
        else (Raise e, on_browser st b)
    | (OutOfFuel, b) => (OutOfFuel, on_browser st b)
    end.
Proof.
  cbn [_hide_elements]. unfold bind, try_except, call, swallowed_by_hide, on_browser.
  destruct (hide_element selector (sh st)) as [[[]|e|] b]; [done| |done].
  destruct (isinstance e "ElementNotVisibleError"); [done|].
  destruct (isinstance e "ElementError"); done.
Qed.

Lemma show_elements_cons selector selectors (st : state browser) :
  _show_elements (selector :: selectors) st
  = match show_element selector (sh st) with
    | (Return _, b) => _show_elements selectors (on_browser st b)
    | (Raise e, b) =>
        if swallowed_by_show e then _show_elements selectors (on_browser st b)
        else (Raise e, on_browser st b)
    | (OutOfFuel, b) => (OutOfFuel, on_browser st b)
    end.
Proof.
  cbn [_show_elements]. unfold bind, try_except, call, swallowed_by_show, on_browser.
  destruct (show_element selector (sh st)) as [[[]|e|] b]; [done| |done].
  destruct (isinstance e "ElementError"); done.
Qed.

(** C8: both sweeps toggle the selectors in list order.  A toggle that fails
    with [ElementError] (the element does not exist) -- or, when hiding, with
    [ElementNotVisibleError] (it is already not visible) -- is passed over and
    the sweep goes on; when every toggle returns or fails that way the sweep
    returns after the last selector.  The first failure of any other kind is
    raised at once, in the browser state that toggle left: the selectors
    after it are not attempted. *)
Theorem tolerant_visibility_sweep (selectors : list string) (st : state browser) :
  ((all_pass hide_element swallowed_by_hide selectors (sh st) →
    _hide_elements selectors st
    = (Return tt, on_browser st (attempt_all hide_element selectors (sh st))))
   ∧ (∀ before selector after e,
        selectors = (before ++ selector :: after)%list →
        all_pass hide_element swallowed_by_hide before (sh st) →
        fst (hide_element selector (attempt_all hide_element before (sh st))) = Raise e →
        swallowed_by_hide e = false →
        _hide_elements selectors st
        = (Raise e,
           on_browser st
             (snd (hide_element selector (attempt_all hide_element before (sh st)))))))
  ∧ ((all_pass show_element swallowed_by_show selectors (sh st) →
      _show_elements selectors st
      = (Return tt, on_browser st (attempt_all show_element selectors (sh st))))
     ∧ (∀ before selector after e,
          selectors = (before ++ selector :: after)%list →
          all_pass show_element swallowed_by_show before (sh st) →
          fst (show_element selector (attempt_all show_element before (sh st))) = Raise e →
          swallowed_by_show e = false →
          _show_elements selectors st
          = (Raise e,
             on_browser st
               (snd (show_element selector (attempt_all show_element before (sh st))))))).
Proof.
  split.
  - apply (sweep_spec _hide_elements hide_element swallowed_by_hide); [done|].
    apply hide_elements_cons.
  - apply (sweep_spec _show_elements show_element swallowed_by_show); [done|].
    apply show_elements_cons.
Qed.

End Sweeps.

Lemma tolerant_visibility_sweep_witness :
  let p := {| page_height := 10; viewport := (1, 2); scroll_top := 0;
              screenshot_data := "ab"; capabilities := ∅;
              missing := ["#gone"]; hidden := ["#menu"]; broken := ["#crash"];
              scroll_log := []; toggle_log := [] |} in
  let st := {| self := default_screenshot; sh := p |} in
  (fst (_hide_elements ["#nav"; "#gone"; "#menu"; "#bar"] st) = Return tt
   ∧ toggle_log (sh (snd (_hide_elements ["#nav"; "#gone"; "#menu"; "#bar"] st)))
     = ["#nav"; "#gone"; "#menu"; "#bar"])
  ∧ (fst (_show_elements ["#nav"; "#gone"; "#crash"; "#bar"] st)
     = Raise (helper_error "DriverExceptions")
     ∧ toggle_log (sh (snd (_show_elements ["#nav"; "#gone"; "#crash"; "#bar"] st)))
       = ["#nav"; "#gone"; "#crash"]).
Proof.
  intros p st. split.
  - pose proof (proj1 (proj1 (tolerant_visibility_sweep
                                ["#nav"; "#gone"; "#menu"; "#bar"] st))) as Hall.
    rewrite Hall; [by vm_compute|].
    by vm_compute.
  - pose proof (proj2 (proj2 (tolerant_visibility_sweep
                                ["#nav"; "#gone"; "#crash"; "#bar"] st))
                  ["#nav"; "#gone"] "#crash" ["#bar"]
                  (helper_error "DriverExceptions") eq_refl) as Hstop.
    rewrite Hstop; [by vm_compute| |by vm_compute|by vm_compute].
    by vm_compute.
Defined.

(** ** The configuration across a capture *)

Lemma frame_refl slf : frame slf slf.
Proof. unfold frame. repeat split; (done || lia). Qed.

Lemma frame_trans a b c : frame a b → frame b c → frame a c.
Proof. unfold frame. intros (?&?&?&?&?&?) (?&?&?&?&?&?). repeat split; (congruence || lia). Qed.

Create HintDb frame discriminated.

Section Frame.
Context {browser : Type} `{Collaborators browser}.

Lemma preserves_ret {A} (a : A) : preserves (ret (browser := browser) a).
Proof. intros st. apply frame_refl. Qed.

Lemma preserves_raise {A} e : preserves (raise (browser := browser) (A := A) e).
Proof. intros st. apply frame_refl. Qed.

Lemma preserves_out_of_fuel {A} : preserves (out_of_fuel (browser := browser) (A := A)).
Proof. intros st. apply frame_refl. Qed.

Lemma preserves_lift {A} (r : outcome A) : preserves (lift (browser := browser) r).
Proof. intros st. apply frame_refl. Qed.

Lemma preserves_get_self : preserves (get_self (browser := browser)).
Proof. intros st. apply frame_refl. Qed.

Lemma preserves_get_sh : preserves (get_sh (browser := browser)).
Proof. intros st. apply frame_refl. Qed.

Lemma preserves_call {A} (op : browser → outcome A * browser) : preserves (call op).
Proof. intros st. unfold call. destruct (op (sh st)). apply frame_refl. Qed.

Lemma preserves_sleep ms : preserves (sleep (browser := browser) ms).
Proof. intros st. apply frame_refl. Qed.

Lemma preserves_bind {A B} (c : M browser A) (k : A → M browser B) :
  preserves c → (∀ a, preserves (k a)) → preserves (bind c k).
Proof.
  intros Hc Hk st. unfold bind. specialize (Hc st).
  destruct (c st) as [[a|e|] st']; simpl in *; [|done..].
  eapply frame_trans; [exact Hc|apply Hk].
Qed.

Lemma preserves_try_except {A} (c : M browser A) (handler : exn → M browser A) :
  preserves c → (∀ e, preserves (handler e)) → preserves (try_except c handler).
Proof.
  intros Hc Hh st. unfold try_except. specialize (Hc st).
  destruct (c st) as [[a|e|] st']; simpl in *; [done| |done].
  eapply frame_trans; [exact Hc|apply Hh].
Qed.

Lemma preserves_if {A} (b : bool) (c1 c2 : M browser A) :
  preserves c1 → preserves c2 → preserves (if b then c1 else c2).
Proof. by destruct b. Qed.

Hint Resolve preserves_ret preserves_raise preserves_out_of_fuel preserves_lift
  preserves_get_self preserves_get_sh preserves_call preserves_sleep
  preserves_if : frame.

Ltac frame_step :=
  repeat first
    [ assumption
    | solve [auto with frame]
    | simple apply preserves_bind; [|intros ?]
    | simple apply preserves_try_except; [|intros ?]
    | simple apply preserves_if ].

Lemma preserves_clamp header_image : preserves (clamp_pixel_match_offset (browser := browser) header_image).
Proof.
  intros st. unfold clamp_pixel_match_offset, bind, get_self, set_pixel_match_offset, ret.
  simpl. destruct (Z.gtb_spec (pixel_match_offset (self st)) (height header_image));
    simpl; [|apply frame_refl].
  unfold frame. simpl. repeat split; (done || lia).
Qed.

Lemma preserves_crop_and_stitch header_image footer_image :
  preserves (_crop_and_stitch_image (browser := browser) header_image footer_image).
Proof.
  unfold _crop_and_stitch_image. pose proof (preserves_clamp header_image).
  frame_step.
Qed.

Lemma preserves_create_image_file image : preserves (_create_image_file (browser := browser) image).
Proof. unfold _create_image_file. frame_step. Qed.

Lemma preserves_get_image_data viewport_only : preserves (_get_image_data (browser := browser) viewport_only).
Proof.
  unfold _get_image_data. frame_step.
  match goal with viewport : (Z * Z)%type |- _ => destruct viewport end.
  frame_step.
Qed.

Lemma preserves_capture_single_viewport : preserves (_capture_single_viewport (browser := browser)).
Proof.
  unfold _capture_single_viewport.
  pose proof preserves_get_image_data. pose proof preserves_create_image_file.
  frame_step.
Qed.

Lemma preserves_hide_elements selectors : preserves (_hide_elements (browser := browser) selectors).
Proof. induction selectors; cbn [_hide_elements]; frame_step. Qed.

Lemma preserves_show_elements selectors : preserves (_show_elements (browser := browser) selectors).
Proof. induction selectors; cbn [_show_elements]; frame_step. Qed.

Lemma preserves_capture_full_page : preserves (_capture_full_page (browser := browser)).
Proof.
  unfold _capture_full_page.
  pose proof preserves_get_image_data. pose proof preserves_create_image_file.
  pose proof preserves_hide_elements. pose proof preserves_show_elements.
  pose proof preserves_crop_and_stitch.
  apply preserves_bind; [auto with frame|intros slf].
  apply preserves_bind; [|auto].
  destruct (headers slf) as [[|? ?]|], (footers slf) as [[|? ?]|]; frame_step.
Qed.

Lemma preserves_paginated_loop fuel padding viewport_height position image_list :
  preserves (paginated_loop (browser := browser) fuel padding viewport_height position image_list).
Proof.
  revert position image_list. pose proof preserves_capture_single_viewport.
  induction fuel as [|fuel IH]; intros position image_list; cbn [paginated_loop];
    frame_step.
Qed.

Lemma preserves_capture_paginated_page fuel padding :
  preserves (_capture_paginated_page (browser := browser) fuel padding).
Proof.
  unfold _capture_paginated_page. pose proof preserves_paginated_loop. frame_step.
Qed.

Lemma preserves_scrolling_loop fuel css_selector viewport_only padding image_list :
  preserves (scrolling_loop (browser := browser) fuel css_selector viewport_only padding image_list).
Proof.
  revert image_list. pose proof preserves_capture_single_viewport.
  pose proof preserves_capture_full_page.
  induction fuel as [|fuel IH]; intros image_list; cbn [scrolling_loop]; frame_step.
Qed.

Lemma preserves_wrap_errors {A} msg1 msg2 (c : M browser A) :
  preserves c → preserves (wrap_errors msg1 msg2 c).
Proof. intros Hc. unfold wrap_errors. frame_step. Qed.

Lemma preserves_capture_page fuel viewport_only padding :
  preserves (capture_page (browser := browser) fuel viewport_only padding).
Proof.
  unfold capture_page. apply preserves_wrap_errors.
  pose proof preserves_capture_single_viewport. pose proof preserves_capture_full_page.
  pose proof preserves_capture_paginated_page.
  frame_step.
Qed.

Lemma preserves_capture_scrolling_element fuel css_selector viewport_only padding :
  preserves (capture_scrolling_element (browser := browser) fuel css_selector viewport_only padding).
Proof.
  unfold capture_scrolling_element. pose proof preserves_scrolling_loop.
  pose proof (@preserves_wrap_errors (list StringIO)).
  frame_step. apply preserves_wrap_errors. frame_step.
Qed.

End Frame.

(** C6 as stated fails: a full-page capture with sticky headers and footers on
    a five-row page seen through a two-row viewport stitches a two-row header
    image, and leaves [pixel_match_offset] at 2 where it was 100. *)
Lemma configuration_changed_counterexample :
  let slf := __init__ false (Some ["#top"]) (Some ["#bottom"]) DEFAULT_SCROLL_PADDING
               DEFAULT_PIXEL_MATCH_OFFSET SCREENSHOT_FILE_EXTENSION in
  let st := {| self := slf; sh := blank_page 5 1 2 "abcde" |} in
  let run := capture_page 0 false None st in
  fst run = Return (OneFile {| getvalue := "abcde"; tell := 0 |})
  ∧ pixel_match_offset (self st) = 100
  ∧ pixel_match_offset (self (snd run)) = 2
  ∧ ¬ same_configuration (self st) (self (snd run)).
Proof.
  repeat split; try by vm_compute.
  intros (_ & _ & _ & _ & Hpmo & _). by vm_compute in Hpmo.
Qed.

(** C6, amended: every capture operation leaves [paginated], [headers],
    [footers], [scroll_padding] and [file_extenson] as they were, whatever its
    outcome; [pixel_match_offset] is the exception: the stitcher overwrites it
    with [min(pixel_match_offset, header height)], so a capture can lower it
    and never raises it. *)
Theorem configuration_frame {browser : Type} `{Collaborators browser}
    (st : state browser) :
  (∀ fuel viewport_only padding,
     frame (self st) (self (snd (capture_page fuel viewport_only padding st))))
  ∧ (∀ fuel css_selector viewport_only scroll_padding,
       frame (self st)
         (self (snd (capture_scrolling_element fuel css_selector viewport_only
                       scroll_padding st))))
  ∧ (∀ header_image footer_image,
       self (snd (_crop_and_stitch_image header_image footer_image st))
       = with_pixel_match_offset (self st)
           (Z.min (pixel_match_offset (self st)) (height header_image))).
Proof.
  split; [|split].
  - intros fuel viewport_only padding. apply preserves_capture_page.
  - intros fuel css_selector viewport_only padding.
    apply preserves_capture_scrolling_element.
  - intros header_image footer_image. rewrite crop_and_stitch_run.
    by destruct (find_crop_row _ _ _).
Qed.

(** ** Pagination on the model browser *)

(** On the model browser a viewport capture always returns and leaves the
    browser where it was. *)
Lemma model_capture_single_viewport (slf : Screenshot) (p : page) :
  ∃ f, _capture_single_viewport {| self := slf; sh := p |}
       = (Return f, {| self := slf; sh := p |}).
Proof.
  unfold _capture_single_viewport, bind.
  rewrite (get_image_data_run (H := model_collaborators)
             {| self := slf; sh := p |} true (screenshot_data p)
             {| im_mode := L; im_width := 1; im_rows := rows_of_bytes (screenshot_data p) |}
             p eq_refl eq_refl).
  cbn -[Image_crop viewport_crop_box truthy].
  destruct (truthy _); [by eexists|].
  destruct (viewport p) as [vw vh]. by eexists.
Qed.








(** * Further properties of the stitcher *)

Lemma stitch_height_in_range header_image footer_image crop_row :
  0 <= crop_row <= height footer_image →
  height (stitch_at header_image footer_image crop_row)
  = height header_image + (height footer_image - crop_row).
Proof. intros Hcr. rewrite (proj1 (size_stitch_at _ _ _)). lia. Qed.

(** X1: when the header's trailing block sits in the footer at row [r] and
    no earlier footer row shows the block's first row with its last row
    [offset - 1] rows below, the seam is found there: the crop row is
    [r + offset] and the stitched image is [H1 + (H2 - (r + offset))] high and
    as wide as the footer. *)
Theorem stitch_overlap_at_first_candidate {browser} (st : state browser)
    header_image footer_image (r : nat) :
  let offset := Z.min (pixel_match_offset (self st)) (height header_image) in
  let block := header_last_hundred_rows header_image offset in
  let footer_array := numpy_asarray footer_image in
  1 <= offset →
  block_at footer_array block r →
  (∀ i, (i < r)%nat → ¬ ends_at footer_array block i) →
  find_crop_row header_image footer_image offset = Return (Z.of_nat r + offset)
  ∧ ∃ stitched_image st',
      _crop_and_stitch_image header_image footer_image st = (Return stitched_image, st')
      ∧ height stitched_image
        = height header_image + (height footer_image - (Z.of_nat r + offset))
      ∧ width stitched_image = width footer_image.
Proof.
  intros offset block footer_array Hoff Hblock Hfirst.
  assert (Hrange : 1 <= offset <= height header_image) by (unfold offset in *; lia).
  destruct (find_crop_row_spec header_image footer_image offset Hrange)
    as (b0 & Hb0 & Hs).
  assert (Hne : block ≠ []) by (intros Hnil; unfold block in Hnil; by rewrite Hnil in Hb0).
  pose proof (block_at_ends_at footer_array block r Hne Hblock) as Hends.
  pose proof (length_header_last_hundred_rows header_image offset ltac:(lia)) as Hlen.
  assert (Hfit : Z.of_nat r + offset <= height footer_image).
  { destruct Hends as (r0 & rl & _ & _ & _ & Hlast). apply lookup_lt_Some in Hlast.
    unfold height, footer_array, numpy_asarray, block in *. lia. }
  assert (Hr0 : footer_array !! r = Some b0).
  { destruct Hends as (r0 & rl & H0 & _ & Hr & _). unfold block in H0. congruence. }
  assert (Hfind : find_crop_row header_image footer_image offset
                  = Return (Z.of_nat r + offset)).
  { destruct (find_crop_row _ _ _) as [cr|e|]; [| |done].
    - destruct Hs as [[_ Hnone]|(j & -> & Hj & Hmin)].
      + by destruct (Hnone r Hr0) as [_ []].
      + destruct (lt_eq_lt_dec j r) as [[Hlt| ->]|Hgt]; [|done|].
        * by destruct (Hfirst j Hlt).
        * by destruct (Hmin r Hgt).
    - destruct Hs as (_ & j & Hj & Hover & Hmin).
      destruct (Hmin r); [lia|done]. }
  split; [done|].
  rewrite crop_and_stitch_run. fold offset. rewrite Hfind.
  eexists _, _. split; [done|]. split.
  - apply stitch_height_in_range. lia.
  - apply size_stitch_at.
Qed.

Lemma stitch_overlap_at_first_candidate_witness :
  let header_image := column [5; 1; 2; 3] in
  let footer_image := column [1; 9; 1; 2; 3; 4; 6] in
  let st := {| self := with_pixel_match_offset default_screenshot 3; sh := tt |} in
  let offset := Z.min (pixel_match_offset (self st)) (height header_image) in
  let block := header_last_hundred_rows header_image offset in
  let footer_array := numpy_asarray footer_image in
  1 <= offset
  ∧ block_at footer_array block 2
  ∧ (∀ i, (i < 2)%nat → ¬ ends_at footer_array block i)
  ∧ find_crop_row header_image footer_image offset = Return 5
  ∧ ∃ stitched_image st',
      _crop_and_stitch_image header_image footer_image st = (Return stitched_image, st')
      ∧ height stitched_image = 4 + (7 - 5)
      ∧ width stitched_image = 1.
Proof.
  intros header_image footer_image st offset block footer_array.
  assert (H1 : 1 <= offset) by (by vm_compute).
  assert (H2 : block_at footer_array block 2).
  { intros y r Hy. destruct y as [|[|[|y]]]; vm_compute in Hy; by simplify_eq. }
  assert (H3 : ∀ i, (i < 2)%nat → ¬ ends_at footer_array block i).
  { intros i Hi (r0 & rl & H0 & Hl & Hi0 & Hil).
    vm_compute in H0, Hl. simplify_eq.
    destruct i as [|[|i]]; [| |lia]; by vm_compute in Hi0, Hil. }
  split; [exact H1|]. split; [exact H2|]. split; [exact H3|].
  exact (stitch_overlap_at_first_candidate st header_image footer_image 2 H1 H2 H3).
Defined.

Lemma find_crop_row_empty_block header_image footer_image offset :
  offset <= 0 → offset <= height header_image →
  find_crop_row header_image footer_image offset
  = match numpy_asarray footer_image with
    | [] => Return (height header_image)
    | _ :: _ => Raise (IndexError 0 0)
    end.
Proof.
  intros Hneg Hle. unfold find_crop_row.
  rewrite header_last_hundred_rows_drop by done.
  rewrite Z.max_l, Z.sub_0_r by lia. unfold height at 1. rewrite Nat2Z.id, drop_all.
  by destruct (numpy_asarray footer_image).
Qed.

(** X2: with a positive clamped offset the stitcher fails exactly when no
    footer row passes the scan's two-row test and some row among the footer's
    last [offset - 1] rows equals the block's first row; the failure is then a
    [ScreenshotException] around the [IndexError] at index [H2]. *)
Theorem stitch_fails_exactly_when {browser} (st : state browser)
    header_image footer_image :
  let offset := Z.min (pixel_match_offset (self st)) (height header_image) in
  let block := header_last_hundred_rows header_image offset in
  let footer_array := numpy_asarray footer_image in
  1 <= offset →
  (((∀ i, ¬ ends_at footer_array block i)
    ∧ (∃ (j : nat) r, height footer_image - offset < Z.of_nat j
                    ∧ footer_array !! j = Some r ∧ block !! 0%nat = Some r))
   ↔ (∃ e st', _crop_and_stitch_image header_image footer_image st = (Raise e, st')))
  ∧ ((∃ e st', _crop_and_stitch_image header_image footer_image st = (Raise e, st'))
     → fst (_crop_and_stitch_image header_image footer_image st)
       = Raise (ScreenshotException stitch_error
                  (IndexError (height footer_image) (height footer_image)))).
Proof.
  intros offset block footer_array Hoff.
  assert (Hrange : 1 <= offset <= height header_image) by (unfold offset in *; lia).
  destruct (find_crop_row_spec header_image footer_image offset Hrange)
    as (b0 & Hb0 & Hs).
  fold block footer_array in Hb0, Hs.
  pose proof (length_header_last_hundred_rows header_image offset ltac:(lia)) as Hlen.
  fold block in Hlen.
  assert (Hfits : ∀ i, ends_at footer_array block i →
                       Z.of_nat i + offset <= height footer_image).
  { intros i (r0 & rl & _ & _ & _ & Hlast). apply lookup_lt_Some in Hlast.
    unfold height, footer_array, numpy_asarray in *. lia. }
  rewrite crop_and_stitch_run. fold offset.
  destruct (find_crop_row header_image footer_image offset) as [cr|e|]; [| |done].
  - split; [|by intros (? & ? & ?)]. split; [|by intros (? & ? & ?)].
    intros [Hnone (j & r & Hj & Hr & H0)]. exfalso.
    assert (r = b0) by congruence. subst r.
    destruct Hs as [[_ Hall]|(i & _ & Hi & _)]; [|by destruct (Hnone i)].
    destruct (Hall j Hr) as [Hfit _]. lia.
  - destruct Hs as (-> & j & Hj & Hover & Hmin). split; [|done].
    split; [by eexists _, _|]. intros _. split.
    + intros i Hi. destruct (Hmin i); [|done]. specialize (Hfits i Hi). lia.
    + exists j, b0. split; [lia|done].
Qed.

Lemma stitch_fails_exactly_when_witness :
  let header_image := column [1; 2] in
  let footer_image := column [9; 1] in
  let st := {| self := default_screenshot; sh := tt |} in
  1 <= Z.min (pixel_match_offset (self st)) (height header_image)
  ∧ fst (_crop_and_stitch_image header_image footer_image st)
    = Raise (ScreenshotException stitch_error (IndexError 2 2)).
Proof.
  intros header_image footer_image st.
  assert (H1 : 1 <= Z.min (pixel_match_offset (self st)) (height header_image))
    by (by vm_compute).
  split; [exact H1|].
  apply (proj2 (stitch_fails_exactly_when st header_image footer_image H1)).
  by eexists _, _.
Defined.

(** X3: whatever the images and the offset, an image the stitcher returns is
    at least as high as the header, at most as high as header and footer
    together, and as wide as the footer. *)
Theorem stitched_size_bounds {browser} (st : state browser)
    header_image footer_image stitched_image st' :
  _crop_and_stitch_image header_image footer_image st = (Return stitched_image, st') →
  height header_image <= height stitched_image
                      <= height header_image + height footer_image
  ∧ width stitched_image = width footer_image.
Proof.
  rewrite crop_and_stitch_run.
  set (offset := Z.min (pixel_match_offset (self st)) (height header_image)).
  destruct (find_crop_row header_image footer_image offset) as [cr|e|] eqn:Hfind;
    [|done..].
  intros [= <- _].
  destruct (size_stitch_at header_image footer_image cr) as [-> ->].
  split; [|done].
  pose proof (height_nonneg header_image). pose proof (height_nonneg footer_image).
  assert (0 <= cr); [|lia].
  destruct (decide (1 <= offset)) as [Hpos|Hneg].
  - destruct (find_crop_row_range header_image footer_image offset cr) as [? _];
      [unfold offset in *; lia|done|lia].
  - rewrite find_crop_row_empty_block in Hfind by (unfold offset; lia).
    destruct (numpy_asarray footer_image); simplify_eq. lia.
Qed.

Lemma stitched_size_bounds_witness :
  let header_image := column [1; 2; 3] in
  let footer_image := column [7; 1; 2; 3; 4] in
  let st := {| self := default_screenshot; sh := tt |} in
  3 <= height (stitch_at header_image footer_image 4) <= 3 + 5.
Proof.
  intros header_image footer_image st.
  exact (proj1 (stitched_size_bounds st header_image footer_image
                  (stitch_at header_image footer_image 4)
                  (snd (_crop_and_stitch_image header_image footer_image st))
                  eq_refl)).
Defined.

Lemma ends_at_block_at_short footer_array block i :
  (length block <= 2)%nat → ends_at footer_array block i → block_at footer_array block i.
Proof.
  intros Hlen (r0 & rl & H0 & Hl & Hi & Hil) y r Hy.
  destruct block as [|b0 [|b1 [|b2 block]]]; simpl in *; [done| | |lia].
  - destruct y as [|y]; simpl in Hy; simplify_eq. by rewrite Nat.add_0_r.
  - destruct y as [|[|y]]; simpl in Hy; simplify_eq; [by rewrite Nat.add_0_r|done].
Qed.

(** X4: with a clamped offset of 1 or 2 the scan is exact: the crop row is
    either the fallback, and then the header's trailing block occurs nowhere
    in the footer, or [i + offset] for the first row [i] at which the whole
    block occurs. *)
Theorem seam_search_exact_for_short_blocks header_image footer_image offset crop_row :
  let block := header_last_hundred_rows header_image offset in
  let footer_array := numpy_asarray footer_image in
  1 <= offset <= 2 → offset <= height header_image →
  find_crop_row header_image footer_image offset = Return crop_row →
  (crop_row = height header_image ∧ ∀ i, ¬ block_at footer_array block i)
  ∨ (∃ i : nat, crop_row = Z.of_nat i + offset
                ∧ block_at footer_array block i
                ∧ ∀ i', (i' < i)%nat → ¬ block_at footer_array block i').
Proof.
  intros block footer_array Hoff Hle Hfind.
  destruct (find_crop_row_spec header_image footer_image offset ltac:(lia))
    as (b0 & Hb0 & Hs).
  fold block footer_array in Hb0, Hs. rewrite Hfind in Hs.
  pose proof (length_header_last_hundred_rows header_image offset ltac:(lia)) as Hlen.
  fold block in Hlen.
  assert (Hne : block ≠ []) by (intros Hnil; by rewrite Hnil in Hb0).
  assert (Hshort : (length block <= 2)%nat) by lia.
  destruct Hs as [[-> Hnone]|(i & -> & Hi & Hmin)].
  - left. split; [done|]. intros i Hblock.
    pose proof (block_at_ends_at _ _ _ Hne Hblock) as Hends.
    destruct Hends as (r0 & rl & H0 & Hl & Hi & Hil).
    assert (r0 = b0) by congruence. subst r0.
    destruct (Hnone i Hi) as [_ Hnot]. apply Hnot. by exists b0, rl.
  - right. exists i. split; [done|]. split; [by apply ends_at_block_at_short|].
    intros i' Hlt Hblock. apply (Hmin i' Hlt). by apply block_at_ends_at.
Qed.

Lemma seam_search_exact_for_short_blocks_witness :
  let header_image := column [5; 1; 2] in
  let footer_image := column [1; 9; 1; 2; 7] in
  1 <= 2 <= 2 ∧ 2 <= height header_image
  ∧ find_crop_row header_image footer_image 2 = Return 4
  ∧ ((4 = height header_image
      ∧ ∀ i, ¬ block_at (numpy_asarray footer_image)
                 (header_last_hundred_rows header_image 2) i)
     ∨ (∃ i : nat, 4 = Z.of_nat i + 2
                   ∧ block_at (numpy_asarray footer_image)
                       (header_last_hundred_rows header_image 2) i
                   ∧ ∀ i', (i' < i)%nat →
                       ¬ block_at (numpy_asarray footer_image)
                           (header_last_hundred_rows header_image 2) i')).
Proof.
  intros header_image footer_image.
  assert (H1 : 1 <= 2 <= 2) by lia.
  assert (H2 : 2 <= height header_image) by (by vm_compute).
  assert (H3 : find_crop_row header_image footer_image 2 = Return 4) by (by vm_compute).
  split; [exact H1|]. split; [exact H2|]. split; [exact H3|].
  exact (seam_search_exact_for_short_blocks header_image footer_image 2 4 H1 H2 H3).
Defined.

Lemma well_formed_lookup im (i : nat) r :
  well_formed im → im_rows im !! i = Some r → length r = im_width im.
Proof. intros Hwf Hr. by apply (Forall_lookup_1 _ _ _ _ Hwf Hr). Qed.

(** X5: a header and a footer of different widths never match: whatever their
    rows, the scan compares rows of different length, finds nothing and does
    not fail, and the footer is cropped at the header height. *)
Theorem stitch_width_mismatch_falls_back {browser} (st : state browser)
    header_image footer_image :
  let offset := Z.min (pixel_match_offset (self st)) (height header_image) in
  well_formed header_image → well_formed footer_image →
  im_width header_image ≠ im_width footer_image →
  1 <= offset →
  find_crop_row header_image footer_image offset = Return (height header_image)
  ∧ ∃ stitched_image st',
      _crop_and_stitch_image header_image footer_image st = (Return stitched_image, st')
      ∧ height stitched_image
        = height header_image + Z.max 0 (height footer_image - height header_image)
      ∧ width stitched_image = width footer_image.
Proof.
  intros offset Hwfh Hwff Hwidth Hoff.
  assert (Hrange : 1 <= offset <= height header_image) by (unfold offset in *; lia).
  destruct (find_crop_row_spec header_image footer_image offset Hrange)
    as (b0 & Hb0 & Hs).
  assert (Hb0w : length b0 = im_width header_image).
  { rewrite header_last_hundred_rows_drop, lookup_drop in Hb0 by lia.
    by eapply well_formed_lookup. }
  assert (Hnever : ∀ j, numpy_asarray footer_image !! j ≠ Some b0).
  { intros j Hj. apply (well_formed_lookup _ _ _ Hwff) in Hj. congruence. }
  assert (Hfind : find_crop_row header_image footer_image offset
                  = Return (height header_image)).
  { destruct (find_crop_row _ _ _) as [cr|e|]; [| |done].
    - destruct Hs as [[-> _]|(j & _ & (r0 & rl & H0 & _ & Hj & _) & _)]; [done|].
      assert (r0 = b0) by congruence. subst r0. by destruct (Hnever j).
    - destruct Hs as (_ & j & Hj & _). by destruct (Hnever j). }
  split; [done|].
  rewrite crop_and_stitch_run. fold offset. rewrite Hfind.
  eexists _, _. split; [done|]. apply size_stitch_at.
Qed.

Lemma stitch_width_mismatch_falls_back_witness :
  let header_image := {| im_mode := L; im_width := 2; im_rows := [[[1]; [1]]; [[2]; [2]]] |} in
  let footer_image := column [1; 2; 3] in
  let st := {| self := default_screenshot; sh := tt |} in
  well_formed header_image ∧ well_formed footer_image
  ∧ im_width header_image ≠ im_width footer_image
  ∧ 1 <= Z.min (pixel_match_offset (self st)) (height header_image)
  ∧ find_crop_row header_image footer_image 2 = Return 2.
Proof.
  intros header_image footer_image st.
  assert (H1 : well_formed header_image) by (by repeat constructor).
  assert (H2 : well_formed footer_image) by (by repeat constructor).
  assert (H3 : im_width header_image ≠ im_width footer_image) by done.
  assert (H4 : 1 <= Z.min (pixel_match_offset (self st)) (height header_image))
    by (by vm_compute).
  split; [exact H1|]. split; [exact H2|]. split; [exact H3|]. split; [exact H4|].
  exact (proj1 (stitch_width_mismatch_falls_back st header_image footer_image H1 H2 H3 H4)).
Defined.

(** ** What the stitched image shows *)

(** Linear arithmetic once the two names of the row type are the same. *)
Ltac list_lia := unfold row, pixel in *; lia.

(** Rewriting with a lookup equation whatever name the element type has. *)
Ltac rewrite_lookup H :=
  match type of H with
  | @lookup _ _ _ _ ?i ?l = ?v =>
      match goal with
      | |- context [@lookup ?K ?A ?M ?inst i l] =>
          replace (@lookup K A M inst i l) with v by (symmetry; exact H)
      end
  end.

(** Case analysis on a list lookup as it is written in the goal. *)
Ltac case_lookup l i r E :=
  match goal with
  | |- context [@lookup ?K ?A ?M ?inst i l] =>
      destruct (@lookup K A M inst i l) as [r|] eqn:E
  end.

Lemma getpixel_lookup im (x y : nat) (r : row) (p : pixel) :
  well_formed im → im_rows im !! y = Some r → r !! x = Some p →
  getpixel im (Z.of_nat x) (Z.of_nat y) = p.
Proof.
  intros Hwf Hr Hp. unfold getpixel, width, height.
  pose proof (well_formed_lookup im y r Hwf Hr) as Hlen.
  pose proof (lookup_lt_Some _ _ _ Hr). pose proof (lookup_lt_Some _ _ _ Hp).
  destruct (Z.leb_spec 0 (Z.of_nat x)); [|list_lia].
  destruct (Z.ltb_spec (Z.of_nat x) (Z.of_nat (im_width im))); [|list_lia].
  destruct (Z.leb_spec 0 (Z.of_nat y)); [|list_lia].
  destruct (Z.ltb_spec (Z.of_nat y) (Z.of_nat (length (im_rows im)))); [|list_lia].
  simpl. rewrite !Nat2Z.id, Hr. simpl. by rewrite Hp.
Qed.

Lemma row_of_pixels im (y : nat) (r : row) (x0 y0 : Z) :
  well_formed im → im_rows im !! y = Some r →
  x0 = 0 → y0 = Z.of_nat y →
  (λ x, getpixel im (x0 + x) y0) <$> seqZ 0 (width im) = r.
Proof.
  intros Hwf Hr -> ->. pose proof (well_formed_lookup im y r Hwf Hr) as Hlen.
  apply list_eq. intros x. rewrite list_lookup_fmap.
  case_lookup r x p Hp.
  - pose proof (lookup_lt_Some _ _ _ Hp).
    rewrite lookup_seqZ_lt by (unfold width; list_lia). simpl. f_equal.
    replace (0 + (0 + Z.of_nat x)) with (Z.of_nat x) by list_lia.
    by apply (getpixel_lookup im x y r p).
  - apply lookup_ge_None in Hp.
    rewrite lookup_seqZ_ge by (unfold width; list_lia). done.
Qed.

(** Cropping the footer from [crop_row] down keeps its rows from that row on. *)
Lemma footer_crop_rows footer_image (crop_row : nat) :
  well_formed footer_image → Z.of_nat crop_row <= height footer_image →
  im_rows (Image_crop footer_image (footer_crop_box footer_image (Z.of_nat crop_row)))
  = drop crop_row (im_rows footer_image).
Proof.
  intros Hwf Hle. unfold footer_crop_box, Image_crop. cbn [im_rows].
  pose proof (width_nonneg footer_image).
  rewrite !Z.max_r by list_lia. rewrite Z.sub_0_r.
  apply list_eq. intros y. rewrite list_lookup_fmap, lookup_drop.
  case_lookup (im_rows footer_image) (crop_row + y)%nat r Hr.
  - pose proof (lookup_lt_Some _ _ _ Hr).
    rewrite lookup_seqZ_lt by (unfold height; list_lia). simpl. f_equal.
    apply (row_of_pixels footer_image (crop_row + y) r); (done || list_lia).
  - apply lookup_ge_None in Hr.
    rewrite lookup_seqZ_ge by (unfold height; list_lia). done.
Qed.

(** Pasting an image as wide as the canvas replaces the canvas rows it covers
    by its own rows, converted to RGB. *)
Lemma paste_full_width_rows canvas im (y0 : nat) :
  well_formed canvas → well_formed im → im_width im = im_width canvas →
  (y0 + length (im_rows im) <= length (im_rows canvas))%nat →
  im_rows (Image_paste canvas im 0 (Z.of_nat y0))
  = (take y0 (im_rows canvas)
       ++ convert_rows (im_mode im) (im_rows im)
       ++ drop (y0 + length (im_rows im)) (im_rows canvas))%list.
Proof.
  intros Hwfc Hwfi Hw Hfit. unfold Image_paste, convert_rows. cbn [im_rows].
  apply list_eq. intros y. rewrite list_lookup_imap.
  case_lookup (im_rows canvas) y rc Hrc; simpl.
  2:{ apply lookup_ge_None in Hrc. symmetry. apply lookup_ge_None.
      rewrite !length_app, length_take, length_fmap, length_drop. list_lia. }
  pose proof (lookup_lt_Some _ _ _ Hrc) as Hy.
  pose proof (well_formed_lookup canvas y rc Hwfc Hrc) as Hrclen.
  destruct (decide (y < y0)%nat) as [Hlow|Hnlow].
  - rewrite lookup_app_l by (rewrite length_take; list_lia).
    rewrite lookup_take_lt by list_lia. rewrite_lookup Hrc. f_equal.
    apply list_eq. intros x. rewrite list_lookup_imap.
    case_lookup rc x p Hp; [simpl|done].
    destruct (Z.leb_spec (Z.of_nat y0) (Z.of_nat y)); [list_lia|].
    by rewrite !andb_false_r.
  - rewrite lookup_app_r by (rewrite length_take; list_lia).
    rewrite length_take, Nat.min_l by list_lia.
    destruct (decide (y < y0 + length (im_rows im))%nat) as [Hin|Hout].
    + rewrite lookup_app_l by (rewrite length_fmap; list_lia).
      rewrite list_lookup_fmap.
      case_lookup (im_rows im) (y - y0)%nat ri Hri;
        [|apply lookup_ge_None in Hri; list_lia].
      simpl. f_equal.
      pose proof (well_formed_lookup im _ ri Hwfi Hri) as Hrilen.
      apply list_eq. intros x. rewrite list_lookup_imap, list_lookup_fmap.
      case_lookup rc x p Hp; simpl.
      * pose proof (lookup_lt_Some _ _ _ Hp) as Hx.
        case_lookup ri x q Hq; [|apply lookup_ge_None in Hq; list_lia].
        simpl. f_equal. unfold width, height.
        destruct (Z.leb_spec 0 (Z.of_nat x)); [|list_lia].
        destruct (Z.ltb_spec (Z.of_nat x) (0 + Z.of_nat (im_width im))); [|list_lia].
        destruct (Z.leb_spec (Z.of_nat y0) (Z.of_nat y)); [|list_lia].
        destruct (Z.ltb_spec (Z.of_nat y)
                    (Z.of_nat y0 + Z.of_nat (length (im_rows im)))); [|list_lia].
        simpl. f_equal.
        replace (Z.of_nat x - 0) with (Z.of_nat x) by list_lia.
        replace (Z.of_nat y - Z.of_nat y0) with (Z.of_nat (y - y0)) by list_lia.
        by apply (getpixel_lookup im x (y - y0) ri q).
      * apply lookup_ge_None in Hp.
        case_lookup ri x q Hq; [|done].
        apply lookup_lt_Some in Hq. list_lia.
    + rewrite lookup_app_r by (rewrite length_fmap; list_lia).
      rewrite length_fmap, lookup_drop.
      replace (y0 + length (im_rows im) + (y - y0 - length (im_rows im)))%nat
        with y by list_lia.
      rewrite_lookup Hrc. f_equal.
      apply list_eq. intros x. rewrite list_lookup_imap.
      case_lookup rc x p Hp; [simpl|done].
      unfold height.
      destruct (Z.ltb_spec (Z.of_nat y)
                  (Z.of_nat y0 + Z.of_nat (length (im_rows im)))); [list_lia|].
      by rewrite !andb_false_r.
Qed.

Lemma well_formed_convert_rows im :
  well_formed im → Forall (λ r : row, length r = im_width im)
                     (convert_rows (im_mode im) (im_rows im)).
Proof.
  intros Hwf. unfold convert_rows. apply Forall_fmap.
  eapply Forall_impl; [exact Hwf|]. intros r Hr. simpl. by rewrite length_fmap.
Qed.

(** The rows of the image pasted together for a crop row within the footer. *)
Lemma stitch_at_rows header_image footer_image (crop_row : nat) :
  well_formed header_image → well_formed footer_image →
  im_width header_image = im_width footer_image →
  Z.of_nat crop_row <= height footer_image →
  im_mode (stitch_at header_image footer_image (Z.of_nat crop_row)) = RGB
  ∧ im_rows (stitch_at header_image footer_image (Z.of_nat crop_row))
    = (convert_rows (im_mode header_image) (im_rows header_image)
         ++ convert_rows (im_mode footer_image)
              (drop crop_row (im_rows footer_image)))%list.
Proof.
  intros Hwfh Hwff Hw Hle. split; [done|].
  unfold stitch_at.
  set (cropped := Image_crop footer_image (footer_crop_box footer_image (Z.of_nat crop_row))).
  assert (Hcrows : im_rows cropped = drop crop_row (im_rows footer_image))
    by (by apply footer_crop_rows).
  assert (Hcw : im_width cropped = im_width footer_image).
  { unfold cropped, footer_crop_box, Image_crop, width. cbn [im_width]. lia. }
  assert (Hcm : im_mode cropped = im_mode footer_image) by done.
  assert (Hwfc : well_formed cropped).
  { unfold well_formed. rewrite Hcrows, Hcw. by apply Forall_drop. }
  assert (Hch : height cropped = height footer_image - Z.of_nat crop_row).
  { unfold height. rewrite Hcrows, length_drop. unfold height in Hle. lia. }
  set (canvas := Image_new_RGB (width footer_image) (height header_image + height cropped)).
  assert (Hvw : im_width canvas = im_width footer_image).
  { unfold canvas, Image_new_RGB, width. cbn [im_width]. lia. }
  assert (Hvrows : im_rows canvas
                   = replicate (length (im_rows header_image)
                                + (length (im_rows footer_image) - crop_row))
                       (replicate (im_width footer_image) (blank RGB))).
  { unfold canvas, Image_new_RGB. cbn [im_rows]. rewrite Hch. unfold width, height in *.
    f_equal; [lia|]. f_equal. lia. }
  assert (Hwfv : well_formed canvas).
  { unfold well_formed. rewrite Hvrows, Hvw. apply Forall_replicate.
    by rewrite length_replicate. }
  set (first_paste := Image_paste canvas header_image 0 0).
  assert (Hfrows : im_rows first_paste
                   = (convert_rows (im_mode header_image) (im_rows header_image)
                        ++ replicate (length (im_rows footer_image) - crop_row)
                             (replicate (im_width footer_image) (blank RGB)))%list).
  { unfold first_paste.
    change (Image_paste canvas header_image 0 0)
      with (Image_paste canvas header_image 0 (Z.of_nat 0)).
    rewrite (paste_full_width_rows canvas header_image 0 Hwfv Hwfh);
      [|congruence|rewrite Hvrows, length_replicate; lia].
    rewrite Hvrows, take_0, drop_replicate, app_nil_l. f_equal. f_equal. lia. }
  assert (Hwff' : well_formed first_paste).
  { unfold well_formed. rewrite Hfrows. change (im_width first_paste) with (im_width canvas).
    rewrite Hvw. apply Forall_app. split.
    - rewrite <- Hw. by apply well_formed_convert_rows.
    - apply Forall_replicate. by rewrite length_replicate. }
  change (height header_image) with (Z.of_nat (length (im_rows header_image))).
  rewrite (paste_full_width_rows first_paste cropped (length (im_rows header_image))
             Hwff' Hwfc).
  - rewrite Hfrows, Hcrows, Hcm.
    rewrite take_app_length'
      by (unfold convert_rows; by rewrite length_fmap).
    f_equal. rewrite (drop_ge (convert_rows _ _ ++ _)); [by rewrite app_nil_r|].
    rewrite length_app, length_replicate, length_drop. unfold convert_rows.
    rewrite length_fmap. lia.
  - change (im_width first_paste) with (im_width canvas). congruence.
  - rewrite Hfrows, Hcrows, length_app, length_replicate, length_drop.
    unfold convert_rows. rewrite length_fmap. lia.
Qed.


(** X6: for a header and a footer of the same width the stitched image is an
    RGB image whose rows are the header's rows followed by the footer's rows
    from the crop row on, each pixel converted to RGB: nothing of the header
    is lost and the footer's first [crop_row] rows are dropped. *)
Theorem stitched_image_rows {browser} (st : state browser)
    header_image footer_image (crop_row : nat) :
  let offset := Z.min (pixel_match_offset (self st)) (height header_image) in
  well_formed header_image → well_formed footer_image →
  im_width header_image = im_width footer_image →
  find_crop_row header_image footer_image offset = Return (Z.of_nat crop_row) →
  Z.of_nat crop_row <= height footer_image →
  ∃ stitched_image st',
    _crop_and_stitch_image header_image footer_image st = (Return stitched_image, st')
    ∧ im_mode stitched_image = RGB
    ∧ im_rows stitched_image
      = (convert_rows (im_mode header_image) (im_rows header_image)
           ++ convert_rows (im_mode footer_image)
                (drop crop_row (im_rows footer_image)))%list.
Proof.
  intros offset Hwfh Hwff Hw Hfind Hle.
  rewrite crop_and_stitch_run. fold offset. rewrite Hfind.
  eexists _, _. split; [done|]. by apply stitch_at_rows.
Qed.

Lemma stitched_image_rows_witness :
  let header_image := column [5; 1; 2] in
  let footer_image := column [9; 5; 1; 2; 7; 8] in
  let st := {| self := default_screenshot; sh := tt |} in
  well_formed header_image ∧ well_formed footer_image
  ∧ find_crop_row header_image footer_image 3 = Return 4
  ∧ ∃ stitched_image st',
      _crop_and_stitch_image header_image footer_image st = (Return stitched_image, st')
      ∧ im_mode stitched_image = RGB
      ∧ im_rows stitched_image
        = [[[5; 5; 5]]; [[1; 1; 1]]; [[2; 2; 2]]; [[7; 7; 7]]; [[8; 8; 8]]].
Proof.
  intros header_image footer_image st.
  assert (H1 : well_formed header_image) by (by repeat constructor).
  assert (H2 : well_formed footer_image) by (by repeat constructor).
  assert (H3 : find_crop_row header_image footer_image 3 = Return 4) by (by vm_compute).
  split; [exact H1|]. split; [exact H2|]. split; [exact H3|].
  exact (stitched_image_rows st header_image footer_image 4 H1 H2 eq_refl H3
           ltac:(by vm_compute)).
Defined.

(** * Further properties of the capture strategies *)

Section Results.
Context {browser : Type} `{Collaborators browser}.

Lemma returns_ret {A} (a : A) (P : A → Prop) : P a → returns (ret (browser := browser) a) P.
Proof. intros HP st a' st' [= <- _]. done. Qed.

Lemma returns_bind {A B} (c : M browser A) (k : A → M browser B) (P : B → Prop) :
  (∀ a, returns (k a) P) → returns (bind c k) P.
Proof.
  intros Hk st b st'. unfold bind.
  destruct (c st) as [[a|e|] st1]; [|done..]. apply Hk.
Qed.

Lemma returns_bind_post {A B} (c : M browser A) (k : A → M browser B)
    (Q : A → Prop) (P : B → Prop) :
  returns c Q → (∀ a, Q a → returns (k a) P) → returns (bind c k) P.
Proof.
  intros Hc Hk st b st'. unfold bind.
  destruct (c st) as [[a|e|] st1] eqn:Hrun; [|done..]. apply Hk. by eapply Hc.
Qed.

Lemma returns_try_except {A} (c : M browser A) handler (P : A → Prop) :
  returns c P → (∀ e, returns (handler e) P) → returns (try_except c handler) P.
Proof.
  intros Hc Hh st a st'. unfold try_except.
  destruct (c st) as [[a'|e|] st1] eqn:Hrun; [|apply Hh|done].
  intros [= <- <-]. by eapply Hc.
Qed.

Lemma returns_wrap_errors {A} msg1 msg2 (c : M browser A) (P : A → Prop) :
  returns c P → returns (wrap_errors msg1 msg2 c) P.
Proof.
  intros Hc. apply returns_try_except; [done|].
  intros e st a st'.
  destruct (isinstance e "SeleniumHelperExceptions"); [done|].
  by destruct (isinstance e "Exception").
Qed.

(** What [wrap_errors] raises, from what its body raises. *)
Lemma wrap_errors_raises {A} msg1 msg2 (c : M browser A) st e st' :
  wrap_errors msg1 msg2 c st = (Raise e, st') →
  ∃ cause, c st = (Raise cause, st') ∧ wrapped msg1 msg2 cause e.
Proof.
  unfold wrap_errors, try_except, wrapped.
  destruct (c st) as [[a|cause|] st1]; [done| |done].
  intros Hraise. exists cause.
  destruct (isinstance cause "SeleniumHelperExceptions");
    [|destruct (isinstance cause "Exception")];
    unfold raise in Hraise; by simplify_eq.
Qed.

Lemma create_image_file_rewound image :
  returns (_create_image_file (browser := browser) image) rewound.
Proof.
  unfold _create_image_file. apply returns_bind. intros slf.
  apply returns_bind. intros data. by apply returns_ret.
Qed.

Lemma capture_single_viewport_rewound :
  returns (_capture_single_viewport (browser := browser)) rewound.
Proof.
  unfold _capture_single_viewport. apply returns_bind. intros image.
  apply create_image_file_rewound.
Qed.

Lemma capture_full_page_rewound :
  returns (_capture_full_page (browser := browser)) rewound.
Proof.
  unfold _capture_full_page. apply returns_bind. intros slf.
  apply returns_bind. intros image. apply create_image_file_rewound.
Qed.

(** The two loops only ever append to the list they were entered with. *)
Lemma paginated_loop_appends fuel padding viewport_height position image_list :
  returns (paginated_loop (browser := browser) fuel padding viewport_height position
             image_list)
    (λ files, ∃ captured, files = (image_list ++ captured)%list ∧ captured ≠ []
                          ∧ Forall rewound captured).
Proof.
  revert position image_list.
  induction fuel as [|fuel IH]; intros position image_list; [done|].
  cbn [paginated_loop].
  apply (returns_bind_post _ _ rewound); [apply capture_single_viewport_rewound|].
  intros f Hrew.
  repeat (apply returns_bind; intros ?).
  destruct (_ =? _).
  - apply returns_ret. exists [f]. split; [done|]. split; [done|]. by constructor.
  - intros st files st' Hrun. destruct (IH _ _ _ _ _ Hrun) as (captured & -> & _ & Hall).
    exists (f :: captured). split; [by rewrite <- app_assoc|]. split; [done|].
    by constructor.
Qed.

Lemma scrolling_loop_appends fuel css_selector viewport_only padding image_list :
  returns (scrolling_loop (browser := browser) fuel css_selector viewport_only padding
             image_list)
    (λ files, ∃ captured, files = (image_list ++ captured)%list ∧ captured ≠ []
                          ∧ Forall rewound captured).
Proof.
  revert image_list. induction fuel as [|fuel IH]; intros image_list; [done|].
  cbn [scrolling_loop].
  apply (returns_bind_post _ _ rewound).
  { destruct viewport_only;
      [apply capture_single_viewport_rewound|apply capture_full_page_rewound]. }
  intros f Hrew.
  apply returns_bind. intros at_bottom. destruct at_bottom.
  - apply returns_ret. exists [f]. split; [done|]. split; [done|]. by constructor.
  - apply returns_bind. intros _.
    intros st files st' Hrun. destruct (IH _ _ _ _ Hrun) as (captured & -> & _ & Hall).
    exists (f :: captured). split; [by rewrite <- app_assoc|]. split; [done|].
    by constructor.
Qed.

End Results.

Section Entry.
Context {browser : Type} `{Collaborators browser}.

Lemma wrap_errors_returns {A} msg1 msg2 (c : M browser A) st a st' :
  wrap_errors msg1 msg2 c st = (Return a, st') → c st = (Return a, st').
Proof.
  unfold wrap_errors, try_except.
  destruct (c st) as [[a'|e|] st1]; [done| |done].
  destruct (isinstance e "SeleniumHelperExceptions"); [done|].
  by destruct (isinstance e "Exception").
Qed.

Lemma bind_ret_returns {A B} (c : M browser A) (g : A → B) st b st' :
  bind c (λ a, ret (g a)) st = (Return b, st') →
  ∃ a, c st = (Return a, st') ∧ b = g a.
Proof.
  unfold bind, ret. destruct (c st) as [[a|e|] st1]; [|done..].
  intros [= <- <-]. by exists a.
Qed.

(** What [capture_page] returns, from the strategy it dispatched to. *)
Lemma capture_page_returns fuel viewport_only padding (st : state browser) c st' :
  capture_page fuel viewport_only padding st = (Return c, st') →
  if viewport_only
  then ∃ f, _capture_single_viewport st = (Return f, st') ∧ c = OneFile f
  else if paginated (self st)
  then ∃ fs, _capture_paginated_page fuel padding st = (Return fs, st') ∧ c = FileList fs
  else ∃ f, _capture_full_page st = (Return f, st') ∧ c = OneFile f.
Proof.
  intros Hrun. apply wrap_errors_returns in Hrun.
  unfold bind at 1, get_self in Hrun. simpl in Hrun.
  destruct viewport_only; [by apply bind_ret_returns in Hrun|].
  destruct (paginated (self st)); by apply bind_ret_returns in Hrun.
Qed.

Lemma capture_scrolling_element_returns fuel css_selector viewport_only padding
    (st : state browser) fs st' :
  capture_scrolling_element fuel css_selector viewport_only padding st = (Return fs, st') →
  ∃ st1, scrolling_loop fuel css_selector viewport_only
           (or_default padding (scroll_padding (self st))) [] st1 = (Return fs, st').
Proof.
  unfold capture_scrolling_element. unfold bind at 1, get_self. simpl.
  intros Hrun. apply wrap_errors_returns in Hrun. unfold bind in Hrun.
  destruct (call (scroll_an_element css_selector true None) st) as [[[]|e|] st1];
    [|done..].
  by exists st1.
Qed.

(** X7: every file the two entry points hand back is positioned at its start,
    whichever strategy produced it. *)
Theorem captured_files_are_rewound (st : state browser) :
  (∀ fuel viewport_only padding c st',
     capture_page fuel viewport_only padding st = (Return c, st') →
     match c with
     | OneFile f => rewound f
     | FileList fs => Forall rewound fs
     end)
  ∧ (∀ fuel css_selector viewport_only padding fs st',
       capture_scrolling_element fuel css_selector viewport_only padding st
       = (Return fs, st') →
       Forall rewound fs).
Proof.
  split.
  - intros fuel viewport_only padding c st' Hrun.
    apply capture_page_returns in Hrun.
    destruct viewport_only; [|destruct (paginated (self st))].
    + destruct Hrun as (f & Hf & ->). by eapply capture_single_viewport_rewound.
    + destruct Hrun as (fs & Hfs & ->).
      unfold _capture_paginated_page in Hfs.
      assert (Hpost : returns (_capture_paginated_page fuel padding)
                        (λ fs, Forall rewound fs)).
      { unfold _capture_paginated_page. repeat (apply returns_bind; intros ?).
        intros st0 fs0 st0' Hloop.
        by destruct (paginated_loop_appends _ _ _ _ _ _ _ _ Hloop) as (? & -> & _ & ?). }
      by eapply Hpost.
    + destruct Hrun as (f & Hf & ->). by eapply capture_full_page_rewound.
  - intros fuel css_selector viewport_only padding fs st' Hrun.
    apply capture_scrolling_element_returns in Hrun as [st1 Hloop].
    by destruct (scrolling_loop_appends _ _ _ _ _ _ _ _ Hloop) as (? & -> & _ & ?).
Qed.

(** X8: [capture_page] returns a list exactly when the instance is paginated
    and the viewport alone was not asked for, and a single file otherwise;
    a list returned by [capture_page] or by [capture_scrolling_element] holds
    at least one image. *)
Theorem capture_result_shape (st : state browser) :
  (∀ fuel viewport_only padding c st',
     capture_page fuel viewport_only padding st = (Return c, st') →
     match c with
     | OneFile _ => viewport_only = true ∨ paginated (self st) = false
     | FileList fs => viewport_only = false ∧ paginated (self st) = true ∧ fs ≠ []
     end)
  ∧ (∀ fuel css_selector viewport_only padding fs st',
       capture_scrolling_element fuel css_selector viewport_only padding st
       = (Return fs, st') →
       fs ≠ []).
Proof.
  split.
  - intros fuel viewport_only padding c st' Hrun.
    apply capture_page_returns in Hrun.
    destruct viewport_only; [|destruct (paginated (self st)) eqn:Hpag].
    + destruct Hrun as (f & _ & ->). by left.
    + destruct Hrun as (fs & Hfs & ->). split; [done|]. split; [done|].
      assert (Hpost : returns (_capture_paginated_page fuel padding) (λ fs, fs ≠ [])).
      { unfold _capture_paginated_page. repeat (apply returns_bind; intros ?).
        intros st0 fs0 st0' Hloop.
        by destruct (paginated_loop_appends _ _ _ _ _ _ _ _ Hloop) as (? & -> & ? & _). }
      by eapply Hpost.
    + destruct Hrun as (f & _ & ->). by right.
  - intros fuel css_selector viewport_only padding fs st' Hrun.
    apply capture_scrolling_element_returns in Hrun as [st1 Hloop].
    by destruct (scrolling_loop_appends _ _ _ _ _ _ _ _ Hloop) as (? & -> & ? & _).
Qed.

(** X9: an exception leaves [capture_page] and [capture_scrolling_element]
    re-raised: as [SeleniumError] around a cause that is an instance of
    [SeleniumHelperExceptions], as [ScreenshotException] around any other
    instance of [Exception] -- a [ScreenshotException] of the stitcher
    included, which is wrapped a second time -- and unchanged only when it is
    no instance of [Exception] at all. *)
Theorem capture_errors_are_wrapped (st : state browser) :
  (∀ fuel viewport_only padding e st',
     capture_page fuel viewport_only padding st = (Raise e, st') →
     (∃ cause, e = SeleniumError page_selenium_error cause
               ∧ isinstance cause "SeleniumHelperExceptions" = true)
     ∨ (∃ cause, e = ScreenshotException page_unhandled_error cause
                 ∧ isinstance cause "SeleniumHelperExceptions" = false
                 ∧ isinstance cause "Exception" = true)
     ∨ (isinstance e "SeleniumHelperExceptions" = false
        ∧ isinstance e "Exception" = false))
  ∧ (∀ fuel css_selector viewport_only padding e st',
       capture_scrolling_element fuel css_selector viewport_only padding st
       = (Raise e, st') →
       (∃ cause, e = SeleniumError element_selenium_error cause
                 ∧ isinstance cause "SeleniumHelperExceptions" = true)
       ∨ (∃ cause, e = ScreenshotException element_unhandled_error cause
                   ∧ isinstance cause "SeleniumHelperExceptions" = false
                   ∧ isinstance cause "Exception" = true)
       ∨ (isinstance e "SeleniumHelperExceptions" = false
          ∧ isinstance e "Exception" = false)).
Proof.
  assert (Hcases : ∀ msg1 msg2 cause e, wrapped msg1 msg2 cause e →
            (∃ cause, e = SeleniumError msg1 cause
                      ∧ isinstance cause "SeleniumHelperExceptions" = true)
            ∨ (∃ cause, e = ScreenshotException msg2 cause
                        ∧ isinstance cause "SeleniumHelperExceptions" = false
                        ∧ isinstance cause "Exception" = true)
            ∨ (isinstance e "SeleniumHelperExceptions" = false
               ∧ isinstance e "Exception" = false)).
  { intros msg1 msg2 cause e. unfold wrapped.
    destruct (isinstance cause "SeleniumHelperExceptions") eqn:Hs.
    - intros ->. left. by exists cause.
    - destruct (isinstance cause "Exception") eqn:Hx.
      + intros ->. right. left. by exists cause.
      + intros ->. by right; right. }
  split.
  - intros fuel viewport_only padding e st' Hrun.
    apply wrap_errors_raises in Hrun as (cause & _ & Hw). by eapply Hcases.
  - intros fuel css_selector viewport_only padding e st'.
    unfold capture_scrolling_element. unfold bind at 1, get_self. simpl.
    intros Hrun. apply wrap_errors_raises in Hrun as (cause & _ & Hw). by eapply Hcases.
Qed.

End Entry.

Lemma captured_files_are_rewound_witness :
  let st := {| self := __init__ true None None 100 100 "png";
               sh := blank_page 7 1 3 "abcdefg" |} in
  let files := [{| getvalue := "abc"; tell := 0 |};
                {| getvalue := "cde"; tell := 0 |};
                {| getvalue := "efg"; tell := 0 |}] in
  capture_page 9 false (Some 1) st
  = (Return (FileList files), snd (capture_page 9 false (Some 1) st))
  ∧ Forall rewound files.
Proof.
  intros st files.
  assert (Hrun : capture_page 9 false (Some 1) st
                 = (Return (FileList files), snd (capture_page 9 false (Some 1) st)))
    by (by vm_compute).
  split; [exact Hrun|].
  exact (proj1 (captured_files_are_rewound st) 9%nat false (Some 1) (FileList files) _ Hrun).
Defined.

Lemma capture_result_shape_witness :
  let st := {| self := __init__ true None None 100 100 "png";
               sh := blank_page 7 1 3 "abcdefg" |} in
  let files := [{| getvalue := "abc"; tell := 0 |};
                {| getvalue := "cde"; tell := 0 |};
                {| getvalue := "efg"; tell := 0 |}] in
  capture_page 9 false (Some 1) st
  = (Return (FileList files), snd (capture_page 9 false (Some 1) st))
  ∧ false = false ∧ paginated (self st) = true ∧ files ≠ [].
Proof.
  intros st files.
  assert (Hrun : capture_page 9 false (Some 1) st
                 = (Return (FileList files), snd (capture_page 9 false (Some 1) st)))
    by (by vm_compute).
  split; [exact Hrun|].
  exact (proj1 (capture_result_shape st) 9%nat false (Some 1) (FileList files) _ Hrun).
Defined.

Lemma capture_errors_are_wrapped_witness :
  let st := {| self := __init__ false (Some ["#top"]) (Some ["#bottom"]) 100 100 "png";
               sh := blank_page 2 1 3 "ab" |} in
  let e := ScreenshotException page_unhandled_error
             (ScreenshotException stitch_error (IndexError 2 2)) in
  capture_page 0 false None st = (Raise e, snd (capture_page 0 false None st))
  ∧ ((∃ cause, e = SeleniumError page_selenium_error cause
               ∧ isinstance cause "SeleniumHelperExceptions" = true)
     ∨ (∃ cause, e = ScreenshotException page_unhandled_error cause
                 ∧ isinstance cause "SeleniumHelperExceptions" = false
                 ∧ isinstance cause "Exception" = true)
     ∨ (isinstance e "SeleniumHelperExceptions" = false
        ∧ isinstance e "Exception" = false)).
Proof.
  intros st e.
  assert (Hrun : capture_page 0 false None st
                 = (Raise e, snd (capture_page 0 false None st))) by (by vm_compute).
  split; [exact Hrun|].
  exact (proj1 (capture_errors_are_wrapped st) 0%nat false None e _ Hrun).
Defined.

(** * Calls made on the helper *)

Local Open Scope list_scope.

Lemma follows_exact {A} keep (calls : list helper_call) (r : outcome A) :
  follows keep (filter (λ c, keep c = true) calls) r calls.
Proof. unfold follows. destruct r; [done|reflexivity..]. Qed.

Lemma follows_app {A B} keep plan1 plan2 (r1 : outcome A) (r2 : outcome B) calls1 calls2 :
  follows keep plan1 r1 calls1 →
  match r1 with
  | Return _ => follows keep plan2 r2 calls2 → follows keep (plan1 ++ plan2) r2 (calls1 ++ calls2)
  | Raise e => follows keep (plan1 ++ plan2) (Raise (A := B) e) calls1
  | OutOfFuel => follows keep (plan1 ++ plan2) (OutOfFuel (A := B)) calls1
  end.
Proof.
  unfold follows. destruct r1 as [a|e|]; intros H1.
  - rewrite filter_app, H1. destruct r2; intros H2; [by rewrite H2|..];
      by apply prefix_app.
  - by apply prefix_app_r.
  - by apply prefix_app_r.
Qed.

Section Recording.
Context {browser : Type} (base : Collaborators browser).

Local Abbreviation recorded := (browser * list helper_call)%type.

Lemma emits_weaken {A} (c : M recorded A) (Q Q' : outcome A → list helper_call → Prop) :
  emits c Q → (∀ r calls, Q r calls → Q' r calls) → emits c Q'.
Proof. intros Hc HQ st. destruct (Hc st) as (calls & Hlog & Hq). eauto. Qed.

Lemma emits_silent {A} (c : M recorded A) (Q : outcome A → list helper_call → Prop) :
  (∀ st, sh (snd (c st)) = sh st) → (∀ r, Q r []) → emits c Q.
Proof.
  intros Hsame HQ st. exists []. rewrite Hsame, app_nil_r. done.
Qed.

Lemma emits_bind {A B} (c : M recorded A) (k : A → M recorded B) Q1 Q2
    (Q : outcome B → list helper_call → Prop) :
  emits c Q1 → (∀ a, emits (k a) (Q2 a)) →
  (∀ r1 calls1, Q1 r1 calls1 →
     match r1 with
     | Return a => ∀ r2 calls2, Q2 a r2 calls2 → Q r2 (calls1 ++ calls2)
     | Raise e => Q (Raise e) calls1
     | OutOfFuel => Q OutOfFuel calls1
     end) →
  emits (bind c k) Q.
Proof.
  intros Hc Hk HQ st. unfold bind.
  destruct (Hc st) as (calls1 & Hlog1 & Hq1). specialize (HQ _ _ Hq1).
  destruct (c st) as [[a|e|] st1]; simpl in *; [|by exists calls1..].
  destruct (Hk a st1) as (calls2 & Hlog2 & Hq2).
  exists (calls1 ++ calls2)%list. split.
  - by rewrite Hlog2, Hlog1, app_assoc.
  - by apply HQ.
Qed.

Lemma emits_try_except {A} (c : M recorded A) handler Q1
    (Q : outcome A → list helper_call → Prop) :
  emits c Q1 → (∀ e, emits (handler e) (λ _ calls, calls = [])) →
  (∀ r calls, Q1 r calls →
     match r with
     | Raise _ => ∀ r', Q r' calls
     | _ => Q r calls
     end) →
  emits (try_except c handler) Q.
Proof.
  intros Hc Hh HQ st. unfold try_except.
  destruct (Hc st) as (calls1 & Hlog1 & Hq1). specialize (HQ _ _ Hq1).
  destruct (c st) as [[a|e|] st1]; simpl in *; [by exists calls1| |by exists calls1].
  destruct (Hh e st1) as (calls2 & Hlog2 & ->).
  exists calls1. split; [by rewrite Hlog2, Hlog1, app_nil_r|]. apply HQ.
Qed.

Lemma emits_follows_bind {A B} keep plan1 plan2 (c : M recorded A) (k : A → M recorded B) :
  emits c (follows keep plan1) → (∀ a, emits (k a) (follows keep plan2)) →
  emits (bind c k) (follows keep (plan1 ++ plan2)).
Proof.
  intros Hc Hk. eapply emits_bind; [exact Hc|exact Hk|].
  intros r1 calls1 H1.
  destruct r1 as [a|e|].
  - intros r2 calls2 H2.
    by apply (follows_app keep plan1 plan2 (Return a) r2 calls1 calls2 H1).
  - apply (follows_app (B := B) keep plan1 plan2 (Raise e) OutOfFuel calls1 [] H1).
  - apply (follows_app (B := B) keep plan1 plan2 OutOfFuel OutOfFuel calls1 [] H1).
Qed.

Lemma emits_record_call {A} (c : helper_call) (op : browser → outcome A * browser) :
  emits (call (record_call c op)) (λ _ calls, calls = [c]).
Proof.
  intros st. exists [c]. unfold call, record_call.
  by destruct (op (fst (sh st))).
Qed.

Lemma emits_follows_call {A} keep (c : helper_call) (op : browser → outcome A * browser) :
  emits (call (record_call c op)) (follows keep (if keep c then [c] else [])).
Proof.
  eapply emits_weaken; [apply emits_record_call|].
  intros r calls ->. replace (if keep c then [c] else [])
    with (filter (λ c, keep c = true) [c]); [apply follows_exact|].
  rewrite filter_cons, filter_nil.
  case_decide as Hk; [by rewrite Hk|by destruct (keep c)].
Qed.

Lemma emits_follows_silent {A} keep (c : M recorded A) :
  (∀ st, sh (snd (c st)) = sh st) → emits c (follows keep []).
Proof.
  intros Hsame. apply emits_silent; [done|]. intros r. apply (follows_exact keep []).
Qed.

End Recording.

Section RecordedMethods.
Context {browser : Type} (base : Collaborators browser).

Local Abbreviation recorded := (browser * list helper_call)%type.
Local Abbreviation R := (recording base).

Lemma emits_follows_ret {A} (a : A) plan :
  plan = [] → emits (ret (browser := recorded) a) (follows observed plan).
Proof. intros ->. by apply emits_follows_silent. Qed.

Lemma emits_create_image_file image :
  emits (_create_image_file (H := R) image) (follows observed []).
Proof.
  apply emits_follows_silent. intros st. unfold _create_image_file, bind, get_self, lift, ret.
  simpl. by destruct (Image_save _ _).
Qed.

Lemma emits_crop_and_stitch header_image footer_image :
  emits (_crop_and_stitch_image (browser := recorded) header_image footer_image)
    (follows observed []).
Proof.
  apply emits_follows_silent. intros st. rewrite crop_and_stitch_run.
  by destruct (find_crop_row _ _ _).
Qed.

Lemma emits_get_image_data viewport_only :
  emits (_get_image_data (H := R) viewport_only) (follows observed [TakeScreenshot]).
Proof.
  unfold _get_image_data.
  apply (emits_follows_bind observed [TakeScreenshot] []);
    [apply (emits_follows_call observed TakeScreenshot)|intros data].
  apply (emits_follows_bind observed [] []);
    [by apply emits_follows_silent|intros image].
  apply (emits_follows_bind observed [] []);
    [by apply emits_follows_silent|intros b].
  destruct (truthy _); [by apply emits_follows_ret|].
  destruct viewport_only; [|by apply emits_follows_ret].
  apply (emits_follows_bind observed [] []);
    [apply (emits_follows_call observed ReadScrollPosition)|intros position].
  apply (emits_follows_bind observed [] []);
    [apply (emits_follows_call observed ReadViewportSize)|intros [vw vh]].
  by apply emits_follows_ret.
Qed.

Lemma emits_capture_single_viewport :
  emits (_capture_single_viewport (H := R)) (follows observed [TakeScreenshot]).
Proof.
  unfold _capture_single_viewport.
  apply (emits_follows_bind observed [TakeScreenshot] []);
    [apply emits_get_image_data|intros image; apply emits_create_image_file].
Qed.

Lemma emits_hide_elements selectors :
  emits (_hide_elements (H := R) selectors) (follows observed (HideElement <$> selectors)).
Proof.
  induction selectors as [|selector selectors IH]; [by apply emits_follows_ret|].
  cbn [_hide_elements]. rewrite fmap_cons.
  apply (emits_follows_bind observed [HideElement selector]); [|intros _; exact IH].
  eapply emits_try_except; [apply emits_record_call| |].
  - intros e. apply emits_silent; [|done]. intros st.
    destruct (isinstance e "ElementNotVisibleError"); [done|].
    by destruct (isinstance e "ElementError").
  - intros r calls ->.
    destruct r; [|intros r'|]; exact (follows_exact observed [HideElement selector] _).
Qed.

Lemma emits_show_elements selectors :
  emits (_show_elements (H := R) selectors) (follows observed (ShowElement <$> selectors)).
Proof.
  induction selectors as [|selector selectors IH]; [by apply emits_follows_ret|].
  cbn [_show_elements]. rewrite fmap_cons.
  apply (emits_follows_bind observed [ShowElement selector]); [|intros _; exact IH].
  eapply emits_try_except; [apply emits_record_call| |].
  - intros e. apply emits_silent; [|done]. intros st.
    by destruct (isinstance e "ElementError").
  - intros r calls ->.
    destruct r; [|intros r'|]; exact (follows_exact observed [ShowElement selector] _).
Qed.

Lemma emits_sleep ms : emits (sleep (H := R) ms) (follows observed [Sleep ms]).
Proof.
  intros st. exists [Sleep ms]. split; [done|].
  exact (follows_exact observed [Sleep ms] _).
Qed.

End RecordedMethods.

Section RecordedStrategies.
Context {browser : Type} (base : Collaborators browser).

Local Abbreviation recorded := (browser * list helper_call)%type.
Local Abbreviation R := (recording base).

Lemma emits_follows_eq {A} plan plan' (c : M recorded A) :
  plan = plan' → emits c (follows observed plan) → emits c (follows observed plan').
Proof. by intros ->. Qed.

Ltac then_call c :=
  apply (emits_follows_bind observed [c]);
    [apply (emits_follows_call observed c)|intros ?].

(** The body of [_capture_full_page] once [self] has been read. *)
Lemma emits_full_page_body (slf : Screenshot) :
  emits
    (image_data <~
       match headers slf, footers slf with
       | Some ((_ :: _) as hs), Some ((_ :: _) as fs) =>
           call (scroll_window_to_position (Collaborators := R) 0) ;;
           _hide_elements (H := R) fs ;;
           header_image <~ _get_image_data (H := R) true ;;
           _show_elements (H := R) fs ;;
           call (scroll_window_to_position (Collaborators := R) 40000) ;;
           _hide_elements (H := R) hs ;;
           footer_image <~ _get_image_data (H := R) false ;;
           _show_elements (H := R) hs ;;
           _crop_and_stitch_image header_image footer_image
       | Some (_ :: _), _ =>
           call (scroll_window_to_position (Collaborators := R) 0) ;;
           sleep (H := R) 500 ;;
           _get_image_data (H := R) false
       | _, Some (_ :: _) =>
           call (scroll_window_to_position (Collaborators := R) 40000) ;;
           sleep (H := R) 500 ;;
           _get_image_data (H := R) false
       | _, _ => _get_image_data (H := R) false
       end ;;
     _create_image_file (H := R) image_data)
    (follows observed (full_page_calls slf)).
Proof.
  apply (emits_follows_eq (full_page_calls slf ++ [])); [apply app_nil_r|].
  apply (emits_follows_bind observed (full_page_calls slf) []);
    [|intros image; apply emits_create_image_file].
  unfold full_page_calls.
  assert (Hshot : ∀ viewport_only,
            emits (_get_image_data (H := R) viewport_only)
              (follows observed [TakeScreenshot])) by apply emits_get_image_data.
  assert (Hheaders : emits (call (scroll_window_to_position (Collaborators := R) 0) ;;
                            sleep (H := R) 500 ;; _get_image_data (H := R) false)
                       (follows observed [ScrollWindowTo 0; Sleep 500; TakeScreenshot])).
  { then_call (ScrollWindowTo 0).
    apply (emits_follows_bind observed [Sleep 500]); [apply emits_sleep|intros _].
    apply Hshot. }
  assert (Hfooters : emits (call (scroll_window_to_position (Collaborators := R) 40000) ;;
                            sleep (H := R) 500 ;; _get_image_data (H := R) false)
                       (follows observed [ScrollWindowTo 40000; Sleep 500; TakeScreenshot])).
  { then_call (ScrollWindowTo 40000).
    apply (emits_follows_bind observed [Sleep 500]); [apply emits_sleep|intros _].
    apply Hshot. }
  destruct (headers slf) as [[|h hs]|], (footers slf) as [[|f fs]|];
    try exact Hheaders; try exact Hfooters; try apply Hshot.
  then_call (ScrollWindowTo 0).
  apply (emits_follows_bind observed (HideElement <$> f :: fs));
    [apply emits_hide_elements|intros _].
  apply (emits_follows_bind observed [TakeScreenshot]); [apply Hshot|intros header_image].
  apply (emits_follows_bind observed (ShowElement <$> f :: fs));
    [apply emits_show_elements|intros _].
  then_call (ScrollWindowTo 40000).
  apply (emits_follows_bind observed (HideElement <$> h :: hs));
    [apply emits_hide_elements|intros _].
  apply (emits_follows_bind observed [TakeScreenshot]); [apply Hshot|intros footer_image].
  apply (emits_follows_eq ((ShowElement <$> h :: hs) ++ [])); [apply app_nil_r|].
  apply (emits_follows_bind observed (ShowElement <$> h :: hs) []);
    [apply emits_show_elements|intros _; apply emits_crop_and_stitch].
Qed.

(** X10: on any helper, the calls of [_capture_full_page] other than the
    reads of scroll position and viewport size are, in this order: with both
    kinds of sticky elements, scroll to 0, hide every footer, screenshot, show
    every footer, scroll to 40000, hide every header, screenshot, show every
    header; with one kind only, one scroll (to 0 for headers, to 40000 for
    footers), a pause of half a second and one screenshot; with none, one
    screenshot.  A capture that returns has made all of them; one that fails
    has made a prefix of them and nothing else, so elements hidden before the
    failure are not shown again. *)
Theorem full_page_calls_in_order (st : state recorded) :
  ∃ calls,
    snd (sh (snd (_capture_full_page (H := R) st))) = snd (sh st) ++ calls
    ∧ follows observed (full_page_calls (self st))
        (fst (_capture_full_page (H := R) st)) calls.
Proof.
  destruct (emits_full_page_body (self st) st) as (calls & Hlog & Hfollows).
  by exists calls.
Qed.

End RecordedStrategies.

Section RecordedLoops.
Context {browser : Type} (base : Collaborators browser).

Local Abbreviation recorded := (browser * list helper_call)%type.
Local Abbreviation R := (recording base).

Lemma emits_completes_bind {A B} before plan (P : B → list helper_call → Prop)
    (c : M recorded A) (k : A → M recorded B) :
  emits c (follows observed plan) →
  (∀ a, emits (k a) (completes (before ++ plan) P)) →
  emits (bind c k) (completes before P).
Proof.
  intros Hc Hk. eapply emits_bind; [exact Hc|exact Hk|].
  intros [a|e|] calls1 H1; [|done..].
  intros [b|e|] calls2 H2; [|done..].
  unfold completes, follows in *. by rewrite filter_app, H1, app_assoc.
Qed.

Lemma emits_completes_ret {A} before (P : A → list helper_call → Prop) (a : A) :
  P a before → emits (ret (browser := recorded) a) (completes before P).
Proof.
  intros HP st. exists []. split; [by rewrite app_nil_r|].
  unfold completes, ret. simpl. by rewrite filter_nil, app_nil_r.
Qed.

Lemma emits_completes_weaken {A} before (P P' : A → list helper_call → Prop)
    (c : M recorded A) :
  emits c (completes [] P') → (∀ a calls, P' a calls → P a (before ++ calls)) →
  emits c (completes before P).
Proof.
  intros Hc HP. eapply emits_weaken; [exact Hc|].
  intros [a|e|] calls; [|done..]. unfold completes. simpl. apply HP.
Qed.

Lemma emits_completes_wrap_errors {A} msg1 msg2 before
    (P : A → list helper_call → Prop) (c : M recorded A) :
  emits c (completes before P) → emits (wrap_errors msg1 msg2 c) (completes before P).
Proof.
  intros Hc st. destruct (Hc st) as (calls & Hlog & Hq). exists calls.
  unfold wrap_errors, try_except.
  destruct (c st) as [[a|e|] st1]; simpl in *; [done| |done].
  destruct (isinstance e "SeleniumHelperExceptions"); [done|].
  by destruct (isinstance e "Exception").
Qed.

Lemma emits_follows_wrap_errors {A} msg1 msg2 plan (c : M recorded A) :
  emits c (follows observed plan) → emits (wrap_errors msg1 msg2 c) (follows observed plan).
Proof.
  intros Hc st. destruct (Hc st) as (calls & Hlog & Hq). exists calls.
  unfold wrap_errors, try_except.
  destruct (c st) as [[a|e|] st1]; simpl in *; [done| |done].
  destruct (isinstance e "SeleniumHelperExceptions"); [done|].
  by destruct (isinstance e "Exception").
Qed.

Lemma emits_paginated_loop fuel padding viewport_height :
  ∀ position image_list,
    emits (paginated_loop (H := R) fuel padding viewport_height position image_list)
      (completes [] (paginated_calls image_list)).
Proof.
  induction fuel as [|fuel IH]; intros position image_list.
  { intros st. exists []. by rewrite app_nil_r. }
  cbn [paginated_loop].
  set (target := position + viewport_height - padding).
  apply (emits_completes_bind [] [TakeScreenshot]);
    [apply emits_capture_single_viewport|intros f].
  apply (emits_completes_bind _ [ScrollWindowTo target]);
    [apply (emits_follows_call observed (ScrollWindowTo target))|intros _].
  apply (emits_completes_bind _ [Sleep 250]); [apply emits_sleep|intros _].
  apply (emits_completes_bind _ []);
    [apply (emits_follows_call observed ReadScrollPosition)|intros new_position].
  destruct (new_position =? position).
  - apply emits_completes_ret. exists [target]. rewrite length_app. by repeat split.
  - eapply emits_completes_weaken; [apply IH|].
    intros files calls (targets & Hlen & Hne & ->).
    exists (target :: targets). rewrite length_app in Hlen. simpl in *.
    split; [lia|]. split; [done|]. done.
Qed.

Lemma emits_scrolling_loop fuel css_selector padding :
  ∀ image_list,
    emits (scrolling_loop (H := R) fuel css_selector true padding image_list)
      (completes [] (element_calls css_selector padding image_list)).
Proof.
  induction fuel as [|fuel IH]; intros image_list.
  { intros st. exists []. by rewrite app_nil_r. }
  cbn [scrolling_loop].
  apply (emits_completes_bind [] [TakeScreenshot]);
    [apply emits_capture_single_viewport|intros f].
  apply (emits_completes_bind _ [IsAtBottom css_selector]);
    [apply (emits_follows_call observed (IsAtBottom css_selector))|intros at_bottom].
  destruct at_bottom.
  - apply emits_completes_ret. exists 0%nat. rewrite length_app. by split; [simpl; lia|].
  - apply (emits_completes_bind _ [ScrollAnElement css_selector false (Some padding)]);
      [apply (emits_follows_call observed
                (ScrollAnElement css_selector false (Some padding)))|intros _].
    eapply emits_completes_weaken; [apply IH|].
    intros files calls (advances & Hlen & ->).
    exists (S advances). rewrite length_app in Hlen. simpl in *.
    split; [lia|]. done.
Qed.

End RecordedLoops.

Section RecordedEntryPoints.
Context {browser : Type} (base : Collaborators browser).

Local Abbreviation recorded := (browser * list helper_call)%type.
Local Abbreviation R := (recording base).

(** X11: asked for the viewport only, [capture_page] takes one screenshot and
    makes no other call than reads of the scroll position and the viewport
    size, whether the instance is paginated or has sticky elements: it never
    scrolls and never hides or shows anything. *)
Theorem viewport_capture_calls (st : state recorded) fuel padding :
  ∃ calls,
    snd (sh (snd (capture_page (H := R) fuel true padding st))) = snd (sh st) ++ calls
    ∧ follows observed [TakeScreenshot]
        (fst (capture_page (H := R) fuel true padding st)) calls.
Proof.
  assert (Hemits : emits (capture_page (H := R) fuel true padding)
                     (follows observed [TakeScreenshot])).
  { unfold capture_page. apply emits_follows_wrap_errors.
    apply (emits_follows_bind observed [] [TakeScreenshot]);
      [by apply emits_follows_silent|intros slf].
    apply (emits_follows_bind observed [TakeScreenshot] []);
      [apply emits_capture_single_viewport|intros f].
    by apply emits_follows_silent. }
  apply Hemits.
Qed.

(** X12: a paginated capture that returns [n] images has made, besides reads
    of the scroll position and the viewport size, exactly these calls: a
    scroll to 0, the read of the client height, and then [n] times a
    screenshot, a scroll and a pause of a quarter of a second -- [n]
    screenshots and [n + 1] scroll commands, and no hide or show. *)
Theorem paginated_capture_calls (st : state recorded) fuel padding files st' :
  _capture_paginated_page (H := R) fuel padding st = (Return files, st') →
  ∃ calls targets,
    snd (sh st') = snd (sh st) ++ calls
    ∧ length targets = length files
    ∧ filter (λ c, observed c = true) calls
      = ScrollWindowTo 0 :: ReadClientHeight :: flat_map page_step targets.
Proof.
  intros Hrun.
  assert (Hemits : emits (_capture_paginated_page (H := R) fuel padding)
            (completes []
               (λ files calls, ∃ targets,
                  length targets = length files
                  ∧ calls = ScrollWindowTo 0 :: ReadClientHeight
                              :: flat_map page_step targets))).
  { unfold _capture_paginated_page.
    apply (emits_completes_bind [] []); [by apply emits_follows_silent|intros slf].
    apply (emits_completes_bind _ [ScrollWindowTo 0]);
      [apply (emits_follows_call observed (ScrollWindowTo 0))|intros _].
    apply (emits_completes_bind _ [ReadClientHeight]);
      [apply (emits_follows_call observed ReadClientHeight)|intros viewport_height].
    eapply emits_completes_weaken; [apply emits_paginated_loop|].
    intros fs calls (targets & Hlen & _ & ->). by exists targets. }
  destruct (Hemits st) as (calls & Hlog & Hq). rewrite Hrun in Hlog, Hq.
  destruct Hq as (targets & Hlen & Hcalls). by exists calls, targets.
Qed.

(** X13: a viewport-only capture of a scrolling element that returns [n]
    images has made, besides reads of the scroll position and the viewport
    size, exactly these calls: the scroll of the element to its top, a
    screenshot and a bottom probe, and then [n - 1] times a scroll of the
    element by the effective padding, a screenshot and a bottom probe.  The
    number of images is the number of bottom probes and one more than the
    number of scroll advances. *)
Theorem scrolling_element_calls (st : state recorded) fuel css_selector padding
    files st' :
  capture_scrolling_element (H := R) fuel css_selector true padding st
  = (Return files, st') →
  let effective := or_default padding (scroll_padding (self st)) in
  ∃ calls,
    snd (sh st') = snd (sh st) ++ calls
    ∧ filter (λ c, observed c = true) calls
      = ScrollAnElement css_selector true None
          :: [TakeScreenshot; IsAtBottom css_selector]
          ++ concat (replicate (length files - 1)
                       [ScrollAnElement css_selector false (Some effective);
                        TakeScreenshot; IsAtBottom css_selector]).
Proof.
  intros Hrun effective.
  assert (Hemits : emits
            (wrap_errors element_selenium_error element_unhandled_error
               (call (scroll_an_element (Collaborators := R) css_selector true None) ;;
                scrolling_loop (H := R) fuel css_selector true effective []))
            (completes []
               (λ files calls,
                  calls = ScrollAnElement css_selector true None
                            :: [TakeScreenshot; IsAtBottom css_selector]
                            ++ concat (replicate (length files - 1)
                                 [ScrollAnElement css_selector false (Some effective);
                                  TakeScreenshot; IsAtBottom css_selector])))).
  { apply emits_completes_wrap_errors.
    apply (emits_completes_bind [] [ScrollAnElement css_selector true None]);
      [apply (emits_follows_call observed (ScrollAnElement css_selector true None))
      |intros _].
    eapply emits_completes_weaken; [apply emits_scrolling_loop|].
    intros fs calls (advances & Hlen & ->). simpl in Hlen.
    replace (length fs - 1)%nat with advances by lia. done. }
  destruct (Hemits st) as (calls & Hlog & Hq).
  assert (Hrun' : wrap_errors element_selenium_error element_unhandled_error
                    (call (scroll_an_element (Collaborators := R) css_selector true None) ;;
                     scrolling_loop (H := R) fuel css_selector true effective []) st
                  = (Return files, st')) by exact Hrun.
  rewrite Hrun' in Hlog, Hq. by exists calls.
Qed.

End RecordedEntryPoints.

Lemma paginated_capture_calls_witness :
  let st := {| self := __init__ true None None 100 100 "png";
               sh := (blank_page 7 1 3 "abcdefg", @nil helper_call) |} in
  let files := [{| getvalue := "abc"; tell := 0 |};
                {| getvalue := "cde"; tell := 0 |};
                {| getvalue := "efg"; tell := 0 |}] in
  let run := _capture_paginated_page (H := recording model_collaborators) 9 (Some 1) st in
  run = (Return files, snd run)
  ∧ ∃ calls targets,
      snd (sh (snd run)) = snd (sh st) ++ calls
      ∧ length targets = length files
      ∧ filter (λ c, observed c = true) calls
        = ScrollWindowTo 0 :: ReadClientHeight :: flat_map page_step targets.
Proof.
  intros st files run.
  assert (Hrun : run = (Return files, snd run)) by (by vm_compute).
  split; [exact Hrun|].
  exact (paginated_capture_calls model_collaborators st 9 (Some 1) files (snd run) Hrun).
Defined.

Lemma scrolling_element_calls_witness :
  let st := {| self := default_screenshot;
               sh := ({| panel_page := blank_page 7 1 3 "abcdefg";
                         element_scroll_height := 700;
                         element_height := 300;
                         element_scroll_top := 50 |}, @nil helper_call) |} in
  let files := [{| getvalue := "abc"; tell := 0 |};
                {| getvalue := "abc"; tell := 0 |};
                {| getvalue := "abc"; tell := 0 |}] in
  let run := capture_scrolling_element (H := recording panel_collaborators)
               9 "#list" true None st in
  run = (Return files, snd run)
  ∧ element_scroll_top (fst (sh (snd run))) = 400
  ∧ ∃ calls,
      snd (sh (snd run)) = snd (sh st) ++ calls
      ∧ filter (λ c, observed c = true) calls
        = [ScrollAnElement "#list" true None;
           TakeScreenshot; IsAtBottom "#list";
           ScrollAnElement "#list" false (Some 100);
           TakeScreenshot; IsAtBottom "#list";
           ScrollAnElement "#list" false (Some 100);
           TakeScreenshot; IsAtBottom "#list"].
Proof.
  intros st files run.
  assert (Hrun : run = (Return files, snd run)) by (by vm_compute).
  split; [exact Hrun|]. split; [by vm_compute|].
  exact (scrolling_element_calls panel_collaborators st 9 "#list" None files (snd run) Hrun).
Defined.

(** * Pagination with a padding that is not smaller than the viewport *)

(** X14: on the model browser, when the effective padding is at least the
    viewport height the scroll target of the first turn is not positive, the
    window stays at 0 and the loop ends at once: a paginated capture returns
    exactly one image, whatever the page height. *)
Theorem pagination_with_large_padding (slf : Screenshot) (p : page) (padding : option Z) :
  let V := snd (viewport p) in
  let P := or_default padding (scroll_padding slf) in
  V <= P →
  ∀ fuel, (1 <= fuel)%nat →
    ∃ f p',
      _capture_paginated_page fuel padding {| self := slf; sh := p |}
      = (Return [f], {| self := slf; sh := p' |})
      ∧ scroll_top p' = 0
      ∧ scroll_log p' = scroll_log p ++ [0; 0].
Proof.
  intros V P HP fuel Hfuel. destruct fuel as [|fuel]; [lia|].
  unfold _capture_paginated_page.
  unfold bind at 1, get_self at 1. simpl. fold P.
  unfold bind at 1, call at 1. simpl.
  assert (Hclamp0 : clamp_scroll p 0 = 0) by (unfold clamp_scroll; lia).
  rewrite Hclamp0.
  unfold bind at 1, call at 1. simpl. fold V.
  cbn [paginated_loop]. unfold bind at 1.
  destruct (model_capture_single_viewport slf (set_scroll p 0)) as [f ->].
  assert (Hclamp : clamp_scroll (set_scroll p 0) (0 + V - P) = 0)
    by (unfold clamp_scroll; simpl; lia).
  unfold bind, call, sleep, ret. simpl. rewrite Hclamp. simpl.
  exists f, (set_scroll (set_scroll p 0) 0). split; [done|]. split; [done|].
  simpl. by rewrite <- app_assoc.
Qed.

Lemma pagination_with_large_padding_witness :
  let slf := default_screenshot in
  let p := blank_page 3000 1 80 "abc" in
  snd (viewport p) <= or_default None (scroll_padding slf)
  ∧ ∃ f p',
      _capture_paginated_page 1 None {| self := slf; sh := p |}
      = (Return [f], {| self := slf; sh := p' |})
      ∧ scroll_top p' = 0
      ∧ scroll_log p' = scroll_log p ++ [0; 0].
Proof.
  intros slf p.
  assert (H1 : snd (viewport p) <= or_default None (scroll_padding slf)) by (by vm_compute).
  split; [exact H1|].
  exact (pagination_with_large_padding slf p None H1 1%nat ltac:(lia)).
Defined.

(** * Exception objects *)

Lemma string_app_assoc (a b c : string) : ((a ++ b) ++ c = a ++ (b ++ c))%string.
Proof.
  induction a as [|x a IH]; [done|].
  change (String x ((a ++ b) ++ c) = String x (a ++ b ++ c))%string. by f_equal.
Qed.

Lemma init_without_details (h : gmap nat (gmap string (option string)))
    (msg : string) (stacktrace : option string) :
  let l := fresh (dom h) in
  ScreenshotException_init msg stacktrace None h
  = ({| exc_msg := msg; exc_details := l |},
     <[l := {[ "stracktrace" := stacktrace ]}]> h)
  ∧ h !! l = None.
Proof.
  intros l. assert (Hfresh : h !! l = None) by (apply not_elem_of_dom, is_fresh).
  split; [|done]. unfold ScreenshotException_init, new_dict. fold l. f_equal.
  apply map_eq. intros l'. destruct (decide (l' = l)) as [->|Hne].
  - by rewrite lookup_alter_eq, !lookup_insert_eq.
  - by rewrite lookup_alter_ne, !lookup_insert_ne.
Qed.

(** X15: [ScreenshotException] keeps the details dictionary it is given and
    writes the stack trace into it under the key ["stracktrace"], replacing
    any value already there: the caller's dictionary is changed, every other
    dictionary is left alone.  Built by [SeleniumError] this is the details
    dictionary of the Selenium exception itself.  Without details a new
    dictionary is made that holds the stack trace alone (possibly [None]). *)
Theorem details_dictionary_is_shared (h : gmap nat (gmap string (option string)))
    (msg : string) (stacktrace : option string) :
  (∀ l d, h !! l = Some d →
     let '(e, h') := ScreenshotException_init msg stacktrace (Some l) h in
     exc_msg e = msg ∧ exc_details e = l
     ∧ h' !! l = Some (<["stracktrace" := stacktrace]> d)
     ∧ ∀ l', l' ≠ l → h' !! l' = h !! l')
  ∧ (let '(e, h') := ScreenshotException_init msg stacktrace None h in
     exc_msg e = msg ∧ h !! exc_details e = None
     ∧ h' !! exc_details e = Some {[ "stracktrace" := stacktrace ]}
     ∧ ∀ l', l' ≠ exc_details e → h' !! l' = h !! l')
  ∧ (∀ message e l d, she_details e = Some l → h !! l = Some d →
       let '(x, h') := SeleniumError_init message e h in
       exc_msg x = (message ++ " | " ++ she_msg e)%string ∧ exc_details x = l
       ∧ h' !! l = Some (<["stracktrace" := she_stacktrace e]> d)).
Proof.
  split; [|split].
  - intros l d Hd. unfold ScreenshotException_init. simpl.
    split; [done|]. split; [done|]. split.
    + by rewrite lookup_alter_eq, Hd.
    + intros l' Hne. by rewrite lookup_alter_ne.
  - destruct (init_without_details h msg stacktrace) as [-> Hfresh]. simpl.
    split; [done|]. split; [done|]. split.
    + by rewrite lookup_insert_eq.
    + intros l' Hne. by rewrite lookup_insert_ne.
  - intros message e l d He Hd. unfold SeleniumError_init, ScreenshotException_init.
    rewrite He. simpl. split; [done|]. split; [done|].
    by rewrite lookup_alter_eq, Hd.
Qed.

Lemma details_dictionary_is_shared_witness :
  let h : gmap nat (gmap string (option string)) :=
    {[ 0%nat := {[ "css_selector" := Some "#list" ]} ]} in
  let e := {| she_msg := "not found"; she_stacktrace := Some "trace";
              she_details := Some 0%nat |} in
  h !! 0%nat = Some {[ "css_selector" := Some "#list" ]}
  ∧ snd (SeleniumError_init "A selenium issue arose" e h) !! 0%nat
    = Some (<["stracktrace" := Some "trace"]> {[ "css_selector" := Some "#list" ]}).
Proof.
  intros h e.
  assert (Hd : h !! 0%nat = Some {[ "css_selector" := Some "#list" ]}) by done.
  split; [exact Hd|].
  pose proof (proj2 (proj2 (details_dictionary_is_shared h "" None))
                "A selenium issue arose" e 0%nat _ eq_refl Hd) as Hw.
  destruct (SeleniumError_init "A selenium issue arose" e h) as [x h'].
  exact (proj2 (proj2 Hw)).
Defined.

(** X16: a [ScreenshotException] built without details prints as the fixed
    heading, the single line of its stack trace under the key ["stracktrace"]
    and its message, whatever order the dictionary yields its items in. *)
Theorem str_of_exception_without_details
    (items : gmap string (option string) → list (string * option string))
    (h : gmap nat (gmap string (option string))) (msg : string)
    (stacktrace : option string) :
  (∀ d, items d ≡ₚ map_to_list d) →
  let '(e, h') := ScreenshotException_init msg stacktrace None h in
  ∃ d, h' !! exc_details e = Some d
       ∧ ScreenshotException_str (exc_msg e) (items d)
         = ("Screenshot Exception: " ++ newline
            ++ "Exception Details:" ++ newline
            ++ "stracktrace: " ++ str_detail stacktrace ++ newline
            ++ "Message: " ++ msg)%string.
Proof.
  intros Hitems.
  destruct (init_without_details h msg stacktrace) as [-> _]. simpl.
  exists {[ "stracktrace" := stacktrace ]}. split; [by rewrite lookup_insert_eq|].
  assert (Hone : items {[ "stracktrace" := stacktrace ]} = [("stracktrace", stacktrace)]).
  { apply Permutation_singleton_r. rewrite Hitems. by rewrite map_to_list_singleton. }
  rewrite Hone. unfold ScreenshotException_str. simpl foldl.
  by rewrite !string_app_assoc.
Qed.

Lemma str_of_exception_without_details_witness :
  ScreenshotException_str "boom" (map_to_list {[ "stracktrace" := Some "line 1" ]})
  = ("Screenshot Exception: " ++ newline ++ "Exception Details:" ++ newline
     ++ "stracktrace: line 1" ++ newline ++ "Message: boom")%string.
Proof.
  pose proof (str_of_exception_without_details map_to_list ∅ "boom" (Some "line 1")
                (λ d, reflexivity (map_to_list d))) as Hw.
  destruct (init_without_details (∅ : gmap nat (gmap string (option string)))
              "boom" (Some "line 1")) as [Hinit _].
  rewrite Hinit in Hw. destruct Hw as (d & Hd & Hstr).
  rewrite lookup_insert_eq in Hd. injection Hd as <-. exact Hstr.
Defined.

(** * Stitching more than once, and stitching a page with its own top *)

(** X17: the clamped offset stays in the instance: after one stitch a second
    one runs with [min(pixel_match_offset, h1, h2)], the smaller of the two
    header heights included, even when its own header is the higher one. *)
Theorem offset_stays_clamped {browser} (st : state browser)
    header_1 footer_1 header_2 footer_2 :
  let st1 := snd (_crop_and_stitch_image header_1 footer_1 st) in
  let offset := Z.min (Z.min (pixel_match_offset (self st)) (height header_1))
                      (height header_2) in
  pixel_match_offset (self st1)
    = Z.min (pixel_match_offset (self st)) (height header_1)
  ∧ fst (_crop_and_stitch_image header_2 footer_2 st1)
    = match find_crop_row header_2 footer_2 offset with
      | Return crop_row => Return (stitch_at header_2 footer_2 crop_row)
      | Raise e => Raise (ScreenshotException stitch_error e)
      | OutOfFuel => OutOfFuel
      end
  ∧ pixel_match_offset (self (snd (_crop_and_stitch_image header_2 footer_2 st1)))
    = offset.
Proof.
  intros st1 offset.
  assert (H1 : pixel_match_offset (self st1)
               = Z.min (pixel_match_offset (self st)) (height header_1)).
  { unfold st1. rewrite crop_and_stitch_run. by destruct (find_crop_row _ _ _). }
  split; [done|]. rewrite crop_and_stitch_run, H1. fold offset.
  by destruct (find_crop_row header_2 footer_2 offset).
Qed.

(** X18: when the offset is not smaller than the header height and the footer
    image begins with the rows of the header image -- a screenshot of the
    whole page under a capture of its top -- the seam is found at row 0 and
    the stitched image has exactly the rows of the footer image, converted to
    RGB. *)
Theorem stitch_of_page_with_its_top {browser} (st : state browser)
    header_image footer_image (rest : list row) :
  well_formed header_image → well_formed footer_image →
  im_width header_image = im_width footer_image →
  im_mode header_image = im_mode footer_image →
  1 <= height header_image <= pixel_match_offset (self st) →
  im_rows footer_image = im_rows header_image ++ rest →
  ∃ stitched_image st',
    _crop_and_stitch_image header_image footer_image st = (Return stitched_image, st')
    ∧ im_rows stitched_image
      = convert_rows (im_mode footer_image) (im_rows footer_image).
Proof.
  intros Hwfh Hwff Hw Hmode Hoff Hrows.
  set (offset := Z.min (pixel_match_offset (self st)) (height header_image)).
  assert (Hoffset : offset = height header_image) by (unfold offset; lia).
  assert (Hblock : header_last_hundred_rows header_image offset = im_rows header_image).
  { rewrite header_last_hundred_rows_drop by lia.
    rewrite Hoffset, Z.max_r, Z.sub_diag by lia. done. }
  assert (Hat : block_at (numpy_asarray footer_image)
                  (header_last_hundred_rows header_image offset) 0).
  { rewrite Hblock. unfold numpy_asarray. rewrite Hrows. intros y r Hy. simpl.
    by apply lookup_app_l_Some. }
  assert (Hne : header_last_hundred_rows header_image offset ≠ []).
  { rewrite Hblock. intros Hnil. unfold height in Hoff. rewrite Hnil in Hoff.
    simpl in Hoff. lia. }
  destruct (find_crop_row_spec header_image footer_image offset ltac:(lia))
    as (b0 & Hb0 & Hs).
  pose proof (block_at_ends_at _ _ _ Hne Hat) as Hends.
  assert (Hfind : find_crop_row header_image footer_image offset
                  = Return (Z.of_nat (length (im_rows header_image)))).
  { destruct (find_crop_row _ _ _) as [cr|e|]; [| |done].
    - destruct Hs as [[_ Hnone]|(j & -> & Hj & Hmin)].
      + destruct Hends as (r0 & rl & H0 & Hl & Hi & Hil).
        assert (r0 = b0) by congruence. subst r0.
        destruct (Hnone 0%nat Hi) as [_ Hnot]. destruct Hnot. by exists b0, rl.
      + destruct j as [|j]; [|by destruct (Hmin 0%nat ltac:(lia))].
        f_equal. rewrite Hoffset. unfold height. lia.
    - destruct Hs as (_ & j & Hj & Hover & Hmin).
      destruct j as [|j]; [|by destruct (Hmin 0%nat ltac:(lia))].
      exfalso. unfold height in Hover, Hoffset. rewrite Hrows, length_app in Hover.
      unfold height in *. lia. }
  rewrite crop_and_stitch_run. fold offset. rewrite Hfind.
  eexists _, _. split; [done|].
  destruct (stitch_at_rows header_image footer_image (length (im_rows header_image))
              Hwfh Hwff Hw) as [_ Hr].
  { unfold height. rewrite Hrows, length_app. lia. }
  rewrite Hr, Hmode, Hrows.
  rewrite drop_app_length. unfold convert_rows. by rewrite fmap_app.
Qed.

Lemma stitch_of_page_with_its_top_witness :
  let header_image := column [1; 2] in
  let footer_image := column [1; 2; 3; 4] in
  let st := {| self := default_screenshot; sh := tt |} in
  well_formed header_image ∧ well_formed footer_image
  ∧ 1 <= height header_image <= pixel_match_offset (self st)
  ∧ im_rows footer_image = im_rows header_image ++ [[[3]]; [[4]]]
  ∧ ∃ stitched_image st',
      _crop_and_stitch_image header_image footer_image st = (Return stitched_image, st')
      ∧ im_rows stitched_image
        = convert_rows (im_mode footer_image) (im_rows footer_image).
Proof.
  intros header_image footer_image st.
  assert (H1 : well_formed header_image) by (by repeat constructor).
  assert (H2 : well_formed footer_image) by (by repeat constructor).
  assert (H3 : 1 <= height header_image <= pixel_match_offset (self st)) by (by vm_compute).
  assert (H4 : im_rows footer_image = im_rows header_image ++ [[[3]]; [[4]]]) by done.
  split; [exact H1|]. split; [exact H2|]. split; [exact H3|]. split; [exact H4|].
  exact (stitch_of_page_with_its_top st header_image footer_image [[[3]]; [[4]]]
           H1 H2 eq_refl eq_refl H3 H4).
Defined.

(** * The S3 path and key helpers *)

Local Open Scope string_scope.
Local Open Scope Z_scope.

Lemma lstrip_slashes n s : lstrip_slash (slashes n ++ s) = lstrip_slash s.
Proof.
  induction n as [|n IH]; [done|].
  change (slashes (S n) ++ s) with (String slash (slashes n ++ s)).
  cbn [lstrip_slash]. by rewrite Ascii.eqb_refl.
Qed.

Lemma rstrip_cons c s :
  rstrip_slash (String c s)
  = match rstrip_slash s with
    | EmptyString => if Ascii.eqb c slash then EmptyString else String c EmptyString
    | r => String c r
    end.
Proof. done. Qed.

Lemma rstrip_slashes_only m : rstrip_slash (slashes m) = EmptyString.
Proof.
  induction m as [|m IH]; [done|].
  change (slashes (S m)) with (String slash (slashes m)).
  by rewrite rstrip_cons, IH, Ascii.eqb_refl.
Qed.

Lemma rstrip_app_slashes s m : rstrip_slash (s ++ slashes m) = rstrip_slash s.
Proof.
  induction s as [|c s IH]; [apply rstrip_slashes_only|].
  change (String c s ++ slashes m) with (String c (s ++ slashes m)).
  by rewrite !rstrip_cons, IH.
Qed.

Lemma lstrip_app s t :
  lstrip_slash (s ++ t)
  = if decide (lstrip_slash s = EmptyString) then lstrip_slash t else lstrip_slash s ++ t.
Proof.
  induction s as [|c s IH]; [done|].
  change (String c s ++ t) with (String c (s ++ t)). cbn [lstrip_slash].
  destruct (Ascii.eqb c slash); [done|]. by case_decide.
Qed.

Lemma lstrip_slashes_only m : lstrip_slash (slashes m) = EmptyString.
Proof.
  induction m as [|m IH]; [done|].
  change (slashes (S m)) with (String slash (slashes m)).
  cbn [lstrip_slash]. by rewrite Ascii.eqb_refl.
Qed.

Lemma strip_outer_slashes n s m :
  strip_slash (slashes n ++ s ++ slashes m) = strip_slash s.
Proof.
  unfold strip_slash. rewrite lstrip_slashes, lstrip_app.
  case_decide as Hs.
  - by rewrite Hs, lstrip_slashes_only.
  - apply rstrip_app_slashes.
Qed.

(** X19: leading and trailing slashes of either argument do not change the
    generated path, however many there are. *)
Theorem generate_file_path_ignores_outer_slashes s3_path file_to_store n m n' m' :
  _generate_file_path (slashes n ++ s3_path ++ slashes m)
                      (slashes n' ++ file_to_store ++ slashes m')
  = _generate_file_path s3_path file_to_store.
Proof. unfold _generate_file_path. by rewrite !strip_outer_slashes. Qed.

Lemma lstrip_no_leading s t : lstrip_slash s ≠ String slash t.
Proof.
  induction s as [|c s IH]; [done|]. cbn [lstrip_slash].
  destruct (Ascii.eqb_spec c slash) as [->|Hne]; [done|]. congruence.
Qed.

Lemma rstrip_no_trailing s t : rstrip_slash s ≠ t ++ String slash EmptyString.
Proof.
  revert t. induction s as [|c s IH]; intros t.
  { by destruct t. }
  rewrite rstrip_cons. destruct (rstrip_slash s) as [|c' r] eqn:Hr.
  - destruct (Ascii.eqb_spec c slash) as [->|Hne]; [by destruct t|].
    destruct t as [|x [|y t]]; cbn [append]; intros [=]; done.
  - destruct t as [|x t]; [done|]. cbn [append]. intros [= -> Heq]. by apply (IH t).
Qed.

Lemma rstrip_keeps_head s c t :
  rstrip_slash s = String c t → ∃ t', s = String c t'.
Proof.
  destruct s as [|c' s]; [done|]. rewrite rstrip_cons.
  destruct (rstrip_slash s); [destruct (Ascii.eqb c' slash); [done|]|];
    intros [= -> _]; eauto.
Qed.

Lemma strip_no_outer_slash s : no_outer_slash (strip_slash s).
Proof.
  split; [|intros t; apply rstrip_no_trailing].
  intros t Hs. unfold strip_slash in Hs.
  apply rstrip_keeps_head in Hs as [t' Hs]. by apply lstrip_no_leading in Hs.
Qed.

Lemma rstrip_fixed s : (∀ t, s ≠ t ++ String slash EmptyString) → rstrip_slash s = s.
Proof.
  induction s as [|c s IH]; [done|]. intros Hs. rewrite rstrip_cons.
  destruct s as [|c' s].
  - simpl. destruct (Ascii.eqb_spec c slash) as [->|]; [|done].
    by destruct (Hs EmptyString).
  - rewrite IH; [done|]. intros t Ht. apply (Hs (String c t)). simpl. by rewrite Ht.
Qed.

Lemma strip_fixed s : no_outer_slash s → strip_slash s = s.
Proof.
  intros [Hhead Hlast]. unfold strip_slash.
  assert (Hl : lstrip_slash s = s).
  { destruct s as [|c s]; [done|]. cbn [lstrip_slash].
    destruct (Ascii.eqb_spec c slash) as [->|]; [|done]. by destruct (Hhead s). }
  rewrite Hl. by apply rstrip_fixed.
Qed.

Lemma lstrip_decompose s : ∃ n, s = slashes n ++ lstrip_slash s.
Proof.
  induction s as [|c s [n IH]]; [by exists 0%nat|]. cbn [lstrip_slash].
  destruct (Ascii.eqb_spec c slash) as [->|Hne]; [|by exists 0%nat].
  exists (S n). change (String slash s = String slash (slashes n ++ lstrip_slash s)).
  by rewrite <- IH.
Qed.

Lemma rstrip_decompose s : ∃ m, s = rstrip_slash s ++ slashes m.
Proof.
  induction s as [|c s [m IH]]; [by exists 0%nat|]. rewrite rstrip_cons.
  destruct (rstrip_slash s) as [|c' r] eqn:Hr.
  - change (s = slashes m) in IH.
    destruct (Ascii.eqb_spec c slash) as [->|Hne].
    + exists (S m). by rewrite IH at 1.
    + exists m. by rewrite IH at 1.
  - exists m. change (String c s = String c (String c' r ++ slashes m)).
    by rewrite <- IH.
Qed.

Lemma strip_decompose s : ∃ n m, s = slashes n ++ strip_slash s ++ slashes m.
Proof.
  destruct (lstrip_decompose s) as [n Hn].
  destruct (rstrip_decompose (lstrip_slash s)) as [m Hm].
  exists n, m. unfold strip_slash. by rewrite <- Hm.
Qed.

(** X20: the generated path is [folder/name], where [folder] and [name] are the
    two arguments without the slashes at their ends: each neither starts nor
    ends with a slash, and each argument is its part between two runs of
    slashes, so slashes inside an argument are kept. *)
Theorem generate_file_path_shape s3_path file_to_store :
  ∃ folder name n m n' m',
    _generate_file_path s3_path file_to_store = folder ++ "/" ++ name
    ∧ no_outer_slash folder ∧ no_outer_slash name
    ∧ s3_path = slashes n ++ folder ++ slashes m
    ∧ file_to_store = slashes n' ++ name ++ slashes m'.
Proof.
  destruct (strip_decompose s3_path) as (n & m & Hp).
  destruct (strip_decompose file_to_store) as (n' & m' & Hf).
  exists (strip_slash s3_path), (strip_slash file_to_store), n, m, n', m'.
  split; [done|]. split; [apply strip_no_outer_slash|].
  split; [apply strip_no_outer_slash|]. done.
Qed.

(** X21: arguments that neither start nor end with a slash are joined as they
    are, with one slash between them. *)
Theorem generate_file_path_of_clean_arguments s3_path file_to_store :
  no_outer_slash s3_path → no_outer_slash file_to_store →
  _generate_file_path s3_path file_to_store = s3_path ++ "/" ++ file_to_store.
Proof.
  intros Hp Hf. unfold _generate_file_path. by rewrite !strip_fixed.
Qed.

Lemma no_outer_slash_decide s :
  strip_slash s = s → no_outer_slash s.
Proof. intros <-. apply strip_no_outer_slash. Qed.

Lemma generate_file_path_of_clean_arguments_witness :
  no_outer_slash "logs/2015" ∧ no_outer_slash "run.log"
  ∧ _generate_file_path "logs/2015" "run.log" = "logs/2015/run.log".
Proof.
  assert (Hp : no_outer_slash "logs/2015") by (by apply no_outer_slash_decide).
  assert (Hf : no_outer_slash "run.log") by (by apply no_outer_slash_decide).
  split; [exact Hp|]. split; [exact Hf|].
  exact (generate_file_path_of_clean_arguments "logs/2015" "run.log" Hp Hf).
Defined.

Lemma most_recent_snoc {T} (gtb : T → T → bool) l key :
  get_most_recent_file_from_s3_key_list gtb (l ++ [key])%list
  = match get_most_recent_file_from_s3_key_list gtb l with
    | None => Some key
    | Some most_recent =>
        if gtb (last_modified key) (last_modified most_recent)
        then Some key else Some most_recent
    end.
Proof. unfold get_most_recent_file_from_s3_key_list. by rewrite foldl_app. Qed.

(** X22: on an empty listing the selection returns [None]; otherwise it returns
    a key of the listing that no key of the listing is later than, and among
    such keys the first one: it is later than every key before it.  [>] on the
    timestamps is taken asymmetric and negatively transitive, as a strict
    total order is. *)
Theorem most_recent_key_is_first_latest {T} (gtb : T → T → bool) key_list :
  (∀ a b, gtb a b = true → gtb b a = false) →
  (∀ a b c, gtb a c = true → gtb a b = true ∨ gtb b c = true) →
  match get_most_recent_file_from_s3_key_list gtb key_list with
  | None => key_list = []
  | Some most_recent =>
      ∃ i : nat, key_list !! i = Some most_recent
        ∧ (∀ (j : nat) key, (j < i)%nat → key_list !! j = Some key →
             gtb (last_modified most_recent) (last_modified key) = true)
        ∧ (∀ key, key ∈ key_list →
             gtb (last_modified key) (last_modified most_recent) = false)
  end.
Proof.
  intros Hasym Hneg.
  induction key_list as [|key l IH] using rev_ind; [done|].
  rewrite most_recent_snoc.
  destruct (get_most_recent_file_from_s3_key_list gtb l) as [most_recent|].
  - destruct IH as (i & Hi & Hbefore & Hall).
    pose proof (lookup_lt_Some _ _ _ Hi) as Hlt.
    destruct (gtb (last_modified key) (last_modified most_recent)) eqn:Hgt.
    + exists (length l). split; [by rewrite lookup_app_r, Nat.sub_diag|].
      split.
      * intros j k Hj Hk. rewrite lookup_app_l in Hk by done.
        destruct (Hneg _ (last_modified k) _ Hgt) as [Hk'|Hk']; [done|].
        rewrite Hall in Hk'; [done|]. by eapply list_elem_of_lookup_2.
      * intros k [Hk| ->%list_elem_of_singleton]%elem_of_app.
        -- destruct (gtb (last_modified k) (last_modified key)) eqn:Hk'; [|done].
           destruct (Hneg _ (last_modified most_recent) _ Hk') as [Hc|Hc].
           ++ by rewrite Hall in Hc.
           ++ by rewrite (Hasym _ _ Hgt) in Hc.
        -- destruct (gtb (last_modified key) (last_modified key)) eqn:Hk'; [|done].
           by rewrite (Hasym _ _ Hk') in Hk'.
    + exists i. split; [by rewrite lookup_app_l|]. split.
      * intros j k Hj Hk. rewrite lookup_app_l in Hk by lia. eauto.
      * intros k [Hk| ->%list_elem_of_singleton]%elem_of_app; [eauto|done].
  - subst l. exists 0%nat. split; [done|]. split; [lia|].
    intros k ->%list_elem_of_singleton.
    destruct (gtb (last_modified key) (last_modified key)) eqn:Hk'; [|done].
    by rewrite (Hasym _ _ Hk') in Hk'.
Qed.

Lemma most_recent_key_is_first_latest_witness :
  let older := {| key_name := "a.png"; last_modified := 3 |} in
  let latest := {| key_name := "b.png"; last_modified := 7 |} in
  let again := {| key_name := "c.png"; last_modified := 7 |} in
  get_most_recent_file_from_s3_key_list Z.gtb [older; latest; again] = Some latest
  ∧ ∃ i : nat, [older; latest; again] !! i = Some latest
      ∧ (∀ (j : nat) key, (j < i)%nat → [older; latest; again] !! j = Some key →
           (last_modified latest >? last_modified key) = true)
      ∧ (∀ key, key ∈ [older; latest; again] →
           (last_modified key >? last_modified latest) = false).
Proof.
  intros older latest again. split; [reflexivity|].
  assert (Hasym : ∀ a b, (a >? b) = true → (b >? a) = false) by (intros; lia).
  assert (Hneg : ∀ a b c, (a >? c) = true → (a >? b) = true ∨ (b >? c) = true)
    by (intros; lia).
  exact (most_recent_key_is_first_latest Z.gtb [older; latest; again] Hasym Hneg).
Defined.
